(** * lsp-plugins DSP core: biquad cascades, spectrum analyzer, oscilloscope

    Shallow embedding of
      - include/core/native/filters.h   (biquad_process_x1/x2/x4/x8),
      - src/core/util/Analyzer.cpp      (Analyzer),
      - src/core/util/Oscilloscope.cpp  (Oscilloscope),
    and the properties of the specification stated over it.

    Conventions.
      - Samples live in an arbitrary carrier [F] with an addition and a
        multiplication about which nothing is assumed; every statement
        therefore holds for any interpretation of the C operators on
        [float], and the closed examples instantiate [F] with [Z].
      - [size_t] is the 64-bit unsigned type of LP64 targets: a [Z] with the
        reduction modulo [2^64] written where the source can wrap.
      - A C array is a total map from indices to values ([nat -> F] for the
        small fixed arrays of [biquad_t], [Z -> F] for the sample buffers);
        a [dsp::copy] is a ranged update of such a map.
      - A stream read through [*(src++)] is a list; the values stored
        through [*(dst++)] are returned as a list, in store order.
      - A map carries no length: where a statement depends on the accesses
        of [Analyzer::process] staying within the ring of a channel, it
        says so, and [AnalyzerBounds] gives the test. *)

From Stdlib Require Import ZArith List Lia Bool Arith.
Import ListNotations.

Set Implicit Arguments.

(* ================================================================== *)
(** * Biquad filters (include/core/native/filters.h) *)
(* ================================================================== *)

Module Biquad.

Section Filters.
Variable F : Type.
Variable fzero : F.
Variable fadd : F -> F -> F.
Variable fmul : F -> F -> F.

Local Notation "x +! y" := (fadd x y) (at level 50, left associativity).
Local Notation "x *! y" := (fmul x y) (at level 40, left associativity).

(** A fixed-size [float] array. *)
Definition arr := nat -> F.

Definition upd (m : arr) (i : nat) (v : F) : arr :=
  fun j => if Nat.eqb j i then v else m j.

(** [biquad_t]: the delay memory [d] and the coefficient views [x1], [x2],
    [x4].  The structure is declared in a header that is not part of the
    sources at hand; the fields are the ones the routines access.  Each
    routine reads a single view, so the views are kept side by side. *)
Record biquad_t := mk_biquad {
  d     : arr;
  x1_a  : arr;  x1_b  : arr;
  x2_a  : arr;  x2_b  : arr;
  x4_a0 : arr;  x4_a1 : arr;  x4_a2 : arr;  x4_b1 : arr;  x4_b2 : arr
}.

Definition set_d (f : biquad_t) (i : nat) (v : F) : biquad_t :=
  mk_biquad (upd (d f) i v)
            (x1_a f) (x1_b f) (x2_a f) (x2_b f)
            (x4_a0 f) (x4_a1 f) (x4_a2 f) (x4_b1 f) (x4_b2 f).

(** ** biquad_process_x1 *)

Fixpoint biquad_process_x1 (src : list F) (f : biquad_t) : list F * biquad_t :=
  match src with
  | [] => ([], f)
  | s :: src' =>
      let s2 := x1_a f 0 *! s +! d f 0 in
      let p1 := x1_a f 2 *! s +! x1_b f 0 *! s2 in
      let p2 := x1_a f 3 *! s +! x1_b f 1 *! s2 in
      (* dst[i] = s2; shift buffer *)
      let f := set_d f 0 (d f 1 +! p1) in
      let f := set_d f 1 p2 in
      let '(dst, f) := biquad_process_x1 src' f in
      (s2 :: dst, f)
  end.

(** ** biquad_process_x2 *)

(** The [for (i=1; i<count; ++i)] loop: both filters, [r] carries the first
    filter's result to the next iteration. *)
Fixpoint x2_both (src : list F) (r : F) (f : biquad_t) : list F * F * biquad_t :=
  match src with
  | [] => ([], r, f)
  | s :: src' =>
      let r2 := x2_a f 4 *! r +! d f 4 in
      let s2 := x2_a f 0 *! s +! d f 0 in
      let q1 := x2_a f 6 *! r +! x2_b f 4 *! r2 in
      let p1 := x2_a f 2 *! s +! x2_b f 0 *! s2 in
      let q2 := x2_a f 7 *! r +! x2_b f 5 *! r2 in
      let p2 := x2_a f 3 *! s +! x2_b f 1 *! s2 in
      (* r = s2; *(dst++) = r2; shift buffers *)
      let f := set_d f 4 (d f 5 +! q1) in
      let f := set_d f 0 (d f 1 +! p1) in
      let f := set_d f 5 q2 in
      let f := set_d f 1 p2 in
      let '(dst, r, f) := x2_both src' s2 f in
      (r2 :: dst, r, f)
  end.

Definition biquad_process_x2 (src : list F) (f : biquad_t) : list F * biquad_t :=
  match src with
  | [] => ([], f)                                   (* count <= 0 *)
  | s :: src' =>
      (* first filter only *)
      let s2 := x2_a f 0 *! s +! d f 0 in
      let p1 := x2_a f 2 *! s +! x2_b f 0 *! s2 in
      let p2 := x2_a f 3 *! s +! x2_b f 1 *! s2 in
      let r  := s2 in
      let f := set_d f 0 (d f 1 +! p1) in
      let f := set_d f 1 p2 in
      (* both filters *)
      let '(dst, r, f) := x2_both src' r f in
      (* second filter only *)
      let r2 := x2_a f 4 *! r +! d f 4 in
      let q1 := x2_a f 6 *! r +! x2_b f 4 *! r2 in
      let q2 := x2_a f 7 *! r +! x2_b f 5 *! r2 in
      let f := set_d f 4 (d f 5 +! q1) in
      let f := set_d f 5 q2 in
      (dst ++ [r2], f)
  end.

(** Coefficients of one section, [y = a0 x + d0; d0' = d1 + a1 x + b1 y;
    d1' = a2 x + b2 y], and the two layouts given by the comments of the
    source: [a: a0 a0 a1 a2 | i0 i0 i1 i2], [b: b1 b2 0 0 | j1 j2 0 0]. *)
Record coeffs := mk_coeffs { c_a0 : F; c_a1 : F; c_a2 : F; c_b1 : F; c_b2 : F }.

Definition lay_a (A : coeffs) : list F := [c_a0 A; c_a0 A; c_a1 A; c_a2 A].
Definition lay_b (A : coeffs) : list F := [c_b1 A; c_b2 A; fzero; fzero].

Definition of_list (l : list F) : arr := fun i => nth i l fzero.

Definition nil_arr : arr := fun _ => fzero.

(** An x1 filter with coefficients [A] and delay memory [(d0, d1)]. *)
Definition x1_filter (A : coeffs) (d0 d1 : F) : biquad_t :=
  mk_biquad (of_list [d0; d1])
            (of_list (lay_a A)) (of_list (lay_b A))
            nil_arr nil_arr nil_arr nil_arr nil_arr nil_arr nil_arr.

(** An x2 filter set up as [A] followed by [B]; the first section owns
    [d[0], d[1]], the second [d[4], d[5]]. *)
Definition x2_cascade (A B : coeffs) (dA0 dA1 dB0 dB1 : F) : biquad_t :=
  mk_biquad (of_list [dA0; dA1; fzero; fzero; dB0; dB1])
            nil_arr nil_arr
            (of_list (lay_a A ++ lay_a B)) (of_list (lay_b A ++ lay_b B))
            nil_arr nil_arr nil_arr nil_arr nil_arr.


(** ** biquad_process_x4 and biquad_process_x8 *)

(** The loops of [biquad_process_x8] are those of [biquad_process_x4] with
    the coefficients read through the pointer [bq] instead of [f->x4] and
    the second delay bank at [d[8..11]] instead of [d[4..7]].  A [view] is
    such a way of reading the five coefficient rows, possibly depending on
    the current contents of the structure (as [bq] points into [f]); [bank]
    is the index of the second delay bank. *)
Record view := mk_view {
  v_a0 : biquad_t -> nat -> F;
  v_a1 : biquad_t -> nat -> F;
  v_a2 : biquad_t -> nat -> F;
  v_b1 : biquad_t -> nat -> F;
  v_b2 : biquad_t -> nat -> F
}.

Definition x4_view : view := mk_view x4_a0 x4_a1 x4_a2 x4_b1 x4_b2.

(** One filter of the start and finish loops:
    [s2[k] = a0[k]*s[k] + d[k]; p1[k] = ...; p2[k] = ...;
     d[k] = d[bank+k] + p1[k]; d[bank+k] = p2[k]]. *)
Definition lane (V : view) (bank k : nat) (s s2 : arr) (f : biquad_t)
  : arr * biquad_t :=
  let s2k := v_a0 V f k *! s k +! d f k in
  let p1k := v_a1 V f k *! s k +! v_b1 V f k *! s2k in
  let p2k := v_a2 V f k *! s k +! v_b2 V f k *! s2k in
  let f := set_d f k (d f (bank + k) +! p1k) in
  let f := set_d f (bank + k) p2k in
  (upd s2 k s2k, f).

(** [if (mask & bit) { lane }] *)
Definition lane_if (V : view) (bank k : nat) (mask bit : Z)
  (s s2 : arr) (f : biquad_t) : arr * biquad_t :=
  if negb (Z.land mask bit =? 0)%Z then lane V bank k s s2 f else (s2, f).

(** [s[3] = s2[2]; s[2] = s2[1]; s[1] = s2[0]] *)
Definition shift_buffer (s s2 : arr) : arr :=
  upd (upd (upd s 3 (s2 2)) 2 (s2 1)) 1 (s2 0).

(** Registers of one pass: the local arrays [s], [s2], the lane [mask] and
    the structure. *)
Definition regs : Type := arr * arr * Z * biquad_t.

(** "Start filters": [do { ... if ((++i) >= count) break; } while (i < 3)].
    [src] holds the samples not yet read, so [(++i) >= count] is
    [src' = []].  [mask] never exceeds 14: the shift cannot wrap. *)
Fixpoint x4_start (V : view) (bank : nat) (i : nat) (src : list F)
  (s s2 : arr) (mask : Z) (f : biquad_t) : list F * regs :=
  match src with
  | [] => ([], (s, s2, mask, f))
  | x :: src' =>
      let s := upd s 0 x in
      let mask := Z.lor mask 1 in
      let '(s2, f) := lane V bank 0 s s2 f in
      let '(s2, f) := lane_if V bank 1 mask 2 s s2 f in
      let '(s2, f) := lane_if V bank 2 mask 4 s s2 f in
      let s := shift_buffer s s2 in
      let mask := Z.shiftl mask 1 in
      let i := S i in
      match src' with
      | [] => (src', (s, s2, mask, f))
      | _ :: _ =>
          if i <? 3 then x4_start V bank i src' s s2 mask f
          else (src', (s, s2, mask, f))
      end
  end.

(** Body of "process all filters simultaneously": all reads of the
    coefficients and of [d] come before the stores, as in the source. *)
Definition all_lanes (V : view) (bank : nat) (x : F) (s s2 : arr) (f : biquad_t)
  : F * arr * arr * biquad_t :=
  let s := upd s 0 x in
  let s2_0 := v_a0 V f 0 *! s 0 +! d f 0 in
  let s2_1 := v_a0 V f 1 *! s 1 +! d f 1 in
  let s2_2 := v_a0 V f 2 *! s 2 +! d f 2 in
  let s2_3 := v_a0 V f 3 *! s 3 +! d f 3 in
  let p1_0 := v_a1 V f 0 *! s 0 +! v_b1 V f 0 *! s2_0 in
  let p1_1 := v_a1 V f 1 *! s 1 +! v_b1 V f 1 *! s2_1 in
  let p1_2 := v_a1 V f 2 *! s 2 +! v_b1 V f 2 *! s2_2 in
  let p1_3 := v_a1 V f 3 *! s 3 +! v_b1 V f 3 *! s2_3 in
  let p2_0 := v_a2 V f 0 *! s 0 +! v_b2 V f 0 *! s2_0 in
  let p2_1 := v_a2 V f 1 *! s 1 +! v_b2 V f 1 *! s2_1 in
  let p2_2 := v_a2 V f 2 *! s 2 +! v_b2 V f 2 *! s2_2 in
  let p2_3 := v_a2 V f 3 *! s 3 +! v_b2 V f 3 *! s2_3 in
  let f := set_d f 0 (d f bank +! p1_0) in
  let f := set_d f 1 (d f (bank + 1) +! p1_1) in
  let f := set_d f 2 (d f (bank + 2) +! p1_2) in
  let f := set_d f 3 (d f (bank + 3) +! p1_3) in
  let f := set_d f bank p2_0 in
  let f := set_d f (bank + 1) p2_1 in
  let f := set_d f (bank + 2) p2_2 in
  let f := set_d f (bank + 3) p2_3 in
  let s2 := upd (upd (upd (upd s2 0 s2_0) 1 s2_1) 2 s2_2) 3 s2_3 in
  (* *(dst++) = s2[3]; shift buffer *)
  (s2_3, shift_buffer s s2, s2, f).

(** [while (i < count)]: one iteration per sample left. *)
Fixpoint x4_main (V : view) (bank : nat) (src : list F) (s s2 : arr) (f : biquad_t)
  : list F * (arr * arr * biquad_t) :=
  match src with
  | [] => ([], (s, s2, f))
  | x :: src' =>
      let '(o, s, s2, f) := all_lanes V bank x s s2 f in
      let '(dst, r) := x4_main V bank src' s s2 f in
      (o :: dst, r)
  end.

(** "Finish processing": [do { ... mask = (mask << 1) & 0x0f; } while (mask != 0)].
    The loop has no counter; [fuel] bounds the iterations and [None] means
    the bound was reached with [mask] still non-zero. *)
Fixpoint x4_finish (V : view) (bank : nat) (fuel : nat)
  (s s2 : arr) (mask : Z) (f : biquad_t) : option (list F * (arr * arr * biquad_t)) :=
  match fuel with
  | O => None
  | S fuel' =>
      let '(s2, f) := lane_if V bank 1 mask 2 s s2 f in
      let '(s2, f) := lane_if V bank 2 mask 4 s s2 f in
      let '(s2, f) := lane V bank 3 s s2 f in
      let o := s2 3 in
      let s := shift_buffer s s2 in
      let mask := Z.land (Z.shiftl mask 1) 15 in
      if (mask =? 0)%Z then Some ([o], (s, s2, f))
      else match x4_finish V bank fuel' s s2 mask f with
           | Some (dst, r) => Some (o :: dst, r)
           | None => None
           end
  end.

(** Four iterations empty any 4-bit mask. *)
Definition finish_fuel : nat := 4.

(** One pass over [src] (non-empty): start, steady state, finish. *)
Definition x4_pass (V : view) (bank : nat) (src : list F) (s s2 : arr) (f : biquad_t)
  : option (list F * (arr * arr * biquad_t)) :=
  let '(src', (s, s2, mask, f)) := x4_start V bank 0 src s s2 0%Z f in
  let '(dst1, (s, s2, f)) := x4_main V bank src' s s2 f in
  match x4_finish V bank finish_fuel s s2 mask f with
  | Some (dst2, r) => Some (dst1 ++ dst2, r)
  | None => None
  end.

Definition biquad_process_x4 (src : list F) (f : biquad_t)
  : option (list F * biquad_t) :=
  match src with
  | [] => Some ([], f)                              (* count <= 0 *)
  | _ :: _ =>
      match x4_pass x4_view 4 src nil_arr nil_arr f with
      | Some (dst, (_, _, f)) => Some (dst, f)
      | None => None
      end
  end.

(** [biquad_x8_t *bq = reinterpret_cast<biquad_x8_t *>(&f->d[n*4])]: what the
    five rows of [bq] hold depends on the layout of [biquad_t] and
    [biquad_x8_t], declared outside these sources, and on the current
    contents of [f]; pass [n] reads them through [bq n]. *)
Variable bq : nat -> view.

(** Contents of the memory at [dst] after the stores [w], when it held
    [old] before. *)
Definition stored (old w : list F) : list F := w ++ skipn (length w) old.

(** Both passes read from [sp = src] and store from [dp = dst]; when the
    caller passes [dst == src] (the only aliasing the interface allows) the
    second pass reads what the first one stored.  The result is the final
    contents of the cells of [dst] that were stored to. *)
Definition biquad_process_x8 (inplace : bool) (src : list F) (f : biquad_t)
  : option (list F * biquad_t) :=
  match src with
  | [] => Some ([], f)                              (* count <= 0 *)
  | _ :: _ =>
      match x4_pass (bq 0) 8 src nil_arr nil_arr f with
      | Some (dst0, (s, s2, f)) =>
          let src1 := if inplace then firstn (length src) (stored src dst0) else src in
          match x4_pass (bq 1) 8 src1 s s2 f with
          | Some (dst1, (_, _, f)) => Some (stored dst0 dst1, f)
          | None => None
          end
      | None => None
      end
  end.

(** ** Number of samples stored to [dst] *)

Lemma biquad_process_x1_length (src : list F) (f : biquad_t) :
  length (fst (biquad_process_x1 src f)) = length src.
Proof.
  revert f. induction src as [|x src IH]; intros f; [reflexivity|].
  cbn [biquad_process_x1].
  match goal with |- context [biquad_process_x1 src ?g] =>
    specialize (IH g); destruct (biquad_process_x1 src g) as [dst f'] end.
  cbn in *. now rewrite IH.
Qed.

Lemma x2_both_length (src : list F) (r : F) (f : biquad_t) :
  length (fst (fst (x2_both src r f))) = length src.
Proof.
  revert r f. induction src as [|x src IH]; intros r f; [reflexivity|].
  cbn [x2_both].
  match goal with |- context [x2_both src ?r' ?g] =>
    specialize (IH r' g); destruct (x2_both src r' g) as [[dst r''] f'] end.
  cbn in *. now rewrite IH.
Qed.

Lemma biquad_process_x2_length (src : list F) (f : biquad_t) :
  length (fst (biquad_process_x2 src f)) = length src.
Proof.
  destruct src as [|x src]; [reflexivity|].
  cbn [biquad_process_x2].
  match goal with |- context [x2_both src ?r' ?g] =>
    pose proof (x2_both_length src r' g) as H;
    destruct (x2_both src r' g) as [[dst r''] f'] end.
  cbn in *. rewrite length_app, H. cbn. lia.
Qed.

(** The lane mask of the finish loop, [mask = (mask << 1) & 0x0f]. *)
Definition next_mask (mask : Z) : Z := Z.land (Z.shiftl mask 1) 15.

(** Iterations of the finish loop entered with [mask], within [fuel]. *)
Fixpoint drain_len (fuel : nat) (mask : Z) : nat :=
  match fuel with
  | O => O
  | S fuel' =>
      if (next_mask mask =? 0)%Z then 1 else S (drain_len fuel' (next_mask mask))
  end.

Definition regs_mask (r : regs) : Z := let '(_, _, mask, _) := r in mask.

(** Lane mask left by the start loop after [n] samples. *)
Definition start_mask (n : nat) : Z :=
  match n with
  | 0%nat => 0
  | 1%nat => 2
  | 2%nat => 6
  | _ => 14
  end%Z.

Ltac split_lanes :=
  repeat match goal with
  | |- context [lane_if ?V ?b ?k ?m ?bit ?s ?s2 ?f] =>
      destruct (lane_if V b k m bit s s2 f) as [? ?]
  | |- context [lane ?V ?b ?k ?s ?s2 ?f] =>
      destruct (lane V b k s s2 f) as [? ?]
  end.

Lemma next_mask_mod (mask : Z) : next_mask mask = ((2 * mask) mod 16)%Z.
Proof.
  unfold next_mask. rewrite Z.shiftl_mul_pow2 by lia.
  change 15%Z with (Z.ones 4). rewrite Z.land_ones by lia.
  f_equal. lia.
Qed.

Lemma next_mask_four (mask : Z) :
  next_mask (next_mask (next_mask (next_mask mask))) = 0%Z.
Proof.
  rewrite !next_mask_mod. Z.div_mod_to_equations. lia.
Qed.

Lemma x4_start_result (V : view) (bank : nat) (src : list F)
  (s s2 : arr) (f : biquad_t) :
  fst (x4_start V bank 0 src s s2 0%Z f) = skipn 3 src /\
  regs_mask (snd (x4_start V bank 0 src s s2 0%Z f)) = start_mask (length src).
Proof.
  destruct src as [|x0 [|x1 [|x2 [|x3 src]]]];
    cbn [x4_start Nat.ltb Nat.leb length skipn]; split_lanes;
    cbn [fst snd regs_mask]; split_lanes; split; reflexivity.
Qed.

Lemma x4_main_length (V : view) (bank : nat) (src : list F)
  (s s2 : arr) (f : biquad_t) :
  length (fst (x4_main V bank src s s2 f)) = length src.
Proof.
  revert s s2 f. induction src as [|x src IH]; intros s s2 f; [reflexivity|].
  cbn [x4_main].
  destruct (all_lanes V bank x s s2 f) as [[[o s'] s2'] f'].
  specialize (IH s' s2' f').
  destruct (x4_main V bank src s' s2' f') as [dst r]. cbn in *. now rewrite IH.
Qed.

Lemma x4_finish_length (V : view) (bank : nat) (fuel : nat) :
  forall (s s2 : arr) (mask : Z) (f : biquad_t) dst r,
    x4_finish V bank fuel s s2 mask f = Some (dst, r) ->
    length dst = drain_len fuel mask.
Proof.
  induction fuel as [|fuel IH]; intros s s2 mask f dst r H; [discriminate|].
  cbn [x4_finish drain_len] in *. fold (next_mask mask) in H.
  destruct (lane_if V bank 1 mask 2 s s2 f) as [s2a fa].
  destruct (lane_if V bank 2 mask 4 s s2a fa) as [s2b fb].
  destruct (lane V bank 3 s s2b fb) as [s2c fc].
  destruct (next_mask mask =? 0)%Z.
  - inversion H; subst. reflexivity.
  - destruct (x4_finish V bank fuel (shift_buffer s s2c) s2c (next_mask mask) fc)
      as [[dst' r']|] eqn:E; [|discriminate].
    inversion H; subst. cbn. f_equal. eapply IH; eauto.
Qed.

(** The finish loop always leaves within four iterations. *)
Lemma x4_finish_total (V : view) (bank : nat)
  (s s2 : arr) (mask : Z) (f : biquad_t) :
  x4_finish V bank finish_fuel s s2 mask f <> None.
Proof.
  pose proof (next_mask_four mask) as H4.
  unfold finish_fuel. cbn [x4_finish].
  repeat match goal with
  | |- context [Z.land (Z.shiftl ?m 1) 15] => fold (next_mask m)
  end.
  repeat match goal with
  | |- context [lane_if ?a ?b ?c ?d ?e ?g ?h ?i] =>
      destruct (lane_if a b c d e g h i) as [? ?]
  | |- context [lane ?a ?b ?c ?d ?e ?g] =>
      destruct (lane a b c d e g) as [? ?]
  | |- context [(next_mask ?m =? 0)%Z] =>
      destruct (Z.eqb_spec (next_mask m) 0)
  end; try discriminate.
  contradiction.
Qed.

Lemma x4_pass_length (V : view) (bank : nat) (src : list F)
  (s s2 : arr) (f : biquad_t) :
  src <> [] ->
  exists dst r, x4_pass V bank src s s2 f = Some (dst, r) /\
                length dst = Nat.max (length src) 3.
Proof.
  intros Hne. unfold x4_pass.
  destruct (x4_start_result V bank src s s2 f) as [Hs Hm].
  destruct (x4_start V bank 0 src s s2 0%Z f) as [src' [[[s' s2'] mask] f']].
  cbn [fst snd regs_mask] in Hs, Hm. subst src' mask.
  pose proof (x4_main_length V bank (skipn 3 src) s' s2' f') as Hl.
  destruct (x4_main V bank (skipn 3 src) s' s2' f') as [dst1 [[s'' s2''] f'']].
  cbn [fst] in Hl.
  pose proof (@x4_finish_total V bank s'' s2'' (start_mask (length src)) f'') as Ht.
  destruct (x4_finish V bank finish_fuel s'' s2'' (start_mask (length src)) f'')
    as [[dst2 r]|] eqn:E; [|congruence].
  apply x4_finish_length in E.
  exists (dst1 ++ dst2), r. split; [reflexivity|].
  rewrite length_app, Hl, E, length_skipn.
  destruct src as [|x0 [|x1 [|x2 src]]]; [congruence|reflexivity|reflexivity|].
  cbn [length start_mask]. change (drain_len finish_fuel 14) with 3%nat. lia.
Qed.

Lemma stored_length (old w : list F) :
  length (stored old w) = Nat.max (length old) (length w).
Proof. unfold stored. rewrite length_app, length_skipn. lia. Qed.

(** What each routine stores to [dst]: [count] samples for x1 and x2, and
    [max count 3] samples for a non-empty input of x4 and x8. *)
Lemma biquad_process_x4_length (src : list F) (f : biquad_t) :
  src <> [] ->
  exists dst f', biquad_process_x4 src f = Some (dst, f') /\
                 length dst = Nat.max (length src) 3.
Proof.
  intros Hne. unfold biquad_process_x4.
  destruct (x4_pass_length x4_view 4 nil_arr nil_arr f Hne) as (dst & [[s s2] f'] & E & L).
  destruct src; [congruence|]. rewrite E. eauto.
Qed.

Lemma biquad_process_x8_length (inplace : bool) (src : list F) (f : biquad_t) :
  src <> [] ->
  exists dst f', biquad_process_x8 inplace src f = Some (dst, f') /\
                 length dst = Nat.max (length src) 3.
Proof.
  intros Hne. unfold biquad_process_x8.
  destruct (x4_pass_length (bq 0) 8 nil_arr nil_arr f Hne) as (dst0 & [[s s2] f0] & E0 & L0).
  destruct src as [|x src]; [congruence|]. rewrite E0.
  set (src1 := if inplace then _ else _).
  assert (Hlen : length src1 = length (x :: src)).
  { subst src1. destruct inplace; [|reflexivity].
    rewrite length_firstn, stored_length. lia. }
  assert (Hne1 : src1 <> []) by (destruct src1; [discriminate|congruence]).
  destruct (x4_pass_length (bq 1) 8 s s2 f0 Hne1) as (dst1 & [[s' s2'] f1] & E1 & L1).
  rewrite E1. exists (stored dst0 dst1), f1. split; [reflexivity|].
  rewrite stored_length, L0, L1, Hlen. lia.
Qed.

Lemma biquad_writes_count (inplace : bool) (src : list F) (f : biquad_t) :
  length (fst (biquad_process_x1 src f)) = length src /\
  length (fst (biquad_process_x2 src f)) = length src /\
  ((3 <= length src)%nat ->
   (exists dst f', biquad_process_x4 src f = Some (dst, f') /\
                   length dst = length src) /\
   (exists dst f', biquad_process_x8 inplace src f = Some (dst, f') /\
                   length dst = length src)).
Proof.
  split; [apply biquad_process_x1_length|].
  split; [apply biquad_process_x2_length|].
  intros H3.
  assert (Hne : src <> []) by (destruct src; [cbn in H3; lia|discriminate]).
  split.
  - destruct (biquad_process_x4_length f Hne) as (dst & f' & E & L).
    exists dst, f'. split; [exact E|lia].
  - destruct (biquad_process_x8_length inplace f Hne) as (dst & f' & E & L).
    exists dst, f'. split; [exact E|lia].
Qed.

(** C3 (the code departs from the claim).  For [count = 1] and [count = 2]
    the finish loop of [biquad_process_x4] still runs its three iterations:
    the routine stores three samples through [dst], two respectively one
    more than [count].  [biquad_process_x8] runs the same loops twice over
    the same cells and stores three samples as well. *)
Theorem biquad_process_x4_short_input (inplace : bool) (x y : F) (f : biquad_t) :
  (exists dst f', biquad_process_x4 [x] f = Some (dst, f') /\ length dst = 3%nat) /\
  (exists dst f', biquad_process_x4 [x; y] f = Some (dst, f') /\ length dst = 3%nat) /\
  (exists dst f', biquad_process_x8 inplace [x] f = Some (dst, f') /\ length dst = 3%nat) /\
  (exists dst f', biquad_process_x8 inplace [x; y] f = Some (dst, f') /\ length dst = 3%nat).
Proof.
  repeat split.
  - apply (@biquad_process_x4_length [x] f). discriminate.
  - apply (@biquad_process_x4_length [x; y] f). discriminate.
  - apply (@biquad_process_x8_length inplace [x] f). discriminate.
  - apply (@biquad_process_x8_length inplace [x; y] f). discriminate.
Qed.

(** ** x2 as the cascade of two x1 filters *)

(** [f] holds in its two halves the coefficients and the delay memory of the
    x1 filters [fA] and [fB]. *)
Definition pairs (f fA fB : biquad_t) : Prop :=
  x2_a f 0 = x1_a fA 0 /\ x2_a f 2 = x1_a fA 2 /\ x2_a f 3 = x1_a fA 3 /\
  x2_b f 0 = x1_b fA 0 /\ x2_b f 1 = x1_b fA 1 /\
  x2_a f 4 = x1_a fB 0 /\ x2_a f 6 = x1_a fB 2 /\ x2_a f 7 = x1_a fB 3 /\
  x2_b f 4 = x1_b fB 0 /\ x2_b f 5 = x1_b fB 1 /\
  d f 0 = d fA 0 /\ d f 1 = d fA 1 /\ d f 4 = d fB 0 /\ d f 5 = d fB 1.

Ltac use_pairs H :=
  destruct H as (H1 & H2 & H3 & H4 & H5 & H6 & H7 & H8 & H9 & H10 &
                 H11 & H12 & H13 & H14);
  cbn; rewrite ?H1, ?H2, ?H3, ?H4, ?H5, ?H6, ?H7, ?H8, ?H9, ?H10,
               ?H11, ?H12, ?H13, ?H14.

(** One iteration of x1 and of the x2 loop, as functions of the state. *)
Definition x1_out (f : biquad_t) (s : F) : F := x1_a f 0 *! s +! d f 0.

Definition x1_next (f : biquad_t) (s : F) : biquad_t :=
  let s2 := x1_out f s in
  let p1 := x1_a f 2 *! s +! x1_b f 0 *! s2 in
  let p2 := x1_a f 3 *! s +! x1_b f 1 *! s2 in
  set_d (set_d f 0 (d f 1 +! p1)) 1 p2.

Definition x2_out1 (f : biquad_t) (s : F) : F := x2_a f 0 *! s +! d f 0.
Definition x2_out2 (f : biquad_t) (r : F) : F := x2_a f 4 *! r +! d f 4.

Definition x2_next (f : biquad_t) (r s : F) : biquad_t :=
  let r2 := x2_out2 f r in
  let s2 := x2_out1 f s in
  let q1 := x2_a f 6 *! r +! x2_b f 4 *! r2 in
  let p1 := x2_a f 2 *! s +! x2_b f 0 *! s2 in
  let q2 := x2_a f 7 *! r +! x2_b f 5 *! r2 in
  let p2 := x2_a f 3 *! s +! x2_b f 1 *! s2 in
  let f := set_d f 4 (d f 5 +! q1) in
  let f := set_d f 0 (d f 1 +! p1) in
  let f := set_d f 5 q2 in
  set_d f 1 p2.

(** The first filter alone, as in the prologue of x2. *)
Definition x2_first (f : biquad_t) (s : F) : biquad_t :=
  let s2 := x2_out1 f s in
  let p1 := x2_a f 2 *! s +! x2_b f 0 *! s2 in
  let p2 := x2_a f 3 *! s +! x2_b f 1 *! s2 in
  set_d (set_d f 0 (d f 1 +! p1)) 1 p2.

Lemma biquad_process_x1_cons (s : F) (src : list F) (f : biquad_t) :
  biquad_process_x1 (s :: src) f =
  (x1_out f s :: fst (biquad_process_x1 src (x1_next f s)),
   snd (biquad_process_x1 src (x1_next f s))).
Proof.
  unfold x1_next, x1_out. cbn [biquad_process_x1].
  match goal with |- context [biquad_process_x1 src ?g] =>
    now destruct (biquad_process_x1 src g) end.
Qed.

Lemma x2_both_cons (s : F) (src : list F) (r : F) (f : biquad_t) :
  x2_both (s :: src) r f =
  (x2_out2 f r :: fst (fst (x2_both src (x2_out1 f s) (x2_next f r s))),
   snd (fst (x2_both src (x2_out1 f s) (x2_next f r s))),
   snd (x2_both src (x2_out1 f s) (x2_next f r s))).
Proof.
  unfold x2_next, x2_out1, x2_out2. cbn [x2_both].
  match goal with |- context [x2_both src ?a ?g] =>
    now destruct (x2_both src a g) as [[? ?] ?] end.
Qed.

Lemma biquad_process_x2_cons (s : F) (src : list F) (f : biquad_t) :
  fst (biquad_process_x2 (s :: src) f) =
  fst (fst (x2_both src (x2_out1 f s) (x2_first f s))) ++
  [x2_out2 (snd (x2_both src (x2_out1 f s) (x2_first f s)))
           (snd (fst (x2_both src (x2_out1 f s) (x2_first f s))))].
Proof.
  unfold x2_first, x2_out1, x2_out2. cbn [biquad_process_x2].
  match goal with |- context [x2_both src ?a ?g] =>
    now destruct (x2_both src a g) as [[? ?] ?] end.
Qed.

Lemma pairs_out1 (f fA fB : biquad_t) (s : F) :
  pairs f fA fB -> x2_out1 f s = x1_out fA s.
Proof. intros H. unfold x2_out1, x1_out. use_pairs H. reflexivity. Qed.

Lemma pairs_out2 (f fA fB : biquad_t) (r : F) :
  pairs f fA fB -> x2_out2 f r = x1_out fB r.
Proof. intros H. unfold x2_out2, x1_out. use_pairs H. reflexivity. Qed.

Lemma pairs_next (f fA fB : biquad_t) (r s : F) :
  pairs f fA fB -> pairs (x2_next f r s) (x1_next fA s) (x1_next fB r).
Proof.
  intros H. unfold pairs, x2_next, x1_next, x2_out1, x2_out2, x1_out.
  use_pairs H. repeat split.
Qed.

Lemma pairs_first (f fA fB : biquad_t) (s : F) :
  pairs f fA fB -> pairs (x2_first f s) (x1_next fA s) fB.
Proof.
  intros H. unfold pairs, x2_first, x1_next, x2_out1, x1_out.
  use_pairs H. repeat split.
Qed.

(** The loop over both filters followed by the drain of the second filter
    is the second filter applied to the carry [r] followed by the first
    filter's outputs. *)
Lemma x2_both_drain (src : list F) :
  forall (r : F) (f fA fB : biquad_t),
    pairs f fA fB ->
    fst (fst (x2_both src r f)) ++
      [x2_out2 (snd (x2_both src r f)) (snd (fst (x2_both src r f)))] =
    fst (biquad_process_x1 (r :: fst (biquad_process_x1 src fA)) fB).
Proof.
  induction src as [|x src IH]; intros r f fA fB H.
  - cbn [x2_both biquad_process_x1 fst snd app].
    fold (x1_out fB r). now rewrite (pairs_out2 r H).
  - rewrite x2_both_cons, (biquad_process_x1_cons x src fA).
    rewrite (biquad_process_x1_cons r). cbn [fst snd app].
    rewrite (pairs_out2 r H). f_equal.
    rewrite (IH _ _ _ _ (pairs_next r x H)).
    now rewrite (pairs_out1 x H).
Qed.

Lemma pairs_cascade (A B : coeffs) (dA0 dA1 dB0 dB1 : F) :
  pairs (x2_cascade A B dA0 dA1 dB0 dB1) (x1_filter A dA0 dA1) (x1_filter B dB0 dB1).
Proof. unfold pairs. cbn. repeat split. Qed.

Lemma x2_is_x1_after_x1 (f fA fB : biquad_t) (src : list F) :
  pairs f fA fB ->
  fst (biquad_process_x2 src f) =
  fst (biquad_process_x1 (fst (biquad_process_x1 src fA)) fB).
Proof.
  intros H. destruct src as [|x src]; [reflexivity|].
  rewrite biquad_process_x2_cons, (biquad_process_x1_cons x src fA).
  cbn [fst]. rewrite (x2_both_drain src _ (pairs_first x H)).
  now rewrite (pairs_out1 x H).
Qed.

(** C4.  An x2 filter set up as the cascade of [A] then [B], with any delay
    memory for the two sections, turns an input of at least 64 samples into
    the sequence obtained by running an x1 filter with [A] and then an x1
    filter with [B] on its output.  The two sides are the same expression
    in the arithmetic of the samples, whatever that arithmetic is. *)
Theorem biquad_x2_cascade_equiv (A B : coeffs) (dA0 dA1 dB0 dB1 : F) (src : list F) :
  (64 <= length src)%nat ->
  fst (biquad_process_x2 src (x2_cascade A B dA0 dA1 dB0 dB1)) =
  fst (biquad_process_x1
         (fst (biquad_process_x1 src (x1_filter A dA0 dA1)))
         (x1_filter B dB0 dB1)).
Proof.
  intros _. apply x2_is_x1_after_x1, pairs_cascade.
Qed.

End Filters.

(** ** Closed instances over the integers *)

Definition secA : coeffs Z := (mk_coeffs 1 2 1 (-1) 3)%Z.
Definition secB : coeffs Z := (mk_coeffs 2 (-3) 5 4 (-2))%Z.

(** 64 samples [0, 1, ..., 63]. *)
Definition ramp64 : list Z := map Z.of_nat (seq 0 64).

Lemma biquad_x2_cascade_equiv_witness :
  (64 <= length ramp64)%nat /\
  fst (biquad_process_x2 Z.add Z.mul ramp64 (x2_cascade 0%Z secA secB 1 2 3 4)%Z) =
  fst (biquad_process_x1 Z.add Z.mul
         (fst (biquad_process_x1 Z.add Z.mul ramp64 (x1_filter 0%Z secA 1 2)%Z))
         (x1_filter 0%Z secB 3 4)%Z).
Proof.
  assert (H : (64 <= length ramp64)%nat) by (vm_compute; lia).
  split; [exact H|].
  exact (@biquad_x2_cascade_equiv Z 0%Z Z.add Z.mul secA secB 1%Z 2%Z 3%Z 4%Z ramp64 H).
Defined.

(** The first outputs of the cascade on the ramp, by evaluation. *)
Example x2_cascade_ramp_head :
  firstn 4 (fst (biquad_process_x2 Z.add Z.mul ramp64
                   (x2_cascade 0%Z secA secB 0 0 0 0)%Z)) = [0; 2; 11; 52]%Z.
Proof. vm_compute. reflexivity. Qed.

(** Four pass-through sections ([a0 = 1], everything else zero, delay
    memory cleared). *)
Definition unit4 : biquad_t Z :=
  let zero := fun _ : nat => 0%Z in
  mk_biquad zero zero zero zero zero (fun _ => 1%Z) zero zero zero zero.

(** With four samples the pass-through chain returns its input; with one or
    two samples it stores three values, the input last. *)
Example x4_unit_four_samples :
  option_map fst (biquad_process_x4 0%Z Z.add Z.mul [5; 6; 7; 8]%Z unit4)
  = Some [5; 6; 7; 8]%Z.
Proof. vm_compute. reflexivity. Qed.

Example x4_unit_one_sample :
  option_map fst (biquad_process_x4 0%Z Z.add Z.mul [5]%Z unit4) = Some [0; 0; 5]%Z.
Proof. vm_compute. reflexivity. Qed.

Example x4_unit_two_samples :
  option_map fst (biquad_process_x4 0%Z Z.add Z.mul [5; 6]%Z unit4) = Some [0; 5; 6]%Z.
Proof. vm_compute. reflexivity. Qed.

End Biquad.

(* ================================================================== *)
(** * Spectrum analyzer (src/core/util/Analyzer.cpp) *)
(* ================================================================== *)

Module Analyzer.

Local Open Scope Z_scope.

(** A [float] buffer, addressed from its base pointer: a total map that
    stands for the C array on the cells below its length.  The arithmetic of
    the analyzer is written in the integers. *)
Definition buf (F : Type) : Type := Z -> F.

(** What the analyzer takes from outside its translation unit: the
    arithmetic of [float], the conversions between [float] and [size_t],
    the DSP kernel, the table generators and the constants of the headers. *)
Record collab (F : Type) : Type := mk_collab {
  fzero : F;
  fone : F;
  fmul : F -> F -> F;
  feqb : F -> F -> bool;                 (* [==] on float *)
  fmax : F -> F -> F;                    (* lsp_max *)
  quot : Z -> F -> Z;                    (* size_t(float(n) / r) *)
  shift_gain : F -> Z -> F;              (* fShift / fft_size *)
  one_minus : F -> F;                    (* 1.0 - fTau *)
  tau_of : Z -> Z -> F -> F;             (* the expression assigned to fTau *)
  reverse_noise : buf F -> Z -> Z -> buf F;
  window : buf F -> Z -> Z -> buf F;
  pcomplex_r2c : buf F -> buf F -> Z -> buf F;
  packed_direct_fft : buf F -> buf F -> Z -> buf F;
  pcomplex_mod : buf F -> buf F -> Z -> buf F;
  mix2 : buf F -> buf F -> F -> F -> Z -> buf F;
  ALIGN_SIZE : Z -> Z -> Z;
  DEFAULT_ALIGN : Z;
  PINK_NOISE : Z;
  HANN : Z
}.

Section Model.
Variable F : Type.
Variable K : collab F.

(** Modelled from the spec: the element-wise primitives of the DSP kernel
    ([dsp::fill_zero], [dsp::copy], [dsp::mul3], [dsp::mul_k2]), which the
    specification lists as pure vector operations on [count] elements.
    Pointers into a buffer are a base and an offset. *)
Definition within (off n i : Z) : bool := (off <=? i) && (i <? off + n).

Definition fill_zero (dst : buf F) (off n : Z) : buf F :=
  fun i => if within off n i then fzero K else dst i.

(** [dsp::copy(&dst[off], &src[k], n)] with [src] the input stream.  The
    kernel takes [n] as a [size_t] and [process] computes it as a [ssize_t]:
    the definition stands for the call when [0 <= n] and the cells
    [off .. off + n) lie in [dst]; a negative [n] is a length of [2^64 + n]
    in the source, which no buffer holds.  [AnalyzerBounds.ring_run] is the
    test for the ring of a channel. *)
Definition copy_in (dst : buf F) (off : Z) (src : list F) (k n : Z) : buf F :=
  fun i => if within off n i
           then nth (Z.to_nat (k + (i - off))) src (fzero K) else dst i.

(** [dsp::mul3(&dst[off], &a[ka], &b[kb], n)], for [0 <= n] and cells
    within the three buffers, as for [copy_in]. *)
Definition mul3 (dst : buf F) (off : Z) (a : buf F) (ka : Z) (b : buf F) (kb : Z)
  (n : Z) : buf F :=
  fun i => if within off n i
           then fmul K (a (ka + (i - off))) (b (kb + (i - off))) else dst i.

Definition mul_k2 (dst : buf F) (k : F) (n : Z) : buf F :=
  fun i => if within 0 n i then fmul K (dst i) k else dst i.

(** Modelled from the spec: the reconfiguration bits of [Analyzer.h], one
    bit per item and [R_ALL] all of them. *)
Definition R_ENVELOPE : Z := 1.
Definition R_WINDOW : Z := 2.
Definition R_ANALYSIS : Z := 4.
Definition R_TAU : Z := 8.
Definition R_COUNTERS : Z := 16.
Definition R_ALL : Z := 31.

(** [nReconfigure & bit] as a condition. *)
Definition has (mask bit : Z) : bool := negb (Z.land mask bit =? 0).

(** [channel_t].  [init] carves [vBuffer] ([nBufSize] cells) and [vAmp]
    ([1 << max_rank] cells) one after the other from one allocation
    ([c->vAmp = c->vBuffer + nBufSize]).  The two maps stand for the two
    arrays as long as the cells reached through [vBuffer] lie in
    [0 .. nBufSize); [AnalyzerBounds.step_in_ring] tests it for an iteration
    of [process], and it holds when the ring holds an FFT window and the
    head and the delay lie in the ring. *)
Record channel_t : Type := mk_channel {
  vBuffer : buf F;
  vAmp : buf F;
  nCounter : Z;                          (* ssize_t *)
  nHead : Z;
  nDelay : Z;
  bFreeze : bool;
  c_bActive : bool                       (* channel_t::bActive *)
}.

Record analyzer : Type := mk_analyzer {
  nChannels : Z;
  nMaxRank : Z;
  nRank : Z;
  nSampleRate : Z;
  nMaxSampleRate : Z;
  nBufSize : Z;
  nFftPeriod : Z;
  fReactivity : F;
  fTau : F;
  fRate : F;
  fMinRate : F;
  fShift : F;
  nReconfigure : Z;
  nEnvelope : Z;
  nWindow : Z;
  bActive : bool;
  vChannels : option (list channel_t);   (* [None] is the NULL pointer *)
  vSigRe : buf F;
  vFftReIm : buf F;
  vWindow : buf F;
  vEnvelope : buf F
}.

Definition zeros : buf F := fun _ => fzero K.

(** Analyzer::construct *)
Definition construct : analyzer :=
  mk_analyzer 0 0 0 0 0 0 0 (fzero K) (fone K) (fone K) (fone K) (fone K)
              0 (PINK_NOISE K) (HANN K) true None zeros zeros zeros zeros.

(** Analyzer::init, allocation succeeding.  [1 << max_rank] is taken in
    the integers. *)
Definition init (a : analyzer) (channels max_rank max_sr : Z) (min_rate : F)
  : analyzer :=
  let B := ALIGN_SIZE K (max_rank * 2 + quot K max_sr min_rate) (DEFAULT_ALIGN K) in
  let c := mk_channel zeros zeros 0 0 0 false true in
  mk_analyzer channels max_rank max_rank (nSampleRate a) max_sr B (nFftPeriod a)
              (fReactivity a) (fTau a) (fRate a) min_rate (fShift a)
              R_ALL (nEnvelope a) (nWindow a) (bActive a)
              (Some (repeat c (Z.to_nat channels)))
              zeros zeros zeros zeros.

Definition with_reconfigure (a : analyzer) (m : Z) : analyzer :=
  mk_analyzer (nChannels a) (nMaxRank a) (nRank a) (nSampleRate a)
              (nMaxSampleRate a) (nBufSize a) (nFftPeriod a) (fReactivity a)
              (fTau a) (fRate a) (fMinRate a) (fShift a) m (nEnvelope a)
              (nWindow a) (bActive a) (vChannels a) (vSigRe a) (vFftReIm a)
              (vWindow a) (vEnvelope a).

Definition set_sample_rate (a : analyzer) (sr : Z) : analyzer :=
  let sr := Z.min sr (nMaxSampleRate a) in
  if nSampleRate a =? sr then a
  else
    mk_analyzer (nChannels a) (nMaxRank a) (nRank a) sr
                (nMaxSampleRate a) (nBufSize a) (nFftPeriod a) (fReactivity a)
                (fTau a) (fRate a) (fMinRate a) (fShift a)
                (Z.lor (nReconfigure a) R_ALL) (nEnvelope a)
                (nWindow a) (bActive a) (vChannels a) (vSigRe a) (vFftReIm a)
                (vWindow a) (vEnvelope a).

Definition set_rate (a : analyzer) (rate : F) : analyzer :=
  let rate := fmax K (fMinRate a) rate in
  if feqb K (fRate a) rate then a
  else
    mk_analyzer (nChannels a) (nMaxRank a) (nRank a) (nSampleRate a)
                (nMaxSampleRate a) (nBufSize a) (nFftPeriod a) (fReactivity a)
                (fTau a) rate (fMinRate a) (fShift a)
                (Z.lor (nReconfigure a) R_COUNTERS) (nEnvelope a)
                (nWindow a) (bActive a) (vChannels a) (vSigRe a) (vFftReIm a)
                (vWindow a) (vEnvelope a).

Definition set_window (a : analyzer) (w : Z) : analyzer :=
  if nWindow a =? w then a
  else
    mk_analyzer (nChannels a) (nMaxRank a) (nRank a) (nSampleRate a)
                (nMaxSampleRate a) (nBufSize a) (nFftPeriod a) (fReactivity a)
                (fTau a) (fRate a) (fMinRate a) (fShift a)
                (Z.lor (nReconfigure a) R_WINDOW) (nEnvelope a)
                w (bActive a) (vChannels a) (vSigRe a) (vFftReIm a)
                (vWindow a) (vEnvelope a).

Definition set_envelope (a : analyzer) (e : Z) : analyzer :=
  if nEnvelope a =? e then a
  else
    mk_analyzer (nChannels a) (nMaxRank a) (nRank a) (nSampleRate a)
                (nMaxSampleRate a) (nBufSize a) (nFftPeriod a) (fReactivity a)
                (fTau a) (fRate a) (fMinRate a) (fShift a)
                (Z.lor (nReconfigure a) R_ENVELOPE) e
                (nWindow a) (bActive a) (vChannels a) (vSigRe a) (vFftReIm a)
                (vWindow a) (vEnvelope a).

Definition set_shift (a : analyzer) (shift : F) : analyzer :=
  if feqb K (fShift a) shift then a
  else
    mk_analyzer (nChannels a) (nMaxRank a) (nRank a) (nSampleRate a)
                (nMaxSampleRate a) (nBufSize a) (nFftPeriod a) (fReactivity a)
                (fTau a) (fRate a) (fMinRate a) shift
                (Z.lor (nReconfigure a) R_ENVELOPE) (nEnvelope a)
                (nWindow a) (bActive a) (vChannels a) (vSigRe a) (vFftReIm a)
                (vWindow a) (vEnvelope a).

Definition set_reactivity (a : analyzer) (reactivity : F) : analyzer :=
  if feqb K (fReactivity a) reactivity then a
  else
    mk_analyzer (nChannels a) (nMaxRank a) (nRank a) (nSampleRate a)
                (nMaxSampleRate a) (nBufSize a) (nFftPeriod a) reactivity
                (fTau a) (fRate a) (fMinRate a) (fShift a)
                (Z.lor (nReconfigure a) R_TAU) (nEnvelope a)
                (nWindow a) (bActive a) (vChannels a) (vSigRe a) (vFftReIm a)
                (vWindow a) (vEnvelope a).

(** Analyzer::set_rank; the [bool] is the value returned. *)
Definition set_rank (a : analyzer) (rank : Z) : bool * analyzer :=
  if (rank <? 2) || (rank >? nMaxRank a) then (false, a)
  else if nRank a =? rank then (true, a)
  else
    (true,
     mk_analyzer (nChannels a) (nMaxRank a) rank (nSampleRate a)
                 (nMaxSampleRate a) (nBufSize a) (nFftPeriod a) (fReactivity a)
                 (fTau a) (fRate a) (fMinRate a) (fShift a)
                 (Z.lor (nReconfigure a) R_ALL) (nEnvelope a)
                 (nWindow a) (bActive a) (vChannels a) (vSigRe a) (vFftReIm a)
                 (vWindow a) (vEnvelope a)).

(** [vChannels[i] = g(vChannels[i])] *)
Fixpoint upd_nth (A : Type) (i : nat) (g : A -> A) (l : list A) : list A :=
  match l, i with
  | [], _ => []
  | x :: l', O => g x :: l'
  | x :: l', S i' => x :: upd_nth i' g l'
  end.

Definition with_channels (a : analyzer) (cs : list channel_t) : analyzer :=
  mk_analyzer (nChannels a) (nMaxRank a) (nRank a) (nSampleRate a)
              (nMaxSampleRate a) (nBufSize a) (nFftPeriod a) (fReactivity a)
              (fTau a) (fRate a) (fMinRate a) (fShift a) (nReconfigure a)
              (nEnvelope a) (nWindow a) (bActive a) (Some cs) (vSigRe a)
              (vFftReIm a) (vWindow a) (vEnvelope a).

Definition channels_of (a : analyzer) : list channel_t :=
  match vChannels a with
  | Some cs => cs
  | None => []
  end.

(** Analyzer::freeze_channel and Analyzer::enable_channel *)
Definition freeze_channel (a : analyzer) (channel : Z) (freeze : bool)
  : bool * analyzer :=
  if channel >=? nChannels a then (false, a)
  else
    (true,
     with_channels a
       (upd_nth (Z.to_nat channel)
          (fun c => mk_channel (vBuffer c) (vAmp c) (nCounter c) (nHead c)
                               (nDelay c) freeze (c_bActive c))
          (channels_of a))).

Definition enable_channel (a : analyzer) (channel : Z) (enable : bool)
  : bool * analyzer :=
  if channel >=? nChannels a then (false, a)
  else
    (true,
     with_channels a
       (upd_nth (Z.to_nat channel)
          (fun c => mk_channel (vBuffer c) (vAmp c) (nCounter c) (nHead c)
                               (nDelay c) (bFreeze c) enable)
          (channels_of a))).

(** [for (size_t i=0; i<n; ++i) s = body(i, s)] *)
Fixpoint for_loop (St : Type) (n : nat) (body : nat -> St -> St) (s : St) : St :=
  match n with
  | O => s
  | S k => body k (for_loop k body s)
  end.

(** The step of the counters, aligned to a 4-sample boundary. *)
Definition counter_step (fft_size channels : Z) : Z :=
  let step := fft_size / channels in
  step - Z.land step 3.

(** Analyzer::reconfigure.  It is reached from [process] only, hence with
    [vChannels != NULL] and [nChannels >= 1]. *)
Definition reconfigure (a : analyzer) : analyzer :=
  if nReconfigure a =? 0 then a
  else
    let fft_size := Z.shiftl 1 (nRank a) in
    let period := quot K (nSampleRate a) (fRate a) in
    let n := Z.to_nat (nChannels a) in
    (* Update envelope *)
    let env :=
      if has (nReconfigure a) R_ENVELOPE
      then mul_k2 (reverse_noise K (vEnvelope a) fft_size (nEnvelope a))
                  (shift_gain K (fShift a) fft_size) fft_size
      else vEnvelope a in
    (* Clear analysis *)
    let cs :=
      if has (nReconfigure a) R_ANALYSIS
      then for_loop n
             (fun i => upd_nth i
                (fun c => mk_channel (vBuffer c) (fill_zero (vAmp c) 0 fft_size)
                                     (nCounter c) (nHead c) (nDelay c)
                                     (bFreeze c) (c_bActive c)))
             (channels_of a)
      else channels_of a in
    (* Update window *)
    let win :=
      if has (nReconfigure a) R_WINDOW
      then window K (vWindow a) fft_size (nWindow a)
      else vWindow a in
    (* Update reactivity *)
    let tau :=
      if has (nReconfigure a) R_TAU
      then tau_of K (nSampleRate a) period (fReactivity a)
      else fTau a in
    (* Update counters *)
    let cs :=
      if has (nReconfigure a) R_COUNTERS
      then
        let step := counter_step fft_size (nChannels a) in
        for_loop n
          (fun i => upd_nth i
             (fun c =>
                let delay := Z.of_nat i * step in
                mk_channel (vBuffer c) (vAmp c) delay (nHead c) delay
                           (bFreeze c) (c_bActive c)))
          cs
      else cs in
    (* Clear reconfiguration flag *)
    mk_analyzer (nChannels a) (nMaxRank a) (nRank a) (nSampleRate a)
                (nMaxSampleRate a) (nBufSize a) period (fReactivity a)
                tau (fRate a) (fMinRate a) (fShift a) 0
                (nEnvelope a) (nWindow a) (bActive a) (Some cs) (vSigRe a)
                (vFftReIm a) win env.

(** "Get the time mark to start from" and "Prepare the real buffer": the
    contents of [vSigRe] after the [if (count < fft_size) ... else ...] of
    the FFT branch.  [offset] and [count] are [ssize_t]: the difference of
    two [size_t] converted to it is their difference in the integers. *)
Definition prepare_real (a : analyzer) (c : channel_t) : buf F :=
  let fft_size := Z.shiftl 1 (nRank a) in
  (* Get the time mark to start from *)
  let offset := nHead c - nDelay c in
  let offset := if offset <? 0 then offset + nBufSize a else offset in
  (* Prepare the real buffer *)
  let count := nBufSize a - offset in
  if count <? fft_size
  then
    let re := mul3 (vSigRe a) 0 (vBuffer c) offset (vWindow a) 0 count in
    mul3 re count (vBuffer c) 0 (vWindow a) count (fft_size - count)
  else mul3 (vSigRe a) 0 (vBuffer c) offset (vWindow a) 0 fft_size.

(** The branch of [process] that runs the FFT of channel [c]: every store
    to [vSigRe], in the order of the source, then the transform and the
    mix into [vAmp]. *)
Definition fft_branch (a : analyzer) (c : channel_t) : analyzer * channel_t :=
  let fft_size := Z.shiftl 1 (nRank a) in
  let fft_csize := Z.shiftr fft_size 1 + 1 in
  let re := prepare_real a c in
  (* Apply window to the temporary buffer *)
  let re := mul3 re 0 (vBuffer c) 0 (vWindow a) 0 fft_size in
  (* Do Real->complex conversion and FFT *)
  let reim := pcomplex_r2c K (vFftReIm a) re fft_size in
  let reim := packed_direct_fft K reim reim (nRank a) in
  (* Get complex argument *)
  let reim := pcomplex_mod K reim reim fft_csize in
  (* Mix with the previous value *)
  let amp := mix2 K (vAmp c) reim (one_minus K (fTau a)) (fTau a) fft_csize in
  (mk_analyzer (nChannels a) (nMaxRank a) (nRank a) (nSampleRate a)
               (nMaxSampleRate a) (nBufSize a) (nFftPeriod a) (fReactivity a)
               (fTau a) (fRate a) (fMinRate a) (fShift a) (nReconfigure a)
               (nEnvelope a) (nWindow a) (bActive a) (vChannels a) re
               reim (vWindow a) (vEnvelope a),
   mk_channel (vBuffer c) amp (nCounter c) (nHead c) (nDelay c)
              (bFreeze c) (c_bActive c)).

(** One iteration of [while (samples > 0)]; [inp] is what is left of the
    input, [samples] its length. *)
Definition process_step (a : analyzer) (c : channel_t) (inp : list F)
  : analyzer * channel_t * list F :=
  let fft_size := Z.shiftl 1 (nRank a) in
  let samples := Z.of_nat (length inp) in
  let to_process := nFftPeriod a - nCounter c in
  if to_process <=? 0 then
    let '(a, c) :=
      if negb (bFreeze c) then
        if bActive a && c_bActive c then fft_branch a c
        else (a, mk_channel (vBuffer c) (fill_zero (vAmp c) 0 fft_size)
                            (nCounter c) (nHead c) (nDelay c)
                            (bFreeze c) (c_bActive c))
      else (a, c) in
    (* Update counter *)
    (a,
     mk_channel (vBuffer c) (vAmp c) (nCounter c - nFftPeriod a) (nHead c)
                (nDelay c) (bFreeze c) (c_bActive c),
     inp)
  else
    (* Limit number of samples to be processed *)
    let to_process := if to_process >? samples then samples else to_process in
    let to_process := if to_process >? fft_size then fft_size else to_process in
    (* Put data to the analyzer's buffer *)
    let count := nBufSize a - nHead c in
    let '(b, head) :=
      if count <? to_process then
        let b := copy_in (vBuffer c) (nHead c) inp 0 count in
        let b := copy_in b 0 inp count (to_process - count) in
        (b, to_process - count)
      else
        (copy_in (vBuffer c) (nHead c) inp 0 to_process, nHead c + to_process) in
    (* Update counter and pointers *)
    (a,
     mk_channel b (vAmp c) (nCounter c + to_process) head (nDelay c)
                (bFreeze c) (c_bActive c),
     skipn (Z.to_nat to_process) inp).

(** The loop of [process].  [fuel] bounds the number of iterations; [None]
    means the bound was reached with samples left. *)
Fixpoint process_loop (fuel : nat) (a : analyzer) (c : channel_t) (inp : list F)
  : option (analyzer * channel_t) :=
  match inp with
  | [] => Some (a, c)
  | _ :: _ =>
      match fuel with
      | O => None
      | S fuel' =>
          let '(a, c, inp) := process_step a c inp in
          process_loop fuel' a c inp
      end
  end.

(** Analyzer::process *)
Definition process (fuel : nat) (a : analyzer) (channel : Z) (inp : list F)
  : option analyzer :=
  match vChannels a with
  | None => Some a
  | Some _ =>
      if channel >=? nChannels a then Some a
      else
        (* Auto-apply reconfiguration *)
        let a := reconfigure a in
        match nth_error (channels_of a) (Z.to_nat channel) with
        | None => Some a
        | Some c =>
            match process_loop fuel a c inp with
            | Some (a', c') =>
                Some (with_channels a'
                        (upd_nth (Z.to_nat channel) (fun _ => c') (channels_of a)))
            | None => None
            end
        end
  end.

(** ** Lists of channels *)

Lemma upd_nth_length (A : Type) (g : A -> A) (l : list A) (i : nat) :
  length (upd_nth i g l) = length l.
Proof.
  revert i. induction l as [|x l IH]; intros [|i]; cbn; auto.
Qed.

Lemma nth_error_upd_nth (A : Type) (g : A -> A) (l : list A) (i j : nat) :
  nth_error (upd_nth i g l) j =
  if Nat.eqb j i then option_map g (nth_error l j) else nth_error l j.
Proof.
  revert i j. induction l as [|x l IH]; intros [|i] [|j]; cbn; auto;
    try (now destruct (Nat.eqb j i)).
Qed.

Lemma for_loop_length (A : Type) (g : nat -> A -> A) (n : nat) (l : list A) :
  length (for_loop n (fun i => upd_nth i (g i)) l) = length l.
Proof.
  induction n as [|n IH]; cbn; [reflexivity|]. now rewrite upd_nth_length.
Qed.

Lemma nth_error_for_loop (A : Type) (g : nat -> A -> A) (n : nat) (l : list A)
  (j : nat) :
  nth_error (for_loop n (fun i => upd_nth i (g i)) l) j =
  if Nat.ltb j n then option_map (g j) (nth_error l j) else nth_error l j.
Proof.
  induction n as [|n IH]; cbn [for_loop]; [reflexivity|].
  rewrite nth_error_upd_nth, IH.
  destruct (Nat.eqb_spec j n) as [->|Hne].
  - rewrite Nat.ltb_irrefl.
    now replace (Nat.ltb n (S n)) with true by (symmetry; apply Nat.ltb_lt; lia).
  - destruct (Nat.ltb_spec j n), (Nat.ltb_spec j (S n)); try lia; reflexivity.
Qed.

Lemma Forall_upd_nth (A : Type) (P : A -> Prop) (g : A -> A) (l : list A) (i : nat) :
  Forall P l -> (forall x, P x -> P (g x)) -> Forall P (upd_nth i g l).
Proof.
  intros H Hg. revert i.
  induction H as [|x l Hx Hl IH]; intros [|i]; cbn; constructor; auto.
Qed.

Lemma Forall_set_nth (A : Type) (P : A -> Prop) (y : A) (l : list A) (i : nat) :
  Forall P l -> P y -> Forall P (upd_nth i (fun _ => y) l).
Proof.
  intros H Hy. revert i.
  induction H as [|x l Hx Hl IH]; intros [|i]; cbn; constructor; auto.
Qed.

(** A loop that rewrites every entry of the array. *)
Lemma Forall_for_loop (A : Type) (P Q : A -> Prop) (g : nat -> A -> A)
  (n : nat) (l : list A) :
  length l = n ->
  Forall P l ->
  (forall i x, (i < n)%nat -> P x -> Q (g i x)) ->
  Forall Q (for_loop n (fun i => upd_nth i (g i)) l).
Proof.
  intros Hlen HP Hg. apply Forall_forall. intros y Hy.
  apply In_nth_error in Hy. destruct Hy as [j Hj].
  rewrite nth_error_for_loop in Hj.
  assert (Hjn : (j < n)%nat).
  { destruct (Nat.ltb_spec j n) as [|Hge]; [assumption|].
    assert (nth_error l j <> None) as Hs by congruence.
    apply nth_error_Some in Hs. lia. }
  replace (Nat.ltb j n) with true in Hj by (symmetry; now apply Nat.ltb_lt).
  destruct (nth_error l j) as [x|] eqn:Ex; [|discriminate].
  inversion Hj; subst. apply Hg; [assumption|].
  rewrite Forall_forall in HP. apply HP. eapply nth_error_In; eauto.
Qed.

(** ** The counters set by [reconfigure] *)

Lemma has_spec (mask bit : Z) : has mask bit = true <-> Z.land mask bit <> 0.
Proof.
  unfold has. destruct (Z.eqb_spec (Z.land mask bit) 0); cbn; split; congruence.
Qed.

(** [step - (step & 0x3)] is [step] rounded down to a multiple of 4. *)
Lemma counter_step_round (fft_size channels : Z) :
  counter_step fft_size channels = 4 * (fft_size / channels / 4).
Proof.
  unfold counter_step. change 3 with (Z.ones 2).
  rewrite Z.land_ones by lia. change (2 ^ 2) with 4.
  Z.div_mod_to_equations. lia.
Qed.

Lemma reconfigure_channels (a : analyzer) :
  has (nReconfigure a) R_COUNTERS = true ->
  forall i : nat,
    (Z.of_nat i < nChannels a) ->
    nth_error (channels_of (reconfigure a)) i =
    option_map
      (fun c =>
         let delay := Z.of_nat i * counter_step (Z.shiftl 1 (nRank a)) (nChannels a) in
         mk_channel (vBuffer c)
                    (if has (nReconfigure a) R_ANALYSIS
                     then fill_zero (vAmp c) 0 (Z.shiftl 1 (nRank a)) else vAmp c)
                    delay (nHead c) delay (bFreeze c) (c_bActive c))
      (nth_error (channels_of a) i).
Proof.
  intros Hc i Hi. unfold reconfigure.
  destruct (Z.eqb_spec (nReconfigure a) 0) as [E|_].
  { rewrite E in Hc. discriminate. }
  rewrite Hc. cbn [channels_of vChannels].
  rewrite nth_error_for_loop.
  replace (Nat.ltb i (Z.to_nat (nChannels a))) with true
    by (symmetry; apply Nat.ltb_lt; lia).
  destruct (has (nReconfigure a) R_ANALYSIS).
  - rewrite nth_error_for_loop.
    replace (Nat.ltb i (Z.to_nat (nChannels a))) with true
      by (symmetry; apply Nat.ltb_lt; lia).
    now destruct (nth_error (channels_of a) i).
  - now destruct (nth_error (channels_of a) i).
Qed.

(** C8, as amended.  When [reconfigure] applies [R_COUNTERS], channel [i]
    of the [C] channels gets, in [nCounter] and in [nDelay] alike, [i] times
    the step, the step being [N / C] rounded down to a multiple of 4: it is
    the step that is rounded, not the offset [i * (N / C)].  The value is a
    multiple of 4 that does not exceed [i * (N / C)]; after [init] with 4
    channels and rank 8 ([N = 256]) the counters and the delays are
    [0, 64, 128, 192]. *)
Theorem reconfigure_counters (a : analyzer) (i : nat) (c : channel_t) :
  has (nReconfigure a) R_COUNTERS = true ->
  Z.of_nat i < nChannels a ->
  nth_error (channels_of a) i = Some c ->
  (exists c',
     nth_error (channels_of (reconfigure a)) i = Some c' /\
     nCounter c' = Z.of_nat i * (4 * (Z.shiftl 1 (nRank a) / nChannels a / 4)) /\
     nDelay c' = nCounter c' /\
     nCounter c' mod 4 = 0 /\
     nCounter c' <= Z.of_nat i * (Z.shiftl 1 (nRank a) / nChannels a)) /\
  (forall (max_sr : Z) (min_rate : F),
     let a4 := reconfigure (init construct 4 8 max_sr min_rate) in
     map nCounter (channels_of a4) = [0; 64; 128; 192] /\
     map nDelay (channels_of a4) = [0; 64; 128; 192]).
Proof.
  intros Hc Hi Hn. split.
  - rewrite (reconfigure_channels a Hc i Hi), Hn. cbn [option_map].
    eexists. split; [reflexivity|]. cbn [nCounter nDelay].
    rewrite counter_step_round.
    set (q := Z.shiftl 1 (nRank a) / nChannels a).
    assert (Hq : 0 <= q).
    { subst q. apply Z.div_pos; [|lia]. apply Z.shiftl_nonneg. lia. }
    assert (Hq4 : 0 <= 4 * (q / 4) <= q) by (Z.div_mod_to_equations; lia).
    split; [reflexivity|]. split; [reflexivity|]. split.
    + replace (Z.of_nat i * (4 * (q / 4))) with (Z.of_nat i * (q / 4) * 4) by lia.
      apply Z.mod_mul. lia.
    + apply Z.mul_le_mono_nonneg_l; lia.
  - intros max_sr min_rate. split; vm_compute; reflexivity.
Qed.

(** ** The signal handed to the FFT *)

Lemma within_true (off n i : Z) : off <= i < off + n -> within off n i = true.
Proof. intros H. unfold within. apply andb_true_intro. split; lia. Qed.

Lemma within_false (off n i : Z) : i < off \/ off + n <= i -> within off n i = false.
Proof.
  intros H. unfold within. apply andb_false_iff.
  destruct H; [left|right]; lia.
Qed.

(** The specification's signal: the window applied to the [N] samples of the
    ring that start at [(head - delay) mod B]. *)
Definition ring_window (a : analyzer) (c : channel_t) (k : Z) : F :=
  fmul K (vBuffer c (((nHead c - nDelay c) mod nBufSize a + k) mod nBufSize a))
         (vWindow a k).

(** The two-segment product of "Prepare the real buffer" is that signal. *)
Lemma prepare_real_ring (a : analyzer) (c : channel_t) (k : Z) :
  0 <= nHead c <= nBufSize a ->
  0 <= nDelay c <= nBufSize a ->
  Z.shiftl 1 (nRank a) <= nBufSize a ->
  0 <= k < Z.shiftl 1 (nRank a) ->
  prepare_real a c k = ring_window a c k.
Proof.
  intros Hh Hd HN Hk. unfold prepare_real, ring_window.
  set (N := Z.shiftl 1 (nRank a)) in *. set (B := nBufSize a) in *.
  set (off := if nHead c - nDelay c <? 0 then nHead c - nDelay c + B
              else nHead c - nDelay c).
  assert (Hoff : 0 <= off <= B /\ (off = nHead c - nDelay c \/
                                   off = nHead c - nDelay c + B)).
  { subst off. destruct (Z.ltb_spec (nHead c - nDelay c) 0); lia. }
  destruct Hoff as [Hoff Hcase].
  assert (HB : 0 < B) by lia.
  assert (Hidx : ((nHead c - nDelay c) mod B + k) mod B =
                 if off + k <? B then off + k else off + k - B).
  { rewrite Z.add_mod_idemp_l by lia.
    destruct (Z.ltb_spec (off + k) B) as [Hlt|Hge].
    - symmetry. apply Z.mod_unique_pos with (q := (nHead c - nDelay c - off) / B);
        [lia|]. destruct Hcase as [E|E]; rewrite E.
      + replace (nHead c - nDelay c - (nHead c - nDelay c)) with 0 by lia.
        rewrite Z.div_0_l by lia. lia.
      + replace (nHead c - nDelay c - (nHead c - nDelay c + B)) with (- 1 * B) by lia.
        rewrite Z.div_mul by lia. lia.
    - symmetry. apply Z.mod_unique_pos with (q := (nHead c - nDelay c - off) / B + 1);
        [lia|]. destruct Hcase as [E|E]; rewrite E.
      + replace (nHead c - nDelay c - (nHead c - nDelay c)) with 0 by lia.
        rewrite Z.div_0_l by lia. lia.
      + replace (nHead c - nDelay c - (nHead c - nDelay c + B)) with (- 1 * B) by lia.
        rewrite Z.div_mul by lia. lia. }
  rewrite Hidx.
  destruct (Z.ltb_spec (B - off) N) as [Hwrap|Hfit].
  - unfold mul3.
    destruct (Z.ltb_spec (off + k) B) as [Hlt|Hge].
    + rewrite (@within_false (B - off) (N - (B - off)) k) by lia.
      rewrite (@within_true 0 (B - off) k) by lia.
      do 2 f_equal; lia.
    + rewrite (@within_true (B - off) (N - (B - off)) k) by lia.
      do 2 f_equal; lia.
  - unfold mul3. rewrite (@within_true 0 N k) by lia.
    replace (off + k <? B) with true by (symmetry; apply Z.ltb_lt; lia).
    do 2 f_equal; lia.
Qed.

(** What the FFT receives: the statement after the two-segment product
    stores [vBuffer[i] * vWindow[i]] over the whole of [vSigRe], whatever
    the head and the delay of the channel. *)
Lemma fft_branch_vSigRe (a : analyzer) (c : channel_t) (i : Z) :
  0 <= i < Z.shiftl 1 (nRank a) ->
  vSigRe (fst (fft_branch a c)) i = fmul K (vBuffer c i) (vWindow a i).
Proof.
  intros Hi. unfold fft_branch. cbn [fst vSigRe]. unfold mul3 at 1.
  rewrite within_true by lia. do 2 f_equal; lia.
Qed.

(** ** One iteration of the loop of [process] *)

(** The configuration that the loop of [process] leaves alone. *)
Definition same_conf (a a' : analyzer) : Prop :=
  nChannels a' = nChannels a /\ nMaxRank a' = nMaxRank a /\
  nRank a' = nRank a /\ nSampleRate a' = nSampleRate a /\
  nBufSize a' = nBufSize a /\ nFftPeriod a' = nFftPeriod a /\
  fRate a' = fRate a /\ nReconfigure a' = nReconfigure a /\
  vChannels a' = vChannels a.

Lemma same_conf_refl (a : analyzer) : same_conf a a.
Proof. unfold same_conf. repeat split. Qed.

Lemma same_conf_trans (a b c : analyzer) :
  same_conf a b -> same_conf b c -> same_conf a c.
Proof. unfold same_conf. intuition congruence. Qed.

(** Number of samples appended by an iteration that appends. *)
Definition append_len (a : analyzer) (c : channel_t) (inp : list F) : Z :=
  let fft_size := Z.shiftl 1 (nRank a) in
  let samples := Z.of_nat (length inp) in
  let to_process := nFftPeriod a - nCounter c in
  let to_process := if to_process >? samples then samples else to_process in
  if to_process >? fft_size then fft_size else to_process.

Lemma append_len_bounds (a : analyzer) (c : channel_t) (inp : list F) :
  0 < nFftPeriod a - nCounter c -> inp <> [] -> 0 <= nRank a ->
  1 <= append_len a c inp /\
  append_len a c inp <= nFftPeriod a - nCounter c /\
  append_len a c inp <= Z.of_nat (length inp) /\
  append_len a c inp <= Z.shiftl 1 (nRank a).
Proof.
  intros Hp Hne Hr. unfold append_len.
  assert (1 <= Z.of_nat (length inp)) by (destruct inp; [congruence|cbn; lia]).
  assert (1 <= Z.shiftl 1 (nRank a)).
  { rewrite Z.shiftl_1_l. pose proof (Z.pow_pos_nonneg 2 (nRank a)). lia. }
  cbv zeta.
  destruct (Z.gtb_spec (nFftPeriod a - nCounter c) (Z.of_nat (length inp)));
    match goal with
    | |- context [?x >? ?y] => destruct (Z.gtb_spec x y)
    end; lia.
Qed.

Lemma process_step_fft (a : analyzer) (c : channel_t) (inp : list F) :
  nFftPeriod a - nCounter c <= 0 ->
  same_conf a (fst (fst (process_step a c inp))) /\
  snd (process_step a c inp) = inp /\
  nCounter (snd (fst (process_step a c inp))) = nCounter c - nFftPeriod a /\
  nHead (snd (fst (process_step a c inp))) = nHead c /\
  nDelay (snd (fst (process_step a c inp))) = nDelay c.
Proof.
  intros H. unfold process_step.
  replace (nFftPeriod a - nCounter c <=? 0) with true
    by (symmetry; apply Z.leb_le; lia).
  destruct (negb (bFreeze c)); [destruct (bActive a && c_bActive c)|];
    cbn; unfold same_conf; cbn; repeat split.
Qed.

Lemma process_step_append (a : analyzer) (c : channel_t) (inp : list F) :
  0 < nFftPeriod a - nCounter c ->
  fst (fst (process_step a c inp)) = a /\
  snd (process_step a c inp) = skipn (Z.to_nat (append_len a c inp)) inp /\
  nCounter (snd (fst (process_step a c inp))) = nCounter c + append_len a c inp /\
  nHead (snd (fst (process_step a c inp))) =
    (if nBufSize a - nHead c <? append_len a c inp
     then append_len a c inp - (nBufSize a - nHead c)
     else nHead c + append_len a c inp) /\
  nDelay (snd (fst (process_step a c inp))) = nDelay c.
Proof.
  intros H. unfold process_step. fold (append_len a c inp).
  replace (nFftPeriod a - nCounter c <=? 0) with false
    by (symmetry; apply Z.leb_gt; lia).
  destruct (nBufSize a - nHead c <? append_len a c inp); cbn; repeat split.
Qed.

(** ** Termination of the loop of [process] *)



Lemma reconfigure_conf (a : analyzer) :
  nChannels (reconfigure a) = nChannels a /\
  nMaxRank (reconfigure a) = nMaxRank a /\
  nRank (reconfigure a) = nRank a /\
  nSampleRate (reconfigure a) = nSampleRate a /\
  nBufSize (reconfigure a) = nBufSize a /\
  fRate (reconfigure a) = fRate a /\
  nReconfigure (reconfigure a) = 0 /\
  nFftPeriod (reconfigure a) =
    (if nReconfigure a =? 0 then nFftPeriod a
     else quot K (nSampleRate a) (fRate a)).
Proof.
  unfold reconfigure.
  destruct (Z.eqb_spec (nReconfigure a) 0) as [E|E]; cbn; repeat split; assumption.
Qed.


(** ** Invariants of the reachable states *)

(** The states reached from [a0], the state left by [init], through the
    calls of the interface; [channel] is a [size_t]. *)
Inductive reachable (a0 : analyzer) : analyzer -> Prop :=
| reach_init : reachable a0 a0
| reach_set_sample_rate a sr :
    reachable a0 a -> reachable a0 (set_sample_rate a sr)
| reach_set_rate a rate :
    reachable a0 a -> reachable a0 (set_rate a rate)
| reach_set_window a w :
    reachable a0 a -> reachable a0 (set_window a w)
| reach_set_envelope a e :
    reachable a0 a -> reachable a0 (set_envelope a e)
| reach_set_shift a s :
    reachable a0 a -> reachable a0 (set_shift a s)
| reach_set_reactivity a r :
    reachable a0 a -> reachable a0 (set_reactivity a r)
| reach_set_rank a rank :
    reachable a0 a -> reachable a0 (snd (set_rank a rank))
| reach_freeze_channel a channel freeze :
    reachable a0 a -> 0 <= channel ->
    reachable a0 (snd (freeze_channel a channel freeze))
| reach_enable_channel a channel enable :
    reachable a0 a -> 0 <= channel ->
    reachable a0 (snd (enable_channel a channel enable))
| reach_process a fuel channel inp a' :
    reachable a0 a -> 0 <= channel ->
    process fuel a channel inp = Some a' ->
    reachable a0 a'.

(** What holds of a channel: [B] is the size of the ring, [M] the largest
    FFT size, [period] the FFT period. *)
Definition chan_ok (B M period : Z) (c : channel_t) : Prop :=
  0 <= nHead c <= B /\ 0 <= nCounter c /\ 0 <= nDelay c <= M /\
  nCounter c <= Z.max period (nDelay c).

Definition inv (a : analyzer) : Prop :=
  2 * Z.shiftl 1 (nMaxRank a) <= nBufSize a /\
  0 <= nRank a <= nMaxRank a /\
  0 <= nFftPeriod a /\
  nChannels a = Z.of_nat (length (channels_of a)) /\
  Forall (chan_ok (nBufSize a) (Z.shiftl 1 (nMaxRank a)) (nFftPeriod a))
         (channels_of a) /\
  (has (nReconfigure a) R_COUNTERS = true \/
   nFftPeriod a = quot K (nSampleRate a) (fRate a)).

Lemma shiftl_1_mono (r m : Z) : 0 <= r <= m -> 0 < Z.shiftl 1 r <= Z.shiftl 1 m.
Proof.
  intros H. rewrite !Z.shiftl_1_l. split.
  - apply Z.pow_pos_nonneg; lia.
  - apply Z.pow_le_mono_r; lia.
Qed.

Lemma has_lor_l (m x bit : Z) : has m bit = true -> has (Z.lor m x) bit = true.
Proof.
  rewrite !has_spec, Z.land_lor_distr_l. intros H E.
  apply Z.lor_eq_0_iff in E. tauto.
Qed.

Lemma has_lor_r (m x bit : Z) : has x bit = true -> has (Z.lor m x) bit = true.
Proof.
  rewrite !has_spec, Z.land_lor_distr_l. intros H E.
  apply Z.lor_eq_0_iff in E. tauto.
Qed.

Lemma process_step_ok (a : analyzer) (c : channel_t) (inp : list F) (M : Z) :
  0 <= nFftPeriod a -> 0 <= nRank a ->
  Z.shiftl 1 (nRank a) <= nBufSize a -> inp <> [] ->
  chan_ok (nBufSize a) M (nFftPeriod a) c ->
  chan_ok (nBufSize a) M (nFftPeriod a) (snd (fst (process_step a c inp))).
Proof.
  intros Hp Hr HN Hne. unfold chan_ok.
  destruct (Z_le_gt_dec (nFftPeriod a - nCounter c) 0) as [Hfft|Happ].
  - destruct (@process_step_fft a c inp Hfft) as (_ & _ & Hc & Hh & Hd).
    rewrite Hc, Hh, Hd. lia.
  - assert (Happ' : 0 < nFftPeriod a - nCounter c) by lia.
    destruct (@process_step_append a c inp Happ') as (_ & _ & Hc & Hh & Hd).
    destruct (@append_len_bounds a c inp Happ' Hne Hr) as (L1 & L2 & L3 & L4).
    rewrite Hc, Hh, Hd.
    destruct (Z.ltb_spec (nBufSize a - nHead c) (append_len a c inp)); lia.
Qed.

Lemma process_step_conf (a : analyzer) (c : channel_t) (inp : list F) :
  same_conf a (fst (fst (process_step a c inp))).
Proof.
  destruct (Z_le_gt_dec (nFftPeriod a - nCounter c) 0) as [Hfft|Happ].
  - now destruct (@process_step_fft a c inp Hfft).
  - destruct (@process_step_append a c inp) as (Ea & _); [lia|].
    rewrite Ea. apply same_conf_refl.
Qed.

Lemma process_loop_conf (fuel : nat) :
  forall (a : analyzer) (c : channel_t) (inp : list F) a' c',
    process_loop fuel a c inp = Some (a', c') -> same_conf a a'.
Proof.
  induction fuel as [|fuel IH]; intros a c inp a' c' E;
    (destruct inp as [|x inp];
     [inversion E; subst; apply same_conf_refl|]); [discriminate|].
  cbn [process_loop] in E.
  pose proof (process_step_conf a c (x :: inp)) as Hconf.
  destruct (process_step a c (x :: inp)) as [[a1 c1] inp1].
  cbn [fst snd] in *. eapply same_conf_trans; [exact Hconf|]. eapply IH; eauto.
Qed.

Lemma process_loop_ok (fuel : nat) :
  forall (a : analyzer) (c : channel_t) (inp : list F) a' c' (M : Z),
    0 <= nFftPeriod a -> 0 <= nRank a ->
    Z.shiftl 1 (nRank a) <= nBufSize a ->
    process_loop fuel a c inp = Some (a', c') ->
    chan_ok (nBufSize a) M (nFftPeriod a) c ->
    chan_ok (nBufSize a) M (nFftPeriod a) c'.
Proof.
  induction fuel as [|fuel IH]; intros a c inp a' c' M Hp Hr HN E Hc;
    (destruct inp as [|x inp]; [inversion E; subst; assumption|]);
    [discriminate|].
  cbn [process_loop] in E.
  assert (Hne : x :: inp <> []) by discriminate.
  pose proof (@process_step_ok a c (x :: inp) M Hp Hr HN Hne Hc) as Hok.
  pose proof (process_step_conf a c (x :: inp)) as Hconf.
  destruct (process_step a c (x :: inp)) as [[a1 c1] inp1].
  cbn [fst snd] in *.
  pose proof Hconf as (_ & _ & E3 & _ & E5 & E6 & _).
  rewrite <- E5, <- E6 in *.
  eapply IH; [| | |exact E|exact Hok]; rewrite ?E3; lia.
Qed.

Lemma Forall_for_loop_same (A : Type) (P : A -> Prop) (g : nat -> A -> A)
  (n : nat) (l : list A) :
  (forall i x, P x -> P (g i x)) -> Forall P l ->
  Forall P (for_loop n (fun i => upd_nth i (g i)) l).
Proof.
  intros Hg Hl. induction n as [|n IH]; cbn [for_loop]; [assumption|].
  apply Forall_upd_nth; auto.
Qed.

Lemma counter_step_bounds (N C i : Z) :
  0 <= N -> 0 <= i < C ->
  0 <= i * counter_step N C <= N.
Proof.
  intros HN Hi. rewrite counter_step_round.
  assert (Hq : 0 <= N / C) by (apply Z.div_pos; lia).
  assert (Hs : 0 <= 4 * (N / C / 4) <= N / C)
    by (Z.div_mod_to_equations; lia).
  assert (Hm : C * (N / C) <= N) by (apply Z.mul_div_le; lia).
  split; [apply Z.mul_nonneg_nonneg; lia|].
  apply Z.le_trans with (i * (N / C)).
  - apply Z.mul_le_mono_nonneg_l; lia.
  - apply Z.le_trans with (C * (N / C)); [|assumption].
    apply Z.mul_le_mono_nonneg_r; lia.
Qed.

Section Reachable.

(** The conversion to [size_t] yields no negative number. *)
Hypothesis quot_nonneg : forall n r, 0 <= quot K n r.

Lemma reconfigure_inv (a : analyzer) : inv a -> inv (reconfigure a).
Proof.
  intros (HB & Hr & Hp & Hn & Hok & Hs).
  unfold reconfigure.
  destruct (Z.eqb_spec (nReconfigure a) 0) as [E|E].
  { repeat split; assumption || apply Hr. }
  set (N := Z.shiftl 1 (nRank a)).
  set (M := Z.shiftl 1 (nMaxRank a)) in *.
  set (n := Z.to_nat (nChannels a)).
  set (B := nBufSize a) in *.
  set (p := quot K (nSampleRate a) (fRate a)).
  assert (HN : 0 < N <= M) by (apply shiftl_1_mono; lia).
  assert (Hlen : length (channels_of a) = n) by (subst n; lia).
  match goal with |- context [if has _ R_COUNTERS then _ ?cs else _] =>
    set (cs1 := cs) end.
  assert (Hlen1 : length cs1 = n).
  { subst cs1. destruct (has (nReconfigure a) R_ANALYSIS); [|assumption].
    now rewrite for_loop_length. }
  assert (Hok1 : Forall (chan_ok B M (nFftPeriod a)) cs1).
  { subst cs1. destruct (has (nReconfigure a) R_ANALYSIS); [|assumption].
    apply Forall_for_loop_same; [|assumption]. intros i x Hx. exact Hx. }
  match goal with |- inv (mk_analyzer _ _ _ _ _ _ _ _ _ _ _ _ _ _ _ _ (Some ?cs) _ _ _ _) =>
    set (cs2 := cs) end.
  assert (Hok2 : Forall (chan_ok B M p) cs2).
  { subst cs2. destruct (has (nReconfigure a) R_COUNTERS) eqn:Hc.
    - apply Forall_for_loop with (P := chan_ok B M (nFftPeriod a));
        [assumption|assumption|].
      intros i x Hi (Hh & _ & _).
      destruct (@counter_step_bounds N (nChannels a) (Z.of_nat i)) as [L1 L2];
        [lia|subst n; lia|].
      unfold chan_ok. cbn. fold N. lia.
    - destruct Hs as [Hs|Hper]; [congruence|].
      fold p in Hper. now rewrite <- Hper. }
  assert (Hlen2 : length cs2 = n).
  { subst cs2. destruct (has (nReconfigure a) R_COUNTERS); [|assumption].
    now rewrite for_loop_length. }
  unfold inv.
  cbn [nMaxRank nBufSize nRank nFftPeriod nChannels channels_of vChannels
       nReconfigure nSampleRate fRate].
  fold N M B p.
  repeat split; try assumption; try lia.
  apply quot_nonneg.
Qed.

Lemma has_R_ALL_counters : has R_ALL R_COUNTERS = true.
Proof. reflexivity. Qed.

Lemma inv_with_channels (a : analyzer) (cs : list channel_t) :
  inv a ->
  length cs = length (channels_of a) ->
  Forall (chan_ok (nBufSize a) (Z.shiftl 1 (nMaxRank a)) (nFftPeriod a)) cs ->
  inv (with_channels a cs).
Proof.
  intros (HB & Hr & Hp & Hn & Hok & Hs) Hlen Hcs.
  unfold inv in *. cbn [with_channels nMaxRank nBufSize nRank nFftPeriod
    nChannels channels_of vChannels nReconfigure nSampleRate fRate] in *.
  repeat split; try assumption; try lia.
Qed.

Lemma inv_step (a0 a : analyzer) : reachable a0 a -> inv a0 -> inv a.
Proof.
  intros Hreach H0.
  induction Hreach as
    [ | a sr _ IH | a rate _ IH | a w _ IH | a e _ IH | a s _ IH | a r _ IH
      | a rank _ IH | a ch fr _ IH Hch | a ch en _ IH Hch
      | a fuel ch inp a' _ IH Hch Hproc ]; [assumption|..].
  - unfold set_sample_rate. destruct (_ =? _); [assumption|].
    destruct IH as (HB & Hr & Hp & Hn & Hok & Hs).
    repeat split; try assumption; try apply Hr.
    left. apply has_lor_r, has_R_ALL_counters.
  - unfold set_rate. destruct (feqb K _ _); [assumption|].
    destruct IH as (HB & Hr & Hp & Hn & Hok & Hs).
    repeat split; try assumption; try apply Hr.
    left. now apply has_lor_r.
  - unfold set_window. destruct (_ =? _); [assumption|].
    destruct IH as (HB & Hr & Hp & Hn & Hok & Hs).
    repeat split; try assumption; try apply Hr.
    destruct Hs as [Hs|Hs]; [left; now apply has_lor_l|right; exact Hs].
  - unfold set_envelope. destruct (_ =? _); [assumption|].
    destruct IH as (HB & Hr & Hp & Hn & Hok & Hs).
    repeat split; try assumption; try apply Hr.
    destruct Hs as [Hs|Hs]; [left; now apply has_lor_l|right; exact Hs].
  - unfold set_shift. destruct (feqb K _ _); [assumption|].
    destruct IH as (HB & Hr & Hp & Hn & Hok & Hs).
    repeat split; try assumption; try apply Hr.
    destruct Hs as [Hs|Hs]; [left; now apply has_lor_l|right; exact Hs].
  - unfold set_reactivity. destruct (feqb K _ _); [assumption|].
    destruct IH as (HB & Hr & Hp & Hn & Hok & Hs).
    repeat split; try assumption; try apply Hr.
    destruct Hs as [Hs|Hs]; [left; now apply has_lor_l|right; exact Hs].
  - unfold set_rank.
    destruct (Z.ltb_spec rank 2); [assumption|].
    destruct (Z.gtb_spec rank (nMaxRank a)); [assumption|]. cbn [orb].
    destruct (_ =? _); [assumption|]. cbn [snd].
    destruct IH as (HB & Hr & Hp & Hn & Hok & Hs).
    unfold inv. cbn [nMaxRank nBufSize nRank nFftPeriod nChannels channels_of
                     vChannels nReconfigure].
    repeat split; try assumption; try lia.
    left. apply has_lor_r, has_R_ALL_counters.
  - unfold freeze_channel. destruct (_ >=? _); [assumption|]. cbn [snd].
    apply inv_with_channels; [assumption|apply upd_nth_length|].
    apply Forall_upd_nth; [apply IH|]. intros c Hc. exact Hc.
  - unfold enable_channel. destruct (_ >=? _); [assumption|]. cbn [snd].
    apply inv_with_channels; [assumption|apply upd_nth_length|].
    apply Forall_upd_nth; [apply IH|]. intros c Hc. exact Hc.
  - unfold process in Hproc.
    destruct (vChannels a) eqn:Ev; [|inversion Hproc; subst; assumption].
    destruct (ch >=? nChannels a); [inversion Hproc; subst; assumption|].
    pose proof (reconfigure_inv IH) as Hi.
    set (a1 := reconfigure a) in *.
    destruct (nth_error (channels_of a1) (Z.to_nat ch)) as [c|] eqn:Ec;
      [|inversion Hproc; subst; assumption].
    destruct (process_loop fuel a1 c inp) as [[a2 c2]|] eqn:El; [|discriminate].
    inversion Hproc; subst a'; clear Hproc.
    pose proof Hi as (HB & Hr & Hp & Hn & Hok & Hs).
    assert (HN : Z.shiftl 1 (nRank a1) <= nBufSize a1).
    { pose proof (@shiftl_1_mono (nRank a1) (nMaxRank a1) Hr).
      pose proof (@shiftl_1_mono (nMaxRank a1) (nMaxRank a1)). lia. }
    assert (Hc_ok : chan_ok (nBufSize a1) (Z.shiftl 1 (nMaxRank a1))
                            (nFftPeriod a1) c).
    { rewrite Forall_forall in Hok. apply Hok. eapply nth_error_In; eauto. }
    pose proof (@process_loop_ok fuel a1 c inp a2 c2 _ Hp (proj1 Hr) HN El Hc_ok)
      as Hc2.
    destruct (process_loop_conf _ _ _ _ El)
      as (E1 & E2 & E3 & E4 & E5 & E6 & E7 & E8 & E9).
    assert (Ecs : channels_of a2 = channels_of a1)
      by (unfold channels_of; now rewrite E9).
    assert (Hi2 : inv a2).
    { unfold inv. rewrite Ecs, E1, E2, E3, E4, E5, E6, E7, E8.
      repeat split; try assumption; apply Hr. }
    apply inv_with_channels; [assumption| |].
    + rewrite upd_nth_length. now rewrite Ecs.
    + rewrite E5, E2, E6. now apply Forall_set_nth.
Qed.

Lemma init_inv (channels max_rank max_sr : Z) (min_rate : F) :
  0 <= channels -> 0 <= max_rank ->
  2 * 2 ^ max_rank <= nBufSize (init construct channels max_rank max_sr min_rate) ->
  inv (init construct channels max_rank max_sr min_rate).
Proof.
  intros Hc Hr HB. unfold inv.
  cbn [init construct nMaxRank nBufSize nRank nFftPeriod nChannels channels_of
       vChannels nReconfigure] in *.
  rewrite Z.shiftl_1_l. repeat split; try assumption; try lia.
  - rewrite repeat_length. lia.
  - apply Forall_forall. intros c Hin. apply repeat_spec in Hin. subst c.
    unfold chan_ok. cbn. pose proof (Z.pow_pos_nonneg 2 max_rank). lia.
  - left. reflexivity.
Qed.

Lemma reachable_geometry (a0 a : analyzer) :
  reachable a0 a -> nBufSize a = nBufSize a0 /\ nMaxRank a = nMaxRank a0.
Proof.
  induction 1 as
    [ | a sr _ IH | a rate _ IH | a w _ IH | a e _ IH | a s _ IH | a r _ IH
      | a rank _ IH | a ch fr _ IH Hch | a ch en _ IH Hch
      | a fuel ch inp a' _ IH Hch Hproc ]; [split; reflexivity|..].
  - unfold set_sample_rate. now destruct (_ =? _).
  - unfold set_rate. now destruct (feqb K _ _).
  - unfold set_window. now destruct (_ =? _).
  - unfold set_envelope. now destruct (_ =? _).
  - unfold set_shift. now destruct (feqb K _ _).
  - unfold set_reactivity. now destruct (feqb K _ _).
  - unfold set_rank. destruct (_ || _); [assumption|]. now destruct (_ =? _).
  - unfold freeze_channel. now destruct (_ >=? _).
  - unfold enable_channel. now destruct (_ >=? _).
  - unfold process in Hproc.
    destruct (vChannels a); [|inversion Hproc; subst; assumption].
    destruct (ch >=? nChannels a); [inversion Hproc; subst; assumption|].
    destruct (reconfigure_conf a) as (_ & E2 & _ & _ & E5 & _).
    destruct (nth_error _ _) as [c|];
      [|inversion Hproc; subst; rewrite E2, E5; assumption].
    destruct (process_loop fuel (reconfigure a) c inp) as [[a2 c2]|] eqn:El;
      [|discriminate].
    inversion Hproc; subst a'; clear Hproc. cbn [with_channels nBufSize nMaxRank].
    destruct (process_loop_conf _ _ _ _ El) as (_ & E2' & _ & _ & E5' & _).
    rewrite E2', E5', E2, E5. assumption.
Qed.

(** C6, as amended.  Let the analyzer be initialised with a ring that holds
    two FFT windows of the largest rank, [B >= 2 * 2^R_max], where
    [B = ALIGN_SIZE(max_rank * 2 + max_sr / min_rate)].  Then every channel
    of every reachable state has [0 <= head <= B],
    [0 <= counter <= max(fft_period, delay)] and [delay <= B - N] with
    [N = 2^R]. *)
Theorem analyzer_reachable_invariant
  (channels max_rank max_sr : Z) (min_rate : F) (a : analyzer) (c : channel_t) :
  0 <= channels -> 0 <= max_rank ->
  2 * 2 ^ max_rank <= nBufSize (init construct channels max_rank max_sr min_rate) ->
  reachable (init construct channels max_rank max_sr min_rate) a ->
  In c (channels_of a) ->
  nBufSize a = ALIGN_SIZE K (max_rank * 2 + quot K max_sr min_rate) (DEFAULT_ALIGN K) /\
  0 <= nHead c <= nBufSize a /\
  0 <= nCounter c <= Z.max (nFftPeriod a) (nDelay c) /\
  nDelay c <= nBufSize a - 2 ^ nRank a.
Proof.
  intros Hc Hr HB Hreach Hin.
  pose proof (inv_step Hreach (init_inv max_sr min_rate Hc Hr HB))
    as (HB' & Hr' & _ & _ & Hok & _).
  destruct (reachable_geometry Hreach) as [EB _].
  rewrite Forall_forall in Hok. destruct (Hok c Hin) as (Hh & Hcnt & Hd & Hmax).
  split; [rewrite EB; reflexivity|].
  split; [assumption|]. split; [lia|].
  pose proof (@shiftl_1_mono (nRank a) (nMaxRank a) Hr') as HN.
  rewrite (Z.shiftl_1_l (nRank a)) in HN. lia.
Qed.

End Reachable.

(** ** Running the model *)

(** [process] with the fuel taken as enough; [returned] tells whether it was. *)
Definition returned (fuel : nat) (a : analyzer) (channel : Z) (inp : list F) : bool :=
  match process fuel a channel inp with
  | Some _ => true
  | None => false
  end.

Definition run (fuel : nat) (a : analyzer) (channel : Z) (inp : list F) : analyzer :=
  match process fuel a channel inp with
  | Some a' => a'
  | None => a
  end.

Lemma reachable_run (a0 a : analyzer) (fuel : nat) (channel : Z) (inp : list F) :
  reachable a0 a -> 0 <= channel -> returned fuel a channel inp = true ->
  reachable a0 (run fuel a channel inp).
Proof.
  intros Hr Hc Hret. unfold returned, run in *.
  destruct (process fuel a channel inp) as [a'|] eqn:E; [|discriminate].
  eapply reach_process; eauto.
Qed.


End Model.

(** ** Closed instances over the integers *)

(** Collaborators to run the model with: integer samples, rates that divide
    exactly, a rectangular window, a flat envelope and the identity in
    place of the transform.  [ALIGN_SIZE] rounds up to a multiple of the
    alignment, here 16. *)
Definition KZ : collab Z :=
  mk_collab 0 1 Z.mul Z.eqb Z.max
            (fun n r => Z.max 0 (n / r))
            (fun s _ => s)
            (fun t => 1 - t)
            (fun _ _ r => r)
            (fun _ _ _ => fun _ => 1)
            (fun _ _ _ => fun _ => 1)
            (fun _ src _ => src)
            (fun _ src _ => src)
            (fun _ src _ => src)
            (fun dst src k1 k2 n =>
               fun i => if within 0 n i then dst i * k1 + src i * k2 else dst i)
            (fun x al => (x + al - 1) / al * al)
            16 1 1.

(** The samples [1, 2, ..., n]. *)
Definition ramp (n : nat) : list Z := map Z.of_nat (seq 1 n).

(** One channel, rank 2 ([N = 4]), [max_sr = 16], [min_rate = 1]: the ring
    has [B = ALIGN_SIZE(4 + 16, 16) = 32] cells; at 16 samples per second and
    the default rate the FFT period is 16 samples. *)
Definition mono : analyzer Z := init KZ (construct KZ) 1 2 16 1.
Definition mono16 : analyzer Z := set_sample_rate mono 16.

(** Two channels, rank 3 ([N = 8]), [max_sr = 16]: [B = 32]; at 2 samples
    per second the FFT period is 2. *)
Definition pair : analyzer Z := set_sample_rate (init KZ (construct KZ) 2 3 16 1) 2.

(** Two channels, rank 4 ([N = 16]), [max_sr = 4]: [B = 16], period 4. *)
Definition duo : analyzer Z := set_sample_rate (init KZ (construct KZ) 2 4 4 1) 4.

Definition idle_channel : channel_t Z :=
  mk_channel (fun _ => 0) (fun _ => 0) 0 0 0 false true.

Definition channel (a : analyzer Z) (i : nat) : channel_t Z :=
  nth i (channels_of a) idle_channel.

(** [mono16] after 32 and after 48 samples on channel 0. *)
Definition mono32 : analyzer Z := run KZ 100 mono16 0 (ramp 32).
Definition mono48 : analyzer Z := run KZ 100 mono16 0 (ramp 48).

(** [pair] and [duo] after a call of [process] without samples, which
    reconfigures. *)
Definition pair_ready : analyzer Z := run KZ 1 pair 0 [].
Definition duo_ready : analyzer Z := run KZ 1 duo 0 [].

Lemma mono32_reachable : reachable KZ mono mono32.
Proof.
  apply reachable_run; [apply reach_set_sample_rate, reach_init|lia|].
  vm_compute. reflexivity.
Qed.

Lemma pair_ready_reachable :
  reachable KZ (init KZ (construct KZ) 2 3 16 1) pair_ready.
Proof.
  apply reachable_run; [apply reach_set_sample_rate, reach_init|lia|].
  vm_compute. reflexivity.
Qed.

Lemma duo_ready_reachable :
  reachable KZ (init KZ (construct KZ) 2 4 4 1) duo_ready.
Proof.
  apply reachable_run; [apply reach_set_sample_rate, reach_init|lia|].
  vm_compute. reflexivity.
Qed.

(** C1 (the code departs from the claim).  Channel 0 of [mono48] has its FFT
    due, is active and not frozen, with head 16 and delay 0 in a ring that
    holds the samples 33..48 in cells 0..15 and 17..32 in cells 16..31.  The
    next call of [process] hands [33, 34, 35, 36] to the FFT, the first [N]
    cells of the ring times the window; the [N] samples that start at
    [(head - delay) mod B], which the two-segment product had prepared, are
    [17, 18, 19, 20]. *)
Theorem fft_input_ignores_ring_offset :
  nFftPeriod mono48 - nCounter (channel mono48 0) <= 0 /\
  bFreeze (channel mono48 0) = false /\
  bActive mono48 = true /\ c_bActive (channel mono48 0) = true /\
  (nHead (channel mono48 0) - nDelay (channel mono48 0)) mod nBufSize mono48 = 16 /\
  returned KZ 2 mono48 0 [49] = true /\
  map (vSigRe (run KZ 2 mono48 0 [49])) [0; 1; 2; 3] = [33; 34; 35; 36] /\
  map (ring_window KZ mono48 (channel mono48 0)) [0; 1; 2; 3] = [17; 18; 19; 20] /\
  map (prepare_real KZ mono48 (channel mono48 0)) [0; 1; 2; 3] = [17; 18; 19; 20].
Proof.
  split; [vm_compute; discriminate|].
  repeat split; vm_compute; reflexivity.
Qed.

(** The invariant as the specification words it. *)
Definition claimed_invariant (a : analyzer Z) (c : channel_t Z) : Prop :=
  0 <= nHead c < nBufSize a /\
  0 <= nCounter c <= nFftPeriod a /\
  (nReconfigure a = 0 -> nDelay c <= nBufSize a - 2 ^ nRank a).

(** C6, counterexample.  After 32 single-channel samples the head stands at
    [B = 32].  Right after the reconfiguration of two channels of rank 3
    with an FFT period of 2, channel 1 has counter 4, above the period.
    Right after the reconfiguration of two channels of rank 4 in a ring of
    [B = 16] cells, channel 1 has delay 8, above [B - N = 0]. *)
Lemma analyzer_claimed_invariant_fails :
  (reachable KZ mono mono32 /\ In (channel mono32 0) (channels_of mono32) /\
   ~ claimed_invariant mono32 (channel mono32 0) /\
   nHead (channel mono32 0) = nBufSize mono32) /\
  (reachable KZ (init KZ (construct KZ) 2 3 16 1) pair_ready /\
   In (channel pair_ready 1) (channels_of pair_ready) /\
   ~ claimed_invariant pair_ready (channel pair_ready 1) /\
   nFftPeriod pair_ready < nCounter (channel pair_ready 1)) /\
  (reachable KZ (init KZ (construct KZ) 2 4 4 1) duo_ready /\
   In (channel duo_ready 1) (channels_of duo_ready) /\
   nReconfigure duo_ready = 0 /\
   ~ claimed_invariant duo_ready (channel duo_ready 1) /\
   nBufSize duo_ready - 2 ^ nRank duo_ready < nDelay (channel duo_ready 1)).
Proof.
  assert (H1 : nHead (channel mono32 0) = 32) by (vm_compute; reflexivity).
  assert (H2 : nBufSize mono32 = 32) by (vm_compute; reflexivity).
  assert (H3 : nFftPeriod pair_ready = 2) by (vm_compute; reflexivity).
  assert (H4 : nCounter (channel pair_ready 1) = 4) by (vm_compute; reflexivity).
  assert (H5 : nDelay (channel duo_ready 1) = 8) by (vm_compute; reflexivity).
  assert (H6 : nBufSize duo_ready - 2 ^ nRank duo_ready = 0)
    by (vm_compute; reflexivity).
  assert (H7 : nReconfigure duo_ready = 0) by (vm_compute; reflexivity).
  split; [|split].
  - split; [apply mono32_reachable|].
    split; [apply nth_In; vm_compute; lia|].
    split; [|congruence].
    unfold claimed_invariant. rewrite H1, H2. lia.
  - split; [apply pair_ready_reachable|].
    split; [apply nth_In; vm_compute; lia|].
    split; [|lia].
    unfold claimed_invariant. rewrite H3, H4. lia.
  - split; [apply duo_ready_reachable|].
    split; [apply nth_In; vm_compute; lia|].
    split; [exact H7|].
    split; [|lia].
    unfold claimed_invariant. rewrite H6, H5. intros (_ & _ & H). specialize (H H7). lia.
Qed.

Lemma analyzer_reachable_invariant_witness :
  (forall n r, 0 <= quot KZ n r) /\ 0 <= 1 /\ 0 <= 2 /\
  2 * 2 ^ 2 <= nBufSize mono /\
  reachable KZ mono mono32 /\
  In (channel mono32 0) (channels_of mono32) /\
  (nBufSize mono32 = ALIGN_SIZE KZ (2 * 2 + quot KZ 16 1) (DEFAULT_ALIGN KZ) /\
   0 <= nHead (channel mono32 0) <= nBufSize mono32 /\
   0 <= nCounter (channel mono32 0)
     <= Z.max (nFftPeriod mono32) (nDelay (channel mono32 0)) /\
   nDelay (channel mono32 0) <= nBufSize mono32 - 2 ^ nRank mono32).
Proof.
  assert (Hq : forall n r, 0 <= quot KZ n r) by (intros n r; cbn; lia).
  assert (H1 : 0 <= 1) by lia.
  assert (H2 : 0 <= 2) by lia.
  assert (HB : 2 * 2 ^ 2 <= nBufSize mono) by (vm_compute; discriminate).
  assert (Hin : In (channel mono32 0) (channels_of mono32))
    by (apply nth_In; vm_compute; lia).
  repeat (split; [assumption || apply mono32_reachable|]).
  exact (@analyzer_reachable_invariant Z KZ Hq 1 2 16 1 mono32 (channel mono32 0)
           H1 H2 HB mono32_reachable Hin).
Defined.

Lemma reconfigure_counters_witness :
  has (nReconfigure (init KZ (construct KZ) 4 8 48000 1)) R_COUNTERS = true /\
  Z.of_nat 2 < nChannels (init KZ (construct KZ) 4 8 48000 1) /\
  nth_error (channels_of (init KZ (construct KZ) 4 8 48000 1)) 2 = Some idle_channel /\
  exists c',
    nth_error (channels_of (reconfigure KZ (init KZ (construct KZ) 4 8 48000 1))) 2
      = Some c' /\
    nCounter c' = 128 /\ nDelay c' = nCounter c'.
Proof.
  assert (Hc : has (nReconfigure (init KZ (construct KZ) 4 8 48000 1)) R_COUNTERS = true)
    by reflexivity.
  assert (Hi : Z.of_nat 2 < nChannels (init KZ (construct KZ) 4 8 48000 1))
    by (cbn; lia).
  assert (Hn : nth_error (channels_of (init KZ (construct KZ) 4 8 48000 1)) 2
               = Some idle_channel) by reflexivity.
  repeat (split; [assumption|]).
  destruct (@reconfigure_counters Z KZ _ 2%nat idle_channel Hc Hi Hn)
    as [(c' & E1 & E2 & E3 & _) _].
  exists c'. repeat split; assumption.
Defined.

(** The start offset as the specification words it: [i * (N / C)] rounded
    down to a multiple of 4. *)
Definition claimed_delay (i N C : Z) : Z :=
  let delay := i * (N / C) in
  delay - delay mod 4.

(** C8, counterexample.  With three channels and rank 5 ([N = 32]) the step
    is [32 / 3 = 10], rounded down to 8: [reconfigure] stores 0, 8, 16 in
    the counters and in the delays.  The offsets [i * 10] rounded down to a
    multiple of 4 are 0, 8, 20; for four channels and rank 8 the two
    readings agree. *)
Lemma reconfigure_rounds_the_step :
  map (@nCounter Z) (channels_of (reconfigure KZ (init KZ (construct KZ) 3 5 16 1)))
  = [0; 8; 16] /\
  map (@nDelay Z) (channels_of (reconfigure KZ (init KZ (construct KZ) 3 5 16 1)))
  = [0; 8; 16] /\
  map (fun i => claimed_delay i (Z.shiftl 1 5) 3) [0; 1; 2] = [0; 8; 20] /\
  map (fun i => claimed_delay i (Z.shiftl 1 8) 4) [0; 1; 2; 3] = [0; 64; 128; 192].
Proof. vm_compute. repeat split; reflexivity. Qed.


End Analyzer.

(* ================================================================== *)
(** * Oscilloscope (src/core/util/Oscilloscope.cpp) *)
(* ================================================================== *)

Module Oscilloscope.

Local Open Scope Z_scope.

Definition CAPTURE_BUFFER_LIMIT_SIZE : Z := 196608.
Definition SWEEP_BUFFER_LIMIT_SIZE : Z := 196608.

(** [size_t] arithmetic: results are reduced modulo [2^64]. *)
Definition wrap (x : Z) : Z := x mod 2 ^ 64.

Definition buf (F : Type) : Type := Z -> F.

Inductive osc_state_t : Type := OSC_STATE_ACQUIRING | OSC_STATE_SWEEPING.

Inductive osc_output_mode_t : Type := OSC_OUTPUT_MODE_MUTED | OSC_OUTPUT_MODE_COPY.

(** Modelled from the spec: the states of the trigger detector, declared
    with the class [Trigger] outside these sources. *)
Inductive trg_state_t : Type :=
  TRG_STATE_IDLE | TRG_STATE_WAITING | TRG_STATE_FIRED | TRG_STATE_COMPLETE.

(** What the oscilloscope takes from outside its translation unit.  The
    trigger detector is a state [Trg] stepped one sample at a time, the
    oversampler a state [Ovs] that turns [n] samples into the samples it
    stores at the destination, here returned as a list. *)
Record collab (F Trg Ovs : Type) : Type := mk_collab {
  fzero : F;
  seconds_to_samples : Z -> F -> Z;
  samples_to_seconds : Z -> Z -> F;
  (* Trigger *)
  trigger0 : Trg;
  single_sample_processor : F -> Trg -> Trg;
  get_trigger_state : Trg -> trg_state_t;
  set_post_trigger_samples : Z -> Trg -> Trg;
  set_trigger_type : Z -> Trg -> Trg;
  trigger_update_settings : Trg -> Trg;
  (* Oversampler *)
  over0 : Ovs;
  over_set_sample_rate : Z -> Ovs -> Ovs;
  over_set_mode : Z -> Ovs -> Ovs;
  over_modified : Ovs -> bool;
  over_update_settings : Ovs -> Ovs;
  get_oversampling : Ovs -> Z;
  upsample : Ovs -> list F -> list F * Ovs;
  (* constants of the headers *)
  TRG_TYPE_NONE : Z;
  OM_NONE : Z
}.

Section Model.
Variables F Trg Ovs : Type.
Variable K : collab F Trg Ovs.

(** The object.  The two parameter blocks are flattened; the buffers are
    the two halves of the block allocated by [init]. *)
Record osc : Type := mk_osc {
  nSampleRate : Z;
  nOverSampleRate : Z;
  enTriggerType : Z;
  enState : osc_state_t;
  fPreTrigger : F;
  fPostTrigger : F;
  nPreTrigger : Z;
  nPostTrigger : Z;
  fVertOffset : F;
  fHorOffset : F;
  nLimit : Z;
  sSweepParams_nHead : Z;    (* sSweepParams.nHead *)
  bSweepComplete : bool;
  sBufferParams_nHead : Z;    (* sBufferParams.nHead *)
  nTriggerAt : Z;
  enOverMode : Z;
  nOversampling : Z;
  enOutputMode : osc_output_mode_t;
  vCaptureBuffer : buf F;
  vSweepBuffer : buf F;
  bSync : bool;
  sOver : Ovs;
  sTrigger : Trg
}.

Definition set_enState (st : osc) (v : osc_state_t) : osc :=
  mk_osc (nSampleRate st) (nOverSampleRate st) (enTriggerType st) v
        (fPreTrigger st) (fPostTrigger st) (nPreTrigger st) (nPostTrigger st)
        (fVertOffset st) (fHorOffset st) (nLimit st) (sSweepParams_nHead st)
        (bSweepComplete st) (sBufferParams_nHead st) (nTriggerAt st)
        (enOverMode st) (nOversampling st) (enOutputMode st) (vCaptureBuffer
        st) (vSweepBuffer st) (bSync st) (sOver st) (sTrigger st).

Definition set_sSweepParams_nHead (st : osc) (v : Z) : osc :=
  mk_osc (nSampleRate st) (nOverSampleRate st) (enTriggerType st) (enState st)
        (fPreTrigger st) (fPostTrigger st) (nPreTrigger st) (nPostTrigger st)
        (fVertOffset st) (fHorOffset st) (nLimit st) v (bSweepComplete st)
        (sBufferParams_nHead st) (nTriggerAt st) (enOverMode st)
        (nOversampling st) (enOutputMode st) (vCaptureBuffer st) (vSweepBuffer
        st) (bSync st) (sOver st) (sTrigger st).

Definition set_bSweepComplete (st : osc) (v : bool) : osc :=
  mk_osc (nSampleRate st) (nOverSampleRate st) (enTriggerType st) (enState st)
        (fPreTrigger st) (fPostTrigger st) (nPreTrigger st) (nPostTrigger st)
        (fVertOffset st) (fHorOffset st) (nLimit st) (sSweepParams_nHead st) v
        (sBufferParams_nHead st) (nTriggerAt st) (enOverMode st)
        (nOversampling st) (enOutputMode st) (vCaptureBuffer st) (vSweepBuffer
        st) (bSync st) (sOver st) (sTrigger st).

Definition set_sBufferParams_nHead (st : osc) (v : Z) : osc :=
  mk_osc (nSampleRate st) (nOverSampleRate st) (enTriggerType st) (enState st)
        (fPreTrigger st) (fPostTrigger st) (nPreTrigger st) (nPostTrigger st)
        (fVertOffset st) (fHorOffset st) (nLimit st) (sSweepParams_nHead st)
        (bSweepComplete st) v (nTriggerAt st) (enOverMode st) (nOversampling
        st) (enOutputMode st) (vCaptureBuffer st) (vSweepBuffer st) (bSync st)
        (sOver st) (sTrigger st).

Definition set_nTriggerAt (st : osc) (v : Z) : osc :=
  mk_osc (nSampleRate st) (nOverSampleRate st) (enTriggerType st) (enState st)
        (fPreTrigger st) (fPostTrigger st) (nPreTrigger st) (nPostTrigger st)
        (fVertOffset st) (fHorOffset st) (nLimit st) (sSweepParams_nHead st)
        (bSweepComplete st) (sBufferParams_nHead st) v (enOverMode st)
        (nOversampling st) (enOutputMode st) (vCaptureBuffer st) (vSweepBuffer
        st) (bSync st) (sOver st) (sTrigger st).

Definition set_vCaptureBuffer (st : osc) (v : buf F) : osc :=
  mk_osc (nSampleRate st) (nOverSampleRate st) (enTriggerType st) (enState st)
        (fPreTrigger st) (fPostTrigger st) (nPreTrigger st) (nPostTrigger st)
        (fVertOffset st) (fHorOffset st) (nLimit st) (sSweepParams_nHead st)
        (bSweepComplete st) (sBufferParams_nHead st) (nTriggerAt st)
        (enOverMode st) (nOversampling st) (enOutputMode st) v (vSweepBuffer
        st) (bSync st) (sOver st) (sTrigger st).

Definition set_vSweepBuffer (st : osc) (v : buf F) : osc :=
  mk_osc (nSampleRate st) (nOverSampleRate st) (enTriggerType st) (enState st)
        (fPreTrigger st) (fPostTrigger st) (nPreTrigger st) (nPostTrigger st)
        (fVertOffset st) (fHorOffset st) (nLimit st) (sSweepParams_nHead st)
        (bSweepComplete st) (sBufferParams_nHead st) (nTriggerAt st)
        (enOverMode st) (nOversampling st) (enOutputMode st) (vCaptureBuffer
        st) v (bSync st) (sOver st) (sTrigger st).

Definition set_sOver (st : osc) (v : Ovs) : osc :=
  mk_osc (nSampleRate st) (nOverSampleRate st) (enTriggerType st) (enState st)
        (fPreTrigger st) (fPostTrigger st) (nPreTrigger st) (nPostTrigger st)
        (fVertOffset st) (fHorOffset st) (nLimit st) (sSweepParams_nHead st)
        (bSweepComplete st) (sBufferParams_nHead st) (nTriggerAt st)
        (enOverMode st) (nOversampling st) (enOutputMode st) (vCaptureBuffer
        st) (vSweepBuffer st) (bSync st) v (sTrigger st).

Definition set_sTrigger (st : osc) (v : Trg) : osc :=
  mk_osc (nSampleRate st) (nOverSampleRate st) (enTriggerType st) (enState st)
        (fPreTrigger st) (fPostTrigger st) (nPreTrigger st) (nPostTrigger st)
        (fVertOffset st) (fHorOffset st) (nLimit st) (sSweepParams_nHead st)
        (bSweepComplete st) (sBufferParams_nHead st) (nTriggerAt st)
        (enOverMode st) (nOversampling st) (enOutputMode st) (vCaptureBuffer
        st) (vSweepBuffer st) (bSync st) (sOver st) v.

Definition zeros : buf F := fun _ => fzero K.

Definition within (off n i : Z) : bool := (off <=? i) && (i <? off + n).

(** Modelled from the spec: [dsp::copy(&dst[doff], &src[soff], n)], a pure
    element-wise copy of [n] samples of the DSP kernel. *)
Definition copy (dst : buf F) (doff : Z) (src : buf F) (soff n : Z) : buf F :=
  fun i => if within doff n i then src (soff + (i - doff)) else dst i.

(** The samples [l] stored from cell [off] on. *)
Definition store (dst : buf F) (off : Z) (l : list F) : buf F :=
  fun i => if within off (Z.of_nat (length l)) i
           then nth (Z.to_nat (i - off)) l (fzero K) else dst i.

(** [for (size_t n = 0; n < k; ++n) st = body(n, st)] *)
Fixpoint for_loop (St : Type) (k : nat) (body : nat -> St -> St) (st : St) : St :=
  match k with
  | O => st
  | S k' => body k' (for_loop k' body st)
  end.

(** Oscilloscope::Oscilloscope *)
Definition Oscilloscope : osc :=
  mk_osc (-1) (-1) (TRG_TYPE_NONE K) OSC_STATE_ACQUIRING
         (fzero K) (fzero K) 0 0 (fzero K) (fzero K) 0 0 false
         0 0 (OM_NONE K) 0 OSC_OUTPUT_MODE_MUTED zeros zeros true
         (over0 K) (trigger0 K).

(** Oscilloscope::init, allocation succeeding; [capture] and [sweep] are
    the contents of the fresh block. *)
Definition init (st : osc) (capture sweep : buf F) : osc :=
  set_vSweepBuffer (set_vCaptureBuffer st capture) sweep.

(** Oscilloscope::update_settings *)
Definition update_settings (st : osc) : osc :=
  if negb (bSync st) then st
  else
    let over := over_set_sample_rate K (nSampleRate st) (sOver st) in
    let over := over_set_mode K (enOverMode st) over in
    let over := if over_modified K over then over_update_settings K over else over in
    let oversampling := get_oversampling K over in
    let over_rate := wrap (oversampling * nSampleRate st) in
    let minBufSize :=
      if CAPTURE_BUFFER_LIMIT_SIZE <? SWEEP_BUFFER_LIMIT_SIZE
      then CAPTURE_BUFFER_LIMIT_SIZE else SWEEP_BUFFER_LIMIT_SIZE in
    let pre := seconds_to_samples K over_rate (fPreTrigger st) in
    let pre := if pre <? minBufSize then pre else minBufSize in
    let fpre := samples_to_seconds K over_rate pre in
    let availableForPost := wrap (SWEEP_BUFFER_LIMIT_SIZE - pre) in
    let post := seconds_to_samples K over_rate (fPostTrigger st) in
    let post := if post <? availableForPost then post else availableForPost in
    let fpost := samples_to_seconds K over_rate post in
    let trg := set_post_trigger_samples K post (sTrigger st) in
    let trg := set_trigger_type K (enTriggerType st) trg in
    let trg := trigger_update_settings K trg in
    mk_osc (nSampleRate st) over_rate (enTriggerType st) (enState st)
           fpre fpost pre post (fVertOffset st) (fHorOffset st)
           (wrap (pre + post)) 0 false
           0 0 (enOverMode st) oversampling (enOutputMode st)
           (vCaptureBuffer st) (vSweepBuffer st) false over trg.

(** Oscilloscope::sweep_from_the_past: "Copying the samples from the past
    (with respect to the trigger) into the sweep buffer. Excluding trigger
    sample." *)
Definition sweep_from_the_past (st : osc) : osc :=
  let copyHead :=
    if nTriggerAt st <? nPreTrigger st
    then wrap (wrap (CAPTURE_BUFFER_LIMIT_SIZE - nPreTrigger st) + nTriggerAt st)
    else wrap (nTriggerAt st - nPreTrigger st) in
  if copyHead >=? nTriggerAt st then
    let st := set_vSweepBuffer st
                (copy (vSweepBuffer st) (sSweepParams_nHead st)
                      (vCaptureBuffer st) copyHead
                      (wrap (CAPTURE_BUFFER_LIMIT_SIZE - copyHead))) in
    let st := set_sSweepParams_nHead st
                (wrap (sSweepParams_nHead st
                       + wrap (CAPTURE_BUFFER_LIMIT_SIZE - copyHead))) in
    let st := set_vSweepBuffer st
                (copy (vSweepBuffer st) (sSweepParams_nHead st)
                      (vCaptureBuffer st) 0 (nTriggerAt st)) in
    set_sSweepParams_nHead st (wrap (sSweepParams_nHead st + nTriggerAt st))
  else
    let st := set_vSweepBuffer st
                (copy (vSweepBuffer st) (sSweepParams_nHead st)
                      (vCaptureBuffer st) copyHead
                      (wrap (nTriggerAt st - copyHead))) in
    set_sSweepParams_nHead st
      (wrap (sSweepParams_nHead st + wrap (nTriggerAt st - copyHead))).

(** Body of the [for] loop of the ACQUIRING case: sample [bufptr[n]] goes
    through the trigger, and a trigger found FIRED starts a sweep. *)
Definition trigger_iter (n : nat) (st : osc) : osc :=
  let x := vCaptureBuffer st (sBufferParams_nHead st + Z.of_nat n) in
  let st := set_sTrigger st (single_sample_processor K x (sTrigger st)) in
  match get_trigger_state K (sTrigger st) with
  | TRG_STATE_FIRED =>
      let st := set_enState st OSC_STATE_SWEEPING in
      let st := set_nTriggerAt st (wrap (sBufferParams_nHead st + Z.of_nat n)) in
      let st := set_sSweepParams_nHead st 0 in
      let st := set_bSweepComplete st false in
      sweep_from_the_past st
  | _ => st
  end.

(** [to_process], [remaining], [to_store] and [to_do] of either case: the
    pair [(to_store, to_do)], or [None] when the division is by zero. *)
Definition batch (st : osc) (count : Z) : option (Z * Z) :=
  let to_process := wrap (nOversampling st * count) in
  let remaining := wrap (CAPTURE_BUFFER_LIMIT_SIZE - sBufferParams_nHead st) in
  let to_store := if to_process >? remaining then remaining else to_process in
  if nOversampling st =? 0 then None
  else Some (to_store, to_store / nOversampling st).

(** [sOver.upsample(&vCaptureBuffer[sBufferParams.nHead], src, to_do)];
    [src] is not advanced by the loop of [process]. *)
Definition capture (st : osc) (src : list F) (to_do : Z) : osc :=
  let '(outs, over) := upsample K (sOver st) (firstn (Z.to_nat to_do) src) in
  let st := set_sOver st over in
  set_vCaptureBuffer st (store (vCaptureBuffer st) (sBufferParams_nHead st) outs).

Definition advance_head (st : osc) (to_store : Z) : osc :=
  set_sBufferParams_nHead st
    (wrap (sBufferParams_nHead st + to_store) mod CAPTURE_BUFFER_LIMIT_SIZE).

(** [case OSC_STATE_ACQUIRING]; the result is the new state and [count]. *)
Definition acquiring_step (st : osc) (src : list F) (count : Z) : option (osc * Z) :=
  match batch st count with
  | None => None
  | Some (to_store, to_do) =>
      let st := capture st src to_do in
      let st := for_loop (Z.to_nat to_store) trigger_iter st in
      let st := advance_head st to_store in
      Some (st, wrap (count - to_do))
  end.

(** [copyTail] of [case OSC_STATE_SWEEPING] *)
Definition copy_tail (st : osc) : Z :=
  let copyTail :=
    wrap (nTriggerAt st + nPostTrigger st) mod CAPTURE_BUFFER_LIMIT_SIZE in
  if copyTail <? sBufferParams_nHead st then copyTail
  else sBufferParams_nHead st.

(** The copy of the post-trigger samples at the head of
    [case OSC_STATE_SWEEPING]. *)
Definition sweep_post (st : osc) : osc :=
  let copyTail := copy_tail st in
  if nTriggerAt st <=? copyTail then
    let n := wrap (wrap (copyTail - nTriggerAt st) + 1) in
    let st := set_vSweepBuffer st
                (copy (vSweepBuffer st) (sSweepParams_nHead st)
                      (vCaptureBuffer st) (nTriggerAt st) n) in
    set_sSweepParams_nHead st (wrap (sSweepParams_nHead st + n))
  else
    let n := wrap (CAPTURE_BUFFER_LIMIT_SIZE - nTriggerAt st) in
    let st := set_vSweepBuffer st
                (copy (vSweepBuffer st) (sSweepParams_nHead st)
                      (vCaptureBuffer st) (nTriggerAt st) n) in
    let st := set_nTriggerAt st (wrap (nTriggerAt st + n)) in
    let st := set_vSweepBuffer st
                (copy (vSweepBuffer st) (sSweepParams_nHead st)
                      (vCaptureBuffer st) 0 (wrap (copyTail + 1))) in
    set_sSweepParams_nHead st (wrap (sSweepParams_nHead st + wrap (copyTail + 1))).

(** [if (sSweepParams.nHead >= sSweepParams.nLimit - 1) ...] *)
Definition sweep_done (st : osc) : osc :=
  if sSweepParams_nHead st >=? wrap (nLimit st - 1) then
    let st := set_enState st OSC_STATE_ACQUIRING in
    let st := set_sSweepParams_nHead st 0 in
    set_bSweepComplete st true
  else st.

(** [case OSC_STATE_SWEEPING] *)
Definition sweeping_step (st : osc) (src : list F) (count : Z) : option (osc * Z) :=
  let st := sweep_post st in
  match batch st count with
  | None => None
  | Some (to_store, to_do) =>
      let st := capture st src to_do in
      let st := advance_head st to_store in
      Some (sweep_done st, wrap (count - to_do))
  end.

Definition process_step (st : osc) (src : list F) (count : Z) : option (osc * Z) :=
  match enState st with
  | OSC_STATE_ACQUIRING => acquiring_step st src count
  | OSC_STATE_SWEEPING => sweeping_step st src count
  end.

(** How a call of [process] ends. *)
Inductive outcome : Type :=
| Returned (st : osc)
| DivisionByZero
| OutOfFuel.

(** [while (count > 0)], at most [fuel] iterations. *)
Fixpoint process_loop (fuel : nat) (st : osc) (src : list F) (count : Z) : outcome :=
  if count =? 0 then Returned st
  else
    match fuel with
    | O => OutOfFuel
    | S fuel' =>
        match process_step st src count with
        | None => DivisionByZero
        | Some (st, count) => process_loop fuel' st src count
        end
    end.

(** What [process] leaves in [dst]. *)
Definition output (st : osc) (src : list F) (count : Z) : list F :=
  match enOutputMode st with
  | OSC_OUTPUT_MODE_COPY => firstn (Z.to_nat count) src
  | OSC_OUTPUT_MODE_MUTED => repeat (fzero K) (Z.to_nat count)
  end.

(** Oscilloscope::process; [count] is a [size_t]. *)
Definition process (fuel : nat) (st : osc) (src : list F) (count : Z)
  : list F * outcome :=
  (output st src count, process_loop fuel st src count).

(** ** The division by the oversampling factor *)

Lemma batch_none (st : osc) (count : Z) :
  batch st count = None <-> nOversampling st = 0.
Proof.
  unfold batch. destruct (Z.eqb_spec (nOversampling st) 0); split;
    intros; congruence.
Qed.

Lemma sweep_post_nOversampling (st : osc) :
  nOversampling (sweep_post st) = nOversampling st.
Proof. unfold sweep_post. now destruct (_ <=? _). Qed.

Lemma acquiring_step_none (st : osc) (src : list F) (count : Z) :
  acquiring_step st src count = None <-> nOversampling st = 0.
Proof.
  rewrite <- (batch_none st count). unfold acquiring_step.
  destruct (batch st count) as [[to_store to_do]|]; split; intros; congruence.
Qed.

Lemma sweeping_step_none (st : osc) (src : list F) (count : Z) :
  sweeping_step st src count = None <-> nOversampling st = 0.
Proof.
  rewrite <- sweep_post_nOversampling, <- (batch_none (sweep_post st) count).
  unfold sweeping_step.
  destruct (batch (sweep_post st) count) as [[to_store to_do]|]; split;
    intros; congruence.
Qed.

(** C10.  The constructor leaves [nOversampling] at 0, and [init] keeps it;
    a call of [process] with [count > 0] in such a state divides by zero in
    its first iteration.  In either case of the [switch] the quotient
    [to_store / nOversampling] is defined exactly when
    [nOversampling >= 1]. *)
Theorem process_division_by_zero
  (st : osc) (src : list F) (count : Z) (fuel : nat) (capture sweep : buf F) :
  0 < count ->
  0 <= nOversampling st ->
  nOversampling Oscilloscope = 0 /\
  snd (process (S fuel) Oscilloscope src count) = DivisionByZero /\
  snd (process (S fuel) (init Oscilloscope capture sweep) src count)
    = DivisionByZero /\
  (acquiring_step st src count <> None <-> 1 <= nOversampling st) /\
  (sweeping_step st src count <> None <-> 1 <= nOversampling st).
Proof.
  intros Hc Hm.
  assert (Hz : (count =? 0) = false) by (apply Z.eqb_neq; lia).
  split; [reflexivity|].
  split; [cbn [process snd process_loop]; rewrite Hz; reflexivity|].
  split; [cbn [process snd process_loop]; rewrite Hz; reflexivity|].
  rewrite acquiring_step_none, sweeping_step_none. split; split; lia.
Qed.

(** ** The trigger inside the loop of the ACQUIRING case *)

Lemma sweep_from_the_past_keeps (st : osc) :
  sTrigger (sweep_from_the_past st) = sTrigger st /\
  enState (sweep_from_the_past st) = enState st /\
  nTriggerAt (sweep_from_the_past st) = nTriggerAt st /\
  bSweepComplete (sweep_from_the_past st) = bSweepComplete st /\
  sBufferParams_nHead (sweep_from_the_past st) = sBufferParams_nHead st /\
  nOversampling (sweep_from_the_past st) = nOversampling st /\
  vCaptureBuffer (sweep_from_the_past st) = vCaptureBuffer st.
Proof. unfold sweep_from_the_past. destruct (_ >=? _); repeat split. Qed.

(** Every iteration hands its sample to the trigger, whatever [enState]. *)
Lemma trigger_iter_feeds (n : nat) (st : osc) :
  sTrigger (trigger_iter n st) =
  single_sample_processor K
    (vCaptureBuffer st (sBufferParams_nHead st + Z.of_nat n)) (sTrigger st).
Proof.
  unfold trigger_iter. cbv zeta.
  match goal with |- context [get_trigger_state K ?t] =>
    destruct (get_trigger_state K t) end; try reflexivity.
  match goal with |- context [sweep_from_the_past ?s] =>
    destruct (sweep_from_the_past_keeps s) as (-> & _) end.
  reflexivity.
Qed.

(** Every trigger found FIRED restarts the sweep, whatever [enState]. *)
Lemma trigger_iter_accepts (n : nat) (st : osc) :
  get_trigger_state K
    (single_sample_processor K
       (vCaptureBuffer st (sBufferParams_nHead st + Z.of_nat n)) (sTrigger st))
    = TRG_STATE_FIRED ->
  enState (trigger_iter n st) = OSC_STATE_SWEEPING /\
  nTriggerAt (trigger_iter n st) = wrap (sBufferParams_nHead st + Z.of_nat n) /\
  bSweepComplete (trigger_iter n st) = false.
Proof.
  intros H. unfold trigger_iter. cbv zeta.
  change (sTrigger (set_sTrigger st ?v)) with v. rewrite H.
  match goal with |- context [sweep_from_the_past ?s] =>
    destruct (sweep_from_the_past_keeps s) as (_ & -> & -> & -> & _) end.
  repeat split.
Qed.

(** ** The pre-trigger splice and the first post-trigger sample *)

Lemma wrap_small (x : Z) : 0 <= x < 2 ^ 64 -> wrap x = x.
Proof. intros H. unfold wrap. now apply Z.mod_small. Qed.

Lemma copy_inside (off n i : Z) : off <= i < off + n -> within off n i = true.
Proof. intros H. unfold within. apply andb_true_intro. split; lia. Qed.

Lemma copy_outside (off n i : Z) : i < off \/ off + n <= i -> within off n i = false.
Proof.
  intros H. unfold within. apply andb_false_iff.
  destruct H; [left|right]; lia.
Qed.

Ltac unwrap :=
  repeat match goal with
  | |- context [wrap ?x] =>
      rewrite (@wrap_small x) by (change (2 ^ 64) with 18446744073709551616; lia)
  end.

(** [sweep_from_the_past], entered with an empty sweep buffer, lays down
    the [nPreTrigger] cells of the ring that precede cell [nTriggerAt], in
    ring order, and leaves the sweep head behind them. *)
Lemma sweep_from_the_past_splice (st : osc) :
  0 <= nTriggerAt st < CAPTURE_BUFFER_LIMIT_SIZE ->
  1 <= nPreTrigger st <= CAPTURE_BUFFER_LIMIT_SIZE ->
  sSweepParams_nHead st = 0 ->
  sSweepParams_nHead (sweep_from_the_past st) = nPreTrigger st /\
  forall k, 0 <= k < nPreTrigger st ->
    vSweepBuffer (sweep_from_the_past st) k =
    vCaptureBuffer st
      ((nTriggerAt st - nPreTrigger st + k) mod CAPTURE_BUFFER_LIMIT_SIZE).
Proof.
  intros Ht Hp Hh. unfold sweep_from_the_past.
  unfold CAPTURE_BUFFER_LIMIT_SIZE in *.
  destruct (Z.ltb_spec (nTriggerAt st) (nPreTrigger st)) as [Hlt|Hge].
  - unwrap.
    replace (196608 - nPreTrigger st + nTriggerAt st >=? nTriggerAt st) with true
      by (symmetry; apply Z.geb_le; lia).
    cbn [set_sSweepParams_nHead set_vSweepBuffer sSweepParams_nHead vSweepBuffer
         vCaptureBuffer nTriggerAt].
    rewrite Hh. unwrap. split; [lia|].
    intros k Hk. unfold copy.
    destruct (Z_lt_ge_dec k (nPreTrigger st - nTriggerAt st)) as [Hk1|Hk2].
    + rewrite (@copy_outside _ _ k) by lia. rewrite (@copy_inside 0 _ k) by lia.
      f_equal. Z.div_mod_to_equations. lia.
    + rewrite (@copy_inside _ _ k) by lia.
      f_equal. Z.div_mod_to_equations. lia.
  - unwrap.
    replace (nTriggerAt st - nPreTrigger st >=? nTriggerAt st) with false
      by (rewrite Z.geb_leb; symmetry; apply Z.leb_gt; lia).
    cbn [set_sSweepParams_nHead set_vSweepBuffer sSweepParams_nHead vSweepBuffer
         vCaptureBuffer nTriggerAt].
    rewrite Hh. unwrap. split; [lia|].
    intros k Hk. unfold copy. rewrite (@copy_inside _ _ k) by lia.
    f_equal. Z.div_mod_to_equations. lia.
Qed.

(** When the post-trigger window does not wrap, the first cell that
    [sweep_post] fills holds the trigger sample. *)
Lemma sweep_post_first (st : osc) :
  0 <= nTriggerAt st <= copy_tail st -> copy_tail st < 2 ^ 64 - 1 ->
  vSweepBuffer (sweep_post st) (sSweepParams_nHead st) =
  vCaptureBuffer st (nTriggerAt st).
Proof.
  intros Ht Hc. unfold sweep_post.
  replace (nTriggerAt st <=? copy_tail st) with true
    by (symmetry; apply Z.leb_le; lia).
  cbn [set_sSweepParams_nHead set_vSweepBuffer vSweepBuffer]. unfold copy.
  change (2 ^ 64) with 18446744073709551616 in Hc. unwrap.
  rewrite copy_inside by lia. f_equal. lia.
Qed.

(** When it wraps, the second [dsp::copy] starts at the same sweep cell as
    the first one: that cell ends up with [vCaptureBuffer[0]]. *)
Lemma sweep_post_wrap (st : osc) :
  0 <= copy_tail st < nTriggerAt st -> nTriggerAt st < 2 ^ 64 ->
  vSweepBuffer (sweep_post st) (sSweepParams_nHead st) = vCaptureBuffer st 0 /\
  sSweepParams_nHead (sweep_post st) =
    wrap (sSweepParams_nHead st + (copy_tail st + 1)).
Proof.
  intros Ht Hc. unfold sweep_post.
  replace (nTriggerAt st <=? copy_tail st) with false
    by (symmetry; apply Z.leb_gt; lia).
  cbn [set_sSweepParams_nHead set_vSweepBuffer set_nTriggerAt vSweepBuffer
       sSweepParams_nHead vCaptureBuffer].
  change (2 ^ 64) with 18446744073709551616 in Hc. unwrap.
  split; [|reflexivity]. unfold copy at 1.
  rewrite copy_inside by lia. f_equal. lia.
Qed.

(** ** Termination of [process] *)

(** What decides the number of iterations: the oversampling factor and the
    head of the capture ring. *)
Definition geometry (st : osc) : Z * Z := (nOversampling st, sBufferParams_nHead st).

Lemma for_loop_keeps (St A : Type) (g : St -> A) (body : nat -> St -> St)
  (k : nat) (st : St) :
  (forall n s, g (body n s) = g s) -> g (for_loop k body st) = g st.
Proof.
  intros H. induction k as [|k IH]; cbn [for_loop]; [reflexivity|].
  now rewrite H.
Qed.

Lemma trigger_iter_geometry (n : nat) (st : osc) :
  geometry (trigger_iter n st) = geometry st.
Proof.
  unfold trigger_iter, geometry. cbv zeta.
  match goal with |- context [get_trigger_state K ?t] =>
    destruct (get_trigger_state K t) end; try reflexivity.
  match goal with |- context [sweep_from_the_past ?s] =>
    destruct (sweep_from_the_past_keeps s) as (_ & _ & _ & _ & -> & -> & _) end.
  reflexivity.
Qed.

Lemma capture_geometry (st : osc) (src : list F) (to_do : Z) :
  geometry (capture st src to_do) = geometry st.
Proof. unfold capture. now destruct (upsample K _ _). Qed.

Lemma sweep_post_geometry (st : osc) : geometry (sweep_post st) = geometry st.
Proof. unfold sweep_post. now destruct (_ <=? _). Qed.

Lemma sweep_done_geometry (st : osc) : geometry (sweep_done st) = geometry st.
Proof. unfold sweep_done. now destruct (_ >=? _). Qed.

Lemma advance_head_geometry (st : osc) (to_store : Z) :
  geometry (advance_head st to_store) =
  (nOversampling st,
   wrap (sBufferParams_nHead st + to_store) mod CAPTURE_BUFFER_LIMIT_SIZE).
Proof. reflexivity. Qed.




(** ** Running the model *)

(** Modelled from the spec: the setters of [Oscilloscope.h] (sample rate,
    oversampling mode, trigger type, pre- and post-trigger in seconds), which
    store their argument for the next [update_settings]. *)
Definition configure (st : osc) (sr mode trg : Z) (pre post : F) : osc :=
  mk_osc sr (nOverSampleRate st) trg (enState st) pre post
         (nPreTrigger st) (nPostTrigger st) (fVertOffset st) (fHorOffset st)
         (nLimit st) (sSweepParams_nHead st) (bSweepComplete st)
         (sBufferParams_nHead st) (nTriggerAt st) mode (nOversampling st)
         (enOutputMode st) (vCaptureBuffer st) (vSweepBuffer st) true
         (sOver st) (sTrigger st).

Definition returned (fuel : nat) (st : osc) (src : list F) (count : Z) : bool :=
  match process_loop fuel st src count with
  | Returned _ => true
  | _ => false
  end.

Definition run (fuel : nat) (st : osc) (src : list F) (count : Z) : osc :=
  match process_loop fuel st src count with
  | Returned st' => st'
  | _ => st
  end.

End Model.

(** ** Closed instances over the integers *)

(** Modelled from the spec: a trigger detector of the kind
    [SIMPLE_RISING_EDGE], FIRED on the sample that rises above zero; its
    state is the previous sample and the state it reports. *)
Definition rising_edge (x : Z) (t : Z * trg_state_t) : Z * trg_state_t :=
  (x, if (fst t <=? 0) && (0 <? x) then TRG_STATE_FIRED else TRG_STATE_WAITING).

(** An oversampler that repeats each sample [m] times; its state is [m]. *)
Definition hold (m : Z) (l : list Z) : list Z :=
  flat_map (fun x => repeat x (Z.to_nat m)) l.

(** Collaborators to run the model with: integer samples, seconds that
    convert exactly, the trigger and the oversampler above; the mode of the
    oversampler is its factor. *)
Definition KZ : collab Z (Z * trg_state_t) Z :=
  mk_collab 0 (fun rate s => rate * s) (fun rate n => n / rate)
            (0, TRG_STATE_IDLE) rising_edge snd
            (fun _ t => t) (fun _ t => t) (fun t => t)
            1 (fun _ o => o) (fun m _ => m) (fun _ => true) (fun o => o)
            (fun o => o) (fun o l => (hold o l, o))
            0 1.

(** One sample per second, no oversampling, rising-edge trigger, [pre] and
    [post] seconds around the trigger, settings applied. *)
Definition scope (pre post : Z) : osc Z (Z * trg_state_t) Z :=
  update_settings KZ (configure (Oscilloscope KZ) 1 1 1 pre post).

(** 200 samples, negative except the one at index 50. *)
Definition pulse200 : list Z := repeat (-1) 50 ++ [1] ++ repeat (-1) 149.

(** A scope with [nPreTrigger = nPostTrigger = 2] whose capture ring has
    been filled up to its last four cells; cell [i] holds [1000 + i]. *)
Definition scope_at_ring_end : osc Z (Z * trg_state_t) Z :=
  set_sBufferParams_nHead
    (set_vCaptureBuffer (scope 2 2) (fun i => 1000 + i))
    (CAPTURE_BUFFER_LIMIT_SIZE - 4).

(** C2 (the code departs from the claim).  With two pre-trigger and two
    post-trigger samples, the four samples [-5, -3, 1, -2] fill the last
    cells of the ring and the trigger fires on the third, at cell 196606;
    the ring head wraps to 0.  The next call completes the sweep.  Its
    first two samples are the two that precede the trigger, [-5, -3]; the
    sample at offset [nPreTrigger = 2] is 1000, the old contents of cell 0
    of the ring, and not the trigger sample 1: the second copy of the
    wrapped post-trigger window starts at the same sweep cell as the
    first. *)
Theorem sweep_offset_pre_trigger_overwritten :
  let s1 := run KZ 1 scope_at_ring_end [-5; -3; 1; -2] 4 in
  let s2 := run KZ 1 s1 [7; 8] 2 in
  nPreTrigger scope_at_ring_end = 2 /\
  enState s1 = OSC_STATE_SWEEPING /\
  nTriggerAt s1 = 196606 /\
  vCaptureBuffer s1 (nTriggerAt s1) = 1 /\
  copy_tail s1 < nTriggerAt s1 /\
  bSweepComplete s2 = true /\
  map (vSweepBuffer s2) [0; 1] = [-5; -3] /\
  vSweepBuffer s2 (nPreTrigger s2) = 1000 /\
  vSweepBuffer s2 (nPreTrigger s2) <> vCaptureBuffer s1 (nTriggerAt s1).
Proof.
  cbv zeta. repeat split; try (vm_compute; reflexivity).
  vm_compute. discriminate.
Qed.

(** C5 (the code departs from the claim).  Three samples [1, -1, 1] are
    captured in one batch by a scope in ACQUIRING, with one pre-trigger and
    no post-trigger sample.  The first one fires the
    trigger and the state becomes SWEEPING with [nTriggerAt = 0]; the loop
    goes on: the second and third samples are handed to the trigger while
    the state is SWEEPING, and the third, which fires it again, is
    accepted: [nTriggerAt] moves to 2. *)
Theorem trigger_fed_and_accepted_while_sweeping :
  let s0 := capture KZ (scope 1 0) [1; -1; 1] 3 in
  let s1 := for_loop 1 (trigger_iter KZ) s0 in
  let s2 := for_loop 2 (trigger_iter KZ) s0 in
  let s3 := trigger_iter KZ 2 s2 in
  enState s0 = OSC_STATE_ACQUIRING /\
  enState s1 = OSC_STATE_SWEEPING /\ nTriggerAt s1 = 0 /\
  enState s2 = OSC_STATE_SWEEPING /\ sTrigger s2 = (-1, TRG_STATE_WAITING) /\
  sTrigger s3 = (1, TRG_STATE_FIRED) /\ nTriggerAt s3 = 2 /\
  returned KZ 1 (scope 1 0) [1; -1; 1] 3 = true /\
  nTriggerAt (run KZ 1 (scope 1 0) [1; -1; 1] 3) = 2.
Proof. cbv zeta. repeat split; vm_compute; reflexivity. Qed.

(** C7 (the code departs from the claim).  The fifth scenario of the
    specification: no oversampling, 100 pre-trigger and 100 post-trigger
    samples ([nLimit = 200]), a batch of 200 samples captured from cell 0
    with the trigger firing at cell 50.  The splice leaves the sweep head at
    100; the next call copies cells 50..150, 101 samples, so that the sweep
    buffer has received 201 samples, one more than [nLimit], when the flag
    is raised; cell 200 of the sweep buffer has been written. *)
Theorem sweep_completes_past_nLimit :
  let s1 := run KZ 1 (scope 100 100) pulse200 200 in
  let s2 := run KZ 1 s1 [-1] 1 in
  nLimit s1 = 200 /\
  enState s1 = OSC_STATE_SWEEPING /\ nTriggerAt s1 = 50 /\
  sSweepParams_nHead s1 = 100 /\ bSweepComplete s1 = false /\
  sSweepParams_nHead (sweep_post s1) = 201 /\
  returned KZ 1 s1 [-1] 1 = true /\
  bSweepComplete s2 = true /\ enState s2 = OSC_STATE_ACQUIRING /\
  vSweepBuffer (scope 100 100) 200 = 0 /\ vSweepBuffer s2 200 = -1.
Proof. cbv zeta. repeat split; vm_compute; reflexivity. Qed.

(** With the default [nPreTrigger = nPostTrigger = 0], hence [nLimit = 0],
    the splice copies the whole ring and [nLimit - 1] wraps to [2^64 - 1]:
    the sweep is not completed by the calls that follow. *)
Example sweep_with_zero_limit :
  let s1 := run KZ 1 (scope 0 0) [1] 1 in
  let s2 := run KZ 1 s1 [1] 1 in
  nLimit s1 = 0 /\ enState s1 = OSC_STATE_SWEEPING /\
  sSweepParams_nHead s1 = 196608 /\
  enState s2 = OSC_STATE_SWEEPING /\ bSweepComplete s2 = false /\
  sSweepParams_nHead s2 = 196609.
Proof. cbv zeta. repeat split; vm_compute; reflexivity. Qed.

Lemma process_division_by_zero_witness :
  0 < 1 /\ 0 <= nOversampling (Oscilloscope KZ) /\
  nOversampling (Oscilloscope KZ) = 0 /\
  snd (process KZ 1 (Oscilloscope KZ) [5] 1) = DivisionByZero _ _ _ /\
  snd (process KZ 1 (init (Oscilloscope KZ) (zeros KZ) (zeros KZ)) [5] 1)
    = DivisionByZero _ _ _ /\
  (acquiring_step KZ (Oscilloscope KZ) [5] 1 <> None
     <-> 1 <= nOversampling (Oscilloscope KZ)) /\
  (sweeping_step KZ (Oscilloscope KZ) [5] 1 <> None
     <-> 1 <= nOversampling (Oscilloscope KZ)).
Proof.
  assert (H1 : 0 < 1) by lia.
  assert (H2 : 0 <= nOversampling (Oscilloscope KZ)) by (cbn; lia).
  split; [exact H1|]. split; [exact H2|].
  exact (@process_division_by_zero Z (Z * trg_state_t) Z KZ
           (Oscilloscope KZ) [5] 1 0%nat (zeros KZ) (zeros KZ) H1 H2).
Defined.

(** A call that returns: four samples at an oversampling factor of 2. *)
Example process_returns_oversampled :
  let s := update_settings KZ (configure (Oscilloscope KZ) 1 2 1 0 0) in
  nOversampling s = 2 /\
  returned KZ 1 s [-1; -2; -3; -4] 4 = true /\
  sBufferParams_nHead (run KZ 1 s [-1; -2; -3; -4] 4) = 8 /\
  map (vCaptureBuffer (run KZ 1 s [-1; -2; -3; -4] 4)) [0; 1; 2; 3]
    = [-1; -1; -2; -2].
Proof. cbv zeta. repeat split; vm_compute; reflexivity. Qed.

End Oscilloscope.

(* ================================================================== *)
(** * Analyzer: the lengths handed to the DSP kernel *)
(* ================================================================== *)

Module AnalyzerBounds.

Import Analyzer.

Local Open Scope Z_scope.

Section Bounds.
Variable F : Type.
Variable K : collab F.

(** [dsp::mul3] and [dsp::copy] take their length as a [size_t], while
    [process] computes it as a [ssize_t]; and [vAmp] follows [vBuffer] in
    the allocation of [init] ([c->vAmp = c->vBuffer + nBufSize]).  A run of
    [n] cells of the ring from [off] on is what [copy_in] and [mul3] take it
    for when [n] is not negative and the run lies in
    [vBuffer[0 .. nBufSize)]. *)
Definition ring_run (a : analyzer F) (off n : Z) : bool :=
  (0 <=? n) && (0 <=? off) && (off + n <=? nBufSize a).

(** The runs of ring cells of one iteration of [while (samples > 0)], in
    the order of the source: the reads of the three [dsp::mul3] of the FFT
    branch, the stores of the [dsp::copy] of the append branch. *)
Definition step_in_ring (a : analyzer F) (c : channel_t F) (inp : list F) : bool :=
  let fft_size := Z.shiftl 1 (nRank a) in
  let samples := Z.of_nat (length inp) in
  let to_process := nFftPeriod a - nCounter c in
  if to_process <=? 0 then
    if negb (bFreeze c) then
      if bActive a && c_bActive c then
        (* Get the time mark to start from *)
        let offset := nHead c - nDelay c in
        let offset := if offset <? 0 then offset + nBufSize a else offset in
        (* Prepare the real buffer *)
        let count := nBufSize a - offset in
        (if count <? fft_size
         then ring_run a offset count && ring_run a 0 (fft_size - count)
         else ring_run a offset fft_size)
        (* Apply window to the temporary buffer *)
        && ring_run a 0 fft_size
      else true
    else true
  else
    (* Limit number of samples to be processed *)
    let to_process := if to_process >? samples then samples else to_process in
    let to_process := if to_process >? fft_size then fft_size else to_process in
    (* Put data to the analyzer's buffer *)
    let count := nBufSize a - nHead c in
    if count <? to_process
    then ring_run a (nHead c) count && ring_run a 0 (to_process - count)
    else ring_run a (nHead c) to_process.

(** [step_in_ring] at every iteration of the loop of [process]. *)
Fixpoint loop_in_ring (fuel : nat) (a : analyzer F) (c : channel_t F)
  (inp : list F) : bool :=
  match inp with
  | [] => true
  | _ :: _ =>
      match fuel with
      | O => true
      | S fuel' =>
          step_in_ring a c inp &&
          (let '(a, c, inp) := process_step K a c inp in
           loop_in_ring fuel' a c inp)
      end
  end.

(** [step_in_ring] at every iteration of a call of [process]. *)
Definition process_in_ring (fuel : nat) (a : analyzer F) (channel : Z)
  (inp : list F) : bool :=
  match vChannels a with
  | None => true
  | Some _ =>
      if channel >=? nChannels a then true
      else
        let a := reconfigure K a in
        match nth_error (channels_of a) (Z.to_nat channel) with
        | None => true
        | Some c => loop_in_ring fuel a c inp
        end
  end.

(** The ring holds an FFT window and the head of the channel lies in it;
    the delay lies in it as well, unless the channel takes no FFT. *)
Definition fits (a : analyzer F) (c : channel_t F) : Prop :=
  0 <= nRank a /\ Z.shiftl 1 (nRank a) <= nBufSize a /\
  0 <= nHead c <= nBufSize a /\
  (bFreeze c = true \/ bActive a && c_bActive c = false \/
   0 <= nDelay c <= nBufSize a).

Lemma ring_run_true (a : analyzer F) (off n : Z) :
  0 <= n -> 0 <= off -> off + n <= nBufSize a -> ring_run a off n = true.
Proof.
  intros H1 H2 H3. unfold ring_run.
  apply andb_true_intro. split; [apply andb_true_intro; split|]; apply Z.leb_le; lia.
Qed.

Lemma step_in_ring_fits (a : analyzer F) (c : channel_t F) (inp : list F) :
  fits a c -> step_in_ring a c inp = true.
Proof.
  intros (Hr & HN & Hh & Hd). unfold step_in_ring.
  assert (H1 : 1 <= Z.shiftl 1 (nRank a)).
  { rewrite Z.shiftl_1_l. pose proof (Z.pow_pos_nonneg 2 (nRank a)). lia. }
  assert (Hs : 0 <= Z.of_nat (length inp)) by lia.
  cbv zeta.
  destruct (Z.leb_spec (nFftPeriod a - nCounter c) 0) as [Hfft|Happ].
  - destruct (bFreeze c) eqn:Ef; cbn [negb]; [reflexivity|].
    destruct (bActive a && c_bActive c) eqn:Ea; [|reflexivity].
    destruct Hd as [Hd|[Hd|Hd]]; [discriminate|discriminate|].
    destruct (Z.ltb_spec (nHead c - nDelay c) 0);
      match goal with
      | |- context [?x <? Z.shiftl 1 (nRank a)] =>
          destruct (Z.ltb_spec x (Z.shiftl 1 (nRank a)))
      end;
      rewrite ?ring_run_true by lia; reflexivity.
  - destruct (Z.gtb_spec (nFftPeriod a - nCounter c) (Z.of_nat (length inp)));
      match goal with
      | |- context [?x >? Z.shiftl 1 (nRank a)] =>
          destruct (Z.gtb_spec x (Z.shiftl 1 (nRank a)))
      end;
      match goal with
      | |- context [?x <? ?y] => destruct (Z.ltb_spec x y)
      end;
      rewrite ?ring_run_true by lia; reflexivity.
Qed.

(** What an iteration leaves as it is. *)
Lemma process_step_frame (a : analyzer F) (c : channel_t F) (inp : list F) :
  nRank (fst (fst (process_step K a c inp))) = nRank a /\
  nBufSize (fst (fst (process_step K a c inp))) = nBufSize a /\
  bActive (fst (fst (process_step K a c inp))) = bActive a /\
  bFreeze (snd (fst (process_step K a c inp))) = bFreeze c /\
  c_bActive (snd (fst (process_step K a c inp))) = c_bActive c /\
  nDelay (snd (fst (process_step K a c inp))) = nDelay c.
Proof.
  unfold process_step. fold (append_len a c inp).
  destruct (nFftPeriod a - nCounter c <=? 0).
  - destruct (negb (bFreeze c)); [destruct (bActive a && c_bActive c)|];
      cbn; repeat split.
  - destruct (nBufSize a - nHead c <? append_len a c inp); cbn; repeat split.
Qed.

Lemma process_step_fits (a : analyzer F) (c : channel_t F) (inp : list F) :
  inp <> [] -> fits a c ->
  fits (fst (fst (process_step K a c inp))) (snd (fst (process_step K a c inp))).
Proof.
  intros Hne (Hr & HN & Hh & Hd).
  destruct (process_step_frame a c inp) as (E1 & E2 & E3 & E4 & E5 & E6).
  unfold fits. rewrite E1, E2, E3, E4, E5, E6.
  split; [exact Hr|]. split; [exact HN|]. split; [|exact Hd].
  destruct (Z_le_gt_dec (nFftPeriod a - nCounter c) 0) as [Hfft|Happ].
  - destruct (@process_step_fft F K a c inp Hfft) as (_ & _ & _ & Eh & _).
    rewrite Eh. exact Hh.
  - assert (Happ' : 0 < nFftPeriod a - nCounter c) by lia.
    destruct (@process_step_append F K a c inp Happ') as (_ & _ & _ & Eh & _).
    destruct (@append_len_bounds F a c inp Happ' Hne Hr) as (L1 & _ & _ & L4).
    rewrite Eh.
    destruct (Z.ltb_spec (nBufSize a - nHead c) (append_len a c inp)); lia.
Qed.

Lemma loop_in_ring_fits (fuel : nat) :
  forall (a : analyzer F) (c : channel_t F) (inp : list F),
    fits a c -> loop_in_ring fuel a c inp = true.
Proof.
  induction fuel as [|fuel IH]; intros a c inp Hf;
    (destruct inp as [|x inp]; [reflexivity|]); [reflexivity|].
  cbn [loop_in_ring]. rewrite (step_in_ring_fits (x :: inp) Hf). cbn [andb].
  assert (Hne : x :: inp <> []) by discriminate.
  pose proof (process_step_fits Hne Hf) as Hf'.
  destruct (process_step K a c (x :: inp)) as [[a' c'] inp'].
  cbn [fst snd] in Hf'. now apply IH.
Qed.

(** What [reconfigure] makes of channel [i]: the head and the flags stay,
    the delay stays or becomes [i] times the step of the counters. *)
Lemma reconfigure_head_delay (a : analyzer F) (i : nat) :
  exists g : channel_t F -> channel_t F,
    (forall c, nHead (g c) = nHead c /\ bFreeze (g c) = bFreeze c /\
               c_bActive (g c) = c_bActive c /\
               (nDelay (g c) = nDelay c \/
                nDelay (g c) =
                Z.of_nat i * counter_step (Z.shiftl 1 (nRank a)) (nChannels a))) /\
    nth_error (channels_of (reconfigure K a)) i
      = option_map g (nth_error (channels_of a) i).
Proof.
  unfold reconfigure.
  destruct (nReconfigure a =? 0).
  { exists (fun c => c). split; [intros; repeat split; now left|].
    now destruct (nth_error (channels_of a) i). }
  cbn [channels_of vChannels].
  destruct (has (nReconfigure a) R_COUNTERS), (has (nReconfigure a) R_ANALYSIS);
    rewrite ?nth_error_for_loop;
    repeat match goal with
    | |- context [Nat.ltb ?x ?y] => destruct (Nat.ltb x y)
    end;
    match goal with
    | |- exists g, _ /\ option_map ?f2 (option_map ?f1 ?X) = _ =>
        exists (fun c => f2 (f1 c))
    | |- exists g, _ /\ option_map ?f1 ?X = _ => exists f1
    | |- exists g, _ /\ ?X = _ => exists (fun c => c)
    end;
    (split; [intros; cbn; repeat split; (now left) || (now right)
            |now destruct (nth_error (channels_of a) i)]).
Qed.

Lemma counter_step_bound (N C i : Z) :
  0 <= N -> 0 <= i < C -> 0 <= i * counter_step N C <= N.
Proof.
  intros HN Hi. rewrite counter_step_round.
  set (q := N / C).
  assert (Hq : 0 <= q /\ C * q <= N).
  { subst q. split; [apply Z.div_pos; lia|apply Z.mul_div_le; lia]. }
  assert (Hq4 : 0 <= 4 * (q / 4) <= q) by (Z.div_mod_to_equations; lia).
  split; [apply Z.mul_nonneg_nonneg; lia|].
  transitivity (C * q); [|lia].
  transitivity (i * q); [apply Z.mul_le_mono_nonneg_l; lia|].
  apply Z.mul_le_mono_nonneg_r; lia.
Qed.

(** [reconfigure] keeps the channel within the ring. *)
Lemma reconfigure_fits (a : analyzer F) (channel : Z) (c c' : channel_t F) :
  0 <= channel < nChannels a ->
  nth_error (channels_of a) (Z.to_nat channel) = Some c ->
  nth_error (channels_of (reconfigure K a)) (Z.to_nat channel) = Some c' ->
  fits a c -> fits (reconfigure K a) c'.
Proof.
  intros Hc Ec Ec' (Hr & HN & Hh & Hd).
  destruct (reconfigure_head_delay a (Z.to_nat channel)) as (g & Hg & Eg).
  rewrite Eg, Ec in Ec'. cbn [option_map] in Ec'.
  assert (E : c' = g c) by congruence. subst c'.
  destruct (Hg c) as (Eh & Ef & Ea & Ed).
  destruct (reconfigure_conf K a) as (_ & _ & E3 & _ & E5 & _).
  assert (Eb : bActive (reconfigure K a) = bActive a).
  { unfold reconfigure. now destruct (nReconfigure a =? 0). }
  unfold fits. rewrite E3, E5, Eh, Ef, Ea, Eb.
  split; [exact Hr|]. split; [exact HN|]. split; [exact Hh|].
  destruct Hd as [Hd|[Hd|Hd]]; [now left|right; now left|].
  right; right. destruct Ed as [Ed|Ed]; rewrite Ed; [exact Hd|].
  rewrite Z2Nat.id by lia.
  pose proof (@counter_step_bound (Z.shiftl 1 (nRank a)) (nChannels a) channel) as Hb.
  assert (0 <= Z.shiftl 1 (nRank a)) by (apply Z.shiftl_nonneg; lia).
  lia.
Qed.

(** A call of [process] on a channel that fits the ring keeps every run of
    cells within the ring. *)
Lemma process_in_ring_fits (fuel : nat) (a : analyzer F) (channel : Z)
  (inp : list F) :
  0 <= channel ->
  (forall c, nth_error (channels_of a) (Z.to_nat channel) = Some c -> fits a c) ->
  process_in_ring fuel a channel inp = true.
Proof.
  intros Hc Hf. unfold process_in_ring.
  destruct (vChannels a) eqn:Ev; [|reflexivity].
  destruct (Z.geb_spec channel (nChannels a)) as [|Hlt]; [reflexivity|].
  cbv zeta.
  destruct (nth_error (channels_of (reconfigure K a)) (Z.to_nat channel))
    as [c'|] eqn:Ec'; [|reflexivity].
  destruct (reconfigure_head_delay a (Z.to_nat channel)) as (g & _ & Eg).
  destruct (nth_error (channels_of a) (Z.to_nat channel)) as [c|] eqn:Ec.
  - apply loop_in_ring_fits.
    apply (@reconfigure_fits a channel c c'); [lia|exact Ec|exact Ec'|].
    now apply Hf.
  - rewrite Eg in Ec'. discriminate.
Qed.

End Bounds.

End AnalyzerBounds.

(* ================================================================== *)
(** * Termination of the two [process] routines *)
(* ================================================================== *)

Module Termination.

Local Open Scope Z_scope.



(** One channel of rank 6 ([N = 64]) in a ring of [B = ALIGN_SIZE(12 + 8, 16)
    = 32] cells, at 64 samples per second. *)
Definition narrow : Analyzer.analyzer Z :=
  Analyzer.set_sample_rate
    (Analyzer.init Analyzer.KZ (Analyzer.construct Analyzer.KZ) 1 6 64 8) 64.

(** In a ring smaller than the FFT window the head leaves the ring: the
    wrapped [dsp::copy] of a call with 128 samples stores 64 samples from
    cell 0 of a ring of 32 cells, and the next call takes the FFT branch
    with [count = nBufSize - offset = -32]. *)
Example narrow_ring_overrun :
  Analyzer.nBufSize narrow = 32 /\ Z.shiftl 1 (Analyzer.nRank narrow) = 64 /\
  AnalyzerBounds.process_in_ring Analyzer.KZ 100 narrow 0 (Analyzer.ramp 128) = false /\
  Analyzer.nHead
    (Analyzer.channel (Analyzer.run Analyzer.KZ 100 narrow 0 (Analyzer.ramp 128)) 0)
  = 64 /\
  AnalyzerBounds.step_in_ring
    (Analyzer.run Analyzer.KZ 100 narrow 0 (Analyzer.ramp 128))
    (Analyzer.channel (Analyzer.run Analyzer.KZ 100 narrow 0 (Analyzer.ramp 128)) 0)
    [1] = false.
Proof. vm_compute. repeat split; reflexivity. Qed.

End Termination.

(* ================================================================== *)
(** * Biquad filters: streams in pieces, delay memory, x4 as a cascade *)
(* ================================================================== *)

Module BiquadStreams.

Import Biquad.

Section Streams.
Variable F : Type.
Variable fzero : F.
Variable fadd : F -> F -> F.
Variable fmul : F -> F -> F.

Local Notation "x +! y" := (fadd x y) (at level 50, left associativity).
Local Notation "x *! y" := (fmul x y) (at level 40, left associativity).
Local Notation x1 := (biquad_process_x1 fadd fmul).
Local Notation x2 := (biquad_process_x2 fadd fmul).
Local Notation x1_out := (x1_out fadd fmul).
Local Notation x1_next := (x1_next fadd fmul).

(** ** x1 on a stream cut in two *)

Lemma x1_app (l1 l2 : list F) :
  forall f : biquad_t F,
    x1 (l1 ++ l2) f =
    (fst (x1 l1 f) ++ fst (x1 l2 (snd (x1 l1 f))),
     snd (x1 l2 (snd (x1 l1 f)))).
Proof.
  induction l1 as [|x l1 IH]; intros f.
  - cbn [app biquad_process_x1 fst snd]. now destruct (x1 l2 f).
  - rewrite <- app_comm_cons, !biquad_process_x1_cons, IH.
    cbn [fst snd]. reflexivity.
Qed.

(** X1.  [biquad_process_x1] may be fed a stream in two calls: the second
    call, started with the delay memory the first one left, continues the
    output of the single call and ends with the same delay memory. *)
Theorem biquad_x1_continues (l1 l2 : list F) (f : biquad_t F) :
  let r1 := biquad_process_x1 fadd fmul l1 f in
  let r2 := biquad_process_x1 fadd fmul l2 (snd r1) in
  fst (biquad_process_x1 fadd fmul (l1 ++ l2) f) = fst r1 ++ fst r2 /\
  snd (biquad_process_x1 fadd fmul (l1 ++ l2) f) = snd r2.
Proof. cbv zeta. rewrite x1_app. split; reflexivity. Qed.

(** ** The delay memory that x1 and x2 leave *)

Lemma x1_state_fields (src : list F) :
  forall f : biquad_t F,
    x1_a (snd (x1 src f)) = x1_a f /\ x1_b (snd (x1 src f)) = x1_b f /\
    x2_a (snd (x1 src f)) = x2_a f /\ x2_b (snd (x1 src f)) = x2_b f /\
    x4_a0 (snd (x1 src f)) = x4_a0 f /\ x4_a1 (snd (x1 src f)) = x4_a1 f /\
    x4_a2 (snd (x1 src f)) = x4_a2 f /\ x4_b1 (snd (x1 src f)) = x4_b1 f /\
    x4_b2 (snd (x1 src f)) = x4_b2 f /\
    forall k, (2 <= k)%nat -> d (snd (x1 src f)) k = d f k.
Proof.
  induction src as [|x src IH]; intros f.
  - cbn. repeat split.
  - rewrite biquad_process_x1_cons. cbn [snd].
    destruct (IH (x1_next f x)) as (E1 & E2 & E3 & E4 & E5 & E6 & E7 & E8 & E9 & Ed).
    rewrite E1, E2, E3, E4, E5, E6, E7, E8, E9.
    repeat split. intros k Hk. rewrite Ed by assumption.
    destruct k as [|[|k]]; try lia. reflexivity.
Qed.

Lemma x2_both_state_fields (src : list F) :
  forall (r : F) (f : biquad_t F),
    let f' := snd (x2_both fadd fmul src r f) in
    x1_a f' = x1_a f /\ x1_b f' = x1_b f /\
    x2_a f' = x2_a f /\ x2_b f' = x2_b f /\
    x4_a0 f' = x4_a0 f /\ x4_a1 f' = x4_a1 f /\
    x4_a2 f' = x4_a2 f /\ x4_b1 f' = x4_b1 f /\ x4_b2 f' = x4_b2 f /\
    forall k, k <> 0%nat -> k <> 1%nat -> k <> 4%nat -> k <> 5%nat ->
              d f' k = d f k.
Proof.
  induction src as [|x src IH]; intros r f; cbv zeta.
  - cbn. repeat split.
  - rewrite x2_both_cons. cbn [snd].
    destruct (IH (x2_out1 fadd fmul f x) (x2_next fadd fmul f r x))
      as (E1 & E2 & E3 & E4 & E5 & E6 & E7 & E8 & E9 & Ed).
    rewrite E1, E2, E3, E4, E5, E6, E7, E8, E9.
    repeat split. intros k H0 H1 H4 H5. rewrite Ed by assumption.
    destruct k as [|[|[|[|[|[|k]]]]]]; try congruence; reflexivity.
Qed.

(** The drain of x2: the second filter alone on the carry [r]. *)
Definition x2_drain (f : biquad_t F) (r : F) : biquad_t F :=
  let r2 := x2_out2 fadd fmul f r in
  let q1 := x2_a f 6 *! r +! x2_b f 4 *! r2 in
  let q2 := x2_a f 7 *! r +! x2_b f 5 *! r2 in
  let f := set_d f 4 (d f 5 +! q1) in
  set_d f 5 q2.

Lemma biquad_process_x2_cons_state (s : F) (src : list F) (f : biquad_t F) :
  snd (x2 (s :: src) f) =
  x2_drain (snd (x2_both fadd fmul src (x2_out1 fadd fmul f s) (x2_first fadd fmul f s)))
           (snd (fst (x2_both fadd fmul src (x2_out1 fadd fmul f s)
                                 (x2_first fadd fmul f s)))).
Proof.
  unfold x2_drain, x2_first, x2_out1, x2_out2. cbn [biquad_process_x2].
  match goal with |- context [x2_both fadd fmul src ?a ?g] =>
    now destruct (x2_both fadd fmul src a g) as [[? ?] ?] end.
Qed.

Lemma pairs_drain (f fA fB : biquad_t F) (r : F) :
  pairs f fA fB -> pairs (x2_drain f r) fA (x1_next fB r).
Proof.
  intros H. unfold pairs, x2_drain, Biquad.x1_next, x2_out2, Biquad.x1_out.
  destruct H as (H1 & H2 & H3 & H4 & H5 & H6 & H7 & H8 & H9 & H10 &
                 H11 & H12 & H13 & H14).
  cbn. rewrite ?H1, ?H2, ?H3, ?H4, ?H5, ?H6, ?H7, ?H8, ?H9, ?H10,
               ?H11, ?H12, ?H13, ?H14.
  repeat split.
Qed.

Lemma x2_both_drain_state (src : list F) :
  forall (r : F) (f fA fB : biquad_t F),
    pairs f fA fB ->
    pairs (x2_drain (snd (x2_both fadd fmul src r f))
                    (snd (fst (x2_both fadd fmul src r f))))
          (snd (x1 src fA))
          (snd (x1 (r :: fst (x1 src fA)) fB)).
Proof.
  induction src as [|x src IH]; intros r f fA fB H.
  - cbn [x2_both fst snd].
    rewrite biquad_process_x1_cons. cbn [snd fst biquad_process_x1].
    now apply pairs_drain.
  - rewrite x2_both_cons, (biquad_process_x1_cons fadd fmul x src fA).
    rewrite (biquad_process_x1_cons fadd fmul r). cbn [fst snd].
    rewrite <- (pairs_out1 fadd fmul x H).
    apply IH. now apply pairs_next.
Qed.

Lemma x2_state_pairs (f fA fB : biquad_t F) (src : list F) :
  pairs f fA fB ->
  pairs (snd (x2 src f)) (snd (x1 src fA)) (snd (x1 (fst (x1 src fA)) fB)).
Proof.
  intros H. destruct src as [|x src]; [exact H|].
  rewrite biquad_process_x2_cons_state, (biquad_process_x1_cons fadd fmul x src fA).
  cbn [fst snd].
  rewrite <- (pairs_out1 fadd fmul x H).
  apply x2_both_drain_state. now apply pairs_first.
Qed.

Lemma x2_state_fields (src : list F) (f : biquad_t F) :
  let f' := snd (x2 src f) in
  x1_a f' = x1_a f /\ x1_b f' = x1_b f /\
  x2_a f' = x2_a f /\ x2_b f' = x2_b f /\
  x4_a0 f' = x4_a0 f /\ x4_a1 f' = x4_a1 f /\
  x4_a2 f' = x4_a2 f /\ x4_b1 f' = x4_b1 f /\ x4_b2 f' = x4_b2 f /\
  forall k, k <> 0%nat -> k <> 1%nat -> k <> 4%nat -> k <> 5%nat ->
            d f' k = d f k.
Proof.
  cbv zeta. destruct src as [|x src]; [cbn; repeat split|].
  rewrite biquad_process_x2_cons_state.
  destruct (x2_both_state_fields src (x2_out1 fadd fmul f x) (x2_first fadd fmul f x))
    as (E1 & E2 & E3 & E4 & E5 & E6 & E7 & E8 & E9 & Ed).
  unfold x2_drain, set_d. cbn [x1_a x1_b x2_a x2_b x4_a0 x4_a1 x4_a2 x4_b1 x4_b2 d].
  rewrite E1, E2, E3, E4, E5, E6, E7, E8, E9.
  repeat split. intros k H0 H1 H4 H5.
  destruct k as [|[|[|[|[|[|k]]]]]]; try congruence;
    cbn [upd Nat.eqb]; rewrite Ed by lia; reflexivity.
Qed.

(** X2.  [biquad_process_x1] leaves every coefficient row and every delay
    cell other than [d[0]], [d[1]] as it found them; [biquad_process_x2]
    changes nothing but [d[0]], [d[1]], [d[4]], [d[5]]. *)
Theorem biquad_x1_x2_frame (src : list F) (f : biquad_t F) :
  let f1 := snd (biquad_process_x1 fadd fmul src f) in
  let f2 := snd (biquad_process_x2 fadd fmul src f) in
  (x1_a f1 = x1_a f /\ x1_b f1 = x1_b f /\ x2_a f1 = x2_a f /\ x2_b f1 = x2_b f /\
   forall k, (2 <= k)%nat -> d f1 k = d f k) /\
  (x1_a f2 = x1_a f /\ x1_b f2 = x1_b f /\ x2_a f2 = x2_a f /\ x2_b f2 = x2_b f /\
   forall k, k <> 0%nat -> k <> 1%nat -> k <> 4%nat -> k <> 5%nat ->
             d f2 k = d f k).
Proof.
  cbv zeta. split.
  - destruct (x1_state_fields src f) as (E1 & E2 & E3 & E4 & _ & _ & _ & _ & _ & Ed).
    now repeat split.
  - destruct (x2_state_fields src f) as (E1 & E2 & E3 & E4 & _ & _ & _ & _ & _ & Ed).
    now repeat split.
Qed.

(** X3.  After [biquad_process_x2] on the cascade of [A] then [B], the
    delay cells [d[0]], [d[1]] hold what the delay memory of the x1 filter
    with [A] holds after the same input, and [d[4]], [d[5]] what that of
    the x1 filter with [B] holds after the first filter's output. *)
Theorem biquad_x2_cascade_delay_memory
  (A B : coeffs F) (dA0 dA1 dB0 dB1 : F) (src : list F) :
  let f'  := snd (biquad_process_x2 fadd fmul src
                    (x2_cascade fzero A B dA0 dA1 dB0 dB1)) in
  let rA  := biquad_process_x1 fadd fmul src (x1_filter fzero A dA0 dA1) in
  let rB  := biquad_process_x1 fadd fmul (fst rA) (x1_filter fzero B dB0 dB1) in
  d f' 0 = d (snd rA) 0 /\ d f' 1 = d (snd rA) 1 /\
  d f' 4 = d (snd rB) 0 /\ d f' 5 = d (snd rB) 1.
Proof.
  cbv zeta.
  pose proof (x2_state_pairs src (pairs_cascade fzero A B dA0 dA1 dB0 dB1)) as H.
  unfold pairs in H. tauto.
Qed.

(** The two halves of an x2 structure, each seen as an x1 filter. *)
Definition first_half (f : biquad_t F) : biquad_t F :=
  mk_biquad (d f) (x2_a f) (x2_b f)
            (x2_a f) (x2_b f) (x4_a0 f) (x4_a1 f) (x4_a2 f) (x4_b1 f) (x4_b2 f).

Definition second_half (f : biquad_t F) : biquad_t F :=
  mk_biquad (fun i => d f (4 + i)) (fun i => x2_a f (4 + i)) (fun i => x2_b f (4 + i))
            (x2_a f) (x2_b f) (x4_a0 f) (x4_a1 f) (x4_a2 f) (x4_b1 f) (x4_b2 f).

Lemma pairs_halves (f : biquad_t F) : pairs f (first_half f) (second_half f).
Proof. unfold pairs. cbn. repeat split. Qed.

(** X4.  [biquad_process_x2] may be fed a stream in two calls, whatever the
    contents of the structure: the outputs of the two calls make up the
    output of the single call, and the delay memory ends the same. *)
Theorem biquad_x2_continues (l1 l2 : list F) (f : biquad_t F) :
  let r1 := biquad_process_x2 fadd fmul l1 f in
  let r2 := biquad_process_x2 fadd fmul l2 (snd r1) in
  fst (biquad_process_x2 fadd fmul (l1 ++ l2) f) = fst r1 ++ fst r2 /\
  forall k, d (snd (biquad_process_x2 fadd fmul (l1 ++ l2) f)) k = d (snd r2) k.
Proof.
  cbv zeta.
  pose proof (pairs_halves f) as H.
  pose proof (x2_state_pairs l1 H) as H1.
  pose proof (x2_state_pairs (l1 ++ l2) H) as H12.
  pose proof (x2_state_pairs l2 H1) as H2.
  split.
  - rewrite (x2_is_x1_after_x1 fadd fmul (l1 ++ l2) H).
    rewrite (x2_is_x1_after_x1 fadd fmul l1 H).
    rewrite (x2_is_x1_after_x1 fadd fmul l2 H1).
    rewrite x1_app. cbn [fst]. rewrite x1_app. reflexivity.
  - intros k.
    rewrite x1_app in H12. cbn [fst snd] in H12. rewrite x1_app in H12.
    cbn [snd] in H12.
    destruct H12 as (_ & _ & _ & _ & _ & _ & _ & _ & _ & _ & A0 & A1 & A4 & A5).
    destruct H2 as (_ & _ & _ & _ & _ & _ & _ & _ & _ & _ & B0 & B1 & B4 & B5).
    destruct (x2_state_fields (l1 ++ l2) f) as (_ & _ & _ & _ & _ & _ & _ & _ & _ & E).
    destruct (x2_state_fields l2 (snd (x2 l1 f))) as (_ & _ & _ & _ & _ & _ & _ & _ & _ & E2).
    destruct (x2_state_fields l1 f) as (_ & _ & _ & _ & _ & _ & _ & _ & _ & E1).
    destruct (Nat.eq_dec k 0) as [->|N0]; [congruence|].
    destruct (Nat.eq_dec k 1) as [->|N1]; [congruence|].
    destruct (Nat.eq_dec k 4) as [->|N4]; [congruence|].
    destruct (Nat.eq_dec k 5) as [->|N5]; [congruence|].
    rewrite E, E2, E1 by assumption. reflexivity.
Qed.

(** ** x4 as four x1 filters in a row *)

(** Lane [k] of an x4 structure seen as an x1 filter: the coefficients
    [x4.a0[k]], [x4.a1[k]], [x4.a2[k]], [x4.b1[k]], [x4.b2[k]] and the delay
    cells [d[k]], [d[4+k]]. *)
Definition lane_filter (f : biquad_t F) (k : nat) : biquad_t F :=
  x1_filter fzero
    (mk_coeffs (x4_a0 f k) (x4_a1 f k) (x4_a2 f k) (x4_b1 f k) (x4_b2 f k))
    (d f k) (d f (4 + k)).

Definition lane_rel (k : nat) (f g : biquad_t F) : Prop :=
  d f k = d g 0 /\ d f (4 + k) = d g 1 /\
  x4_a0 f k = x1_a g 0 /\ x4_a1 f k = x1_a g 2 /\ x4_a2 f k = x1_a g 3 /\
  x4_b1 f k = x1_b g 0 /\ x4_b2 f k = x1_b g 1.

Definition lanes_rel (f : biquad_t F) (G : nat -> biquad_t F) : Prop :=
  lane_rel 0 f (G 0) /\ lane_rel 1 f (G 1) /\
  lane_rel 2 f (G 2) /\ lane_rel 3 f (G 3).

Definition updG (G : nat -> biquad_t F) (k : nat) (g : biquad_t F)
  : nat -> biquad_t F :=
  fun j => if Nat.eqb j k then g else G j.

Lemma lanes_rel_filters (f : biquad_t F) : lanes_rel f (lane_filter f).
Proof. unfold lanes_rel, lane_rel. cbn. repeat split. Qed.

Ltac use_lanes H :=
  destruct H as ((?&?&?&?&?&?&?) & (?&?&?&?&?&?&?) &
                 (?&?&?&?&?&?&?) & (?&?&?&?&?&?&?));
  repeat match goal with E : @eq F _ _ |- _ => rewrite ?E; clear E end.

Lemma lane_step (k : nat) (s s2 : arr F) (f : biquad_t F) (G : nat -> biquad_t F) :
  (k < 4)%nat -> lanes_rel f G ->
  fst (lane fadd fmul (x4_view F) 4 k s s2 f) = upd s2 k (x1_out (G k) (s k)) /\
  lanes_rel (snd (lane fadd fmul (x4_view F) 4 k s s2 f))
            (updG G k (x1_next (G k) (s k))).
Proof.
  intros Hk H.
  destruct k as [|[|[|[|k]]]]; try lia;
    unfold lane, lanes_rel, lane_rel, updG, Biquad.x1_out, Biquad.x1_next in *;
    cbn in *; use_lanes H; repeat split.
Qed.

Lemma all_lanes_step (x : F) (s s2 : arr F) (f : biquad_t F) (G : nat -> biquad_t F) :
  lanes_rel f G ->
  let r := all_lanes fadd fmul (x4_view F) 4 x s s2 f in
  fst (fst (fst r)) = x1_out (G 3) (s 3) /\
  snd (fst (fst r)) 1%nat = x1_out (G 0) x /\
  snd (fst (fst r)) 2%nat = x1_out (G 1) (s 1%nat) /\
  snd (fst (fst r)) 3%nat = x1_out (G 2) (s 2%nat) /\
  lanes_rel (snd r) (fun k => x1_next (G k) (upd s 0 x k)).
Proof.
  intros H.
  unfold all_lanes, shift_buffer, lanes_rel, lane_rel, Biquad.x1_out,
    Biquad.x1_next in *.
  cbn in *. use_lanes H. repeat split.
Qed.

Lemma lane_if_on (V : view F) (bank k : nat) (mask bit : Z)
  (s s2 : arr F) (f : biquad_t F) :
  Z.land mask bit <> 0%Z ->
  lane_if fadd fmul V bank k mask bit s s2 f = lane fadd fmul V bank k s s2 f.
Proof.
  intros H. unfold lane_if. now destruct (Z.eqb_spec (Z.land mask bit) 0).
Qed.

Lemma lane_if_off (V : view F) (bank k : nat) (mask bit : Z)
  (s s2 : arr F) (f : biquad_t F) :
  Z.land mask bit = 0%Z ->
  lane_if fadd fmul V bank k mask bit s s2 f = (s2, f).
Proof. intros H. unfold lane_if. now rewrite H. Qed.

(** The four filters as the loops run them: filter [k + 1] is fed the
    register [s[k + 1]] and then the output of filter [k]. *)
Definition run0 (src : list F) (G : nat -> biquad_t F) := x1 src (G 0%nat).
Definition run1 (s : arr F) (src : list F) (G : nat -> biquad_t F) :=
  x1 (s 1%nat :: fst (run0 src G)) (G 1%nat).
Definition run2 (s : arr F) (src : list F) (G : nat -> biquad_t F) :=
  x1 (s 2%nat :: fst (run1 s src G)) (G 2%nat).
Definition run3 (s : arr F) (src : list F) (G : nat -> biquad_t F) :=
  x1 (s 3%nat :: fst (run2 s src G)) (G 3%nat).

Definition runs (s : arr F) (src : list F) (G : nat -> biquad_t F)
  : nat -> biquad_t F :=
  fun k => match k with
           | 0%nat => snd (run0 src G)
           | 1%nat => snd (run1 s src G)
           | 2%nat => snd (run2 s src G)
           | _ => snd (run3 s src G)
           end.

(** The four filters one after the other. *)
Definition casc0 (src : list F) (G : nat -> biquad_t F) := x1 src (G 0%nat).
Definition casc1 (src : list F) (G : nat -> biquad_t F) :=
  x1 (fst (casc0 src G)) (G 1%nat).
Definition casc2 (src : list F) (G : nat -> biquad_t F) :=
  x1 (fst (casc1 src G)) (G 2%nat).
Definition casc3 (src : list F) (G : nat -> biquad_t F) :=
  x1 (fst (casc2 src G)) (G 3%nat).

Definition cascs (src : list F) (G : nat -> biquad_t F) : nat -> biquad_t F :=
  fun k => match k with
           | 0%nat => snd (casc0 src G)
           | 1%nat => snd (casc1 src G)
           | 2%nat => snd (casc2 src G)
           | _ => snd (casc3 src G)
           end.

Ltac unroll_x1 :=
  repeat (rewrite biquad_process_x1_cons; cbn [fst snd]).

Lemma runs_cons (x : F) (src : list F) (s s' : arr F) (G G' : nat -> biquad_t F) :
  s' 1%nat = x1_out (G 0%nat) x ->
  s' 2%nat = x1_out (G 1%nat) (s 1%nat) ->
  s' 3%nat = x1_out (G 2%nat) (s 2%nat) ->
  G' 0%nat = x1_next (G 0%nat) x ->
  G' 1%nat = x1_next (G 1%nat) (s 1%nat) ->
  G' 2%nat = x1_next (G 2%nat) (s 2%nat) ->
  G' 3%nat = x1_next (G 3%nat) (s 3%nat) ->
  fst (run3 s (x :: src) G) = x1_out (G 3%nat) (s 3%nat) :: fst (run3 s' src G') /\
  snd (run0 (x :: src) G) = snd (run0 src G') /\
  snd (run1 s (x :: src) G) = snd (run1 s' src G') /\
  snd (run2 s (x :: src) G) = snd (run2 s' src G') /\
  snd (run3 s (x :: src) G) = snd (run3 s' src G').
Proof.
  intros E1 E2 E3 F0 F1 F2 F3.
  unfold run3, run2, run1, run0. rewrite E1, E2, E3, F0, F1, F2, F3.
  unroll_x1. repeat split.
Qed.

(** The steady state followed by the finish loop entered with all of
    filters 1 to 3 running. *)
Definition x4_tail (src : list F) (s s2 : arr F) (f : biquad_t F)
  : option (list F * (arr F * arr F * biquad_t F)) :=
  let '(dst1, (s, s2, f)) := x4_main fadd fmul (x4_view F) 4 src s s2 f in
  match x4_finish fadd fmul (x4_view F) 4 finish_fuel s s2 14 f with
  | Some (dst2, r) => Some (dst1 ++ dst2, r)
  | None => None
  end.

Lemma x4_tail_cons (x : F) (src : list F) (s s2 : arr F) (f : biquad_t F) :
  x4_tail (x :: src) s s2 f =
  let r := all_lanes fadd fmul (x4_view F) 4 x s s2 f in
  match x4_tail src (snd (fst (fst r))) (snd (fst r)) (snd r) with
  | Some (dst, r') => Some (fst (fst (fst r)) :: dst, r')
  | None => None
  end.
Proof.
  unfold x4_tail. cbn [x4_main].
  destruct (all_lanes fadd fmul (x4_view F) 4 x s s2 f) as [[[o s'] s2'] f'].
  cbn [fst snd].
  destruct (x4_main fadd fmul (x4_view F) 4 src s' s2' f') as [dst1 [[s'' s2''] f'']].
  destruct (x4_finish fadd fmul (x4_view F) 4 finish_fuel s'' s2'' 14 f'')
    as [[dst2 r]|]; reflexivity.
Qed.

Ltac lane_masks :=
  repeat first
    [ rewrite lane_if_on by (vm_compute; discriminate)
    | rewrite lane_if_off by (vm_compute; reflexivity) ].

Ltac exec_lane :=
  lane_masks;
  match goal with
  | Hrel : lanes_rel ?f ?G
    |- context [lane fadd fmul (x4_view F) 4 ?k ?s ?s2 ?f] =>
      let Hs := fresh "Hs" in
      let Hr := fresh "Hr" in
      let s2n := fresh "s2n" in
      let fn := fresh "fn" in
      destruct (@lane_step k s s2 f G ltac:(lia) Hrel) as [Hs Hr];
      destruct (lane fadd fmul (x4_view F) 4 k s s2 f) as [s2n fn];
      cbn [fst snd] in Hs, Hr; subst s2n; clear Hrel;
      cbn [updG upd shift_buffer Nat.eqb] in *
  end.

Ltac exec_mask :=
  match goal with
  | |- context [(?m =? 0)%Z] =>
      let b := eval vm_compute in (m =? 0)%Z in
      change (m =? 0)%Z with b; cbv iota
  end.

Lemma x4_finish_spec (s s2 : arr F) (f : biquad_t F) (G : nat -> biquad_t F) :
  lanes_rel f G ->
  exists r,
    x4_finish fadd fmul (x4_view F) 4 finish_fuel s s2 14 f
      = Some (fst (run3 s [] G), r) /\
    lanes_rel (snd r) (runs s [] G).
Proof.
  intros H. unfold finish_fuel. cbn [x4_finish].
  exec_lane. exec_lane. exec_lane. exec_mask.
  exec_lane. exec_lane. exec_mask.
  exec_lane. exec_mask.
  eexists. split.
  - unfold run3, run2, run1, run0. cbn [biquad_process_x1 fst]. unroll_x1.
    reflexivity.
  - cbn [snd]. unfold lanes_rel, runs, run3, run2, run1, run0.
    cbn [biquad_process_x1 fst]. unroll_x1.
    match goal with Hr : lanes_rel _ _ |- _ => exact Hr end.
Qed.

Lemma x4_tail_spec (src : list F) :
  forall (s s2 : arr F) (f : biquad_t F) (G : nat -> biquad_t F),
    lanes_rel f G ->
    exists r,
      x4_tail src s s2 f = Some (fst (run3 s src G), r) /\
      lanes_rel (snd r) (runs s src G).
Proof.
  induction src as [|x src IH]; intros s s2 f G H.
  - unfold x4_tail. cbn [x4_main].
    destruct (x4_finish_spec s s2 H) as (r & E & Hr).
    rewrite E. exists r. split; [reflexivity|exact Hr].
  - rewrite x4_tail_cons. cbv zeta.
    destruct (all_lanes_step x s s2 H) as (Eo & E1 & E2 & E3 & H').
    destruct (all_lanes fadd fmul (x4_view F) 4 x s s2 f) as [[[o s'] s2'] f'].
    cbn [fst snd] in *. subst o.
    destruct (IH s' s2' f' _ H') as (r & E & Hr).
    rewrite E. exists r.
    destruct (@runs_cons x src s s' G (fun k => x1_next (G k) (upd s 0 x k))
                E1 E2 E3 eq_refl eq_refl eq_refl eq_refl)
      as (R3 & S0 & S1 & S2 & S3).
    split.
    + now rewrite R3.
    + unfold lanes_rel, runs in *. rewrite S0, S1, S2, S3. exact Hr.
Qed.

Lemma x4_start_three (a b c : F) (rest : list F) (f : biquad_t F)
  (G : nat -> biquad_t F) :
  lanes_rel f G ->
  exists s1 s2' f1 G1,
    x4_start fadd fmul (x4_view F) 4 0 (a :: b :: c :: rest)
             (nil_arr fzero) (nil_arr fzero) 0 f
      = (rest, (s1, s2', 14%Z, f1)) /\
    lanes_rel f1 G1 /\
    fst (run3 s1 rest G1) = fst (casc3 (a :: b :: c :: rest) G) /\
    snd (run0 rest G1) = snd (casc0 (a :: b :: c :: rest) G) /\
    snd (run1 s1 rest G1) = snd (casc1 (a :: b :: c :: rest) G) /\
    snd (run2 s1 rest G1) = snd (casc2 (a :: b :: c :: rest) G) /\
    snd (run3 s1 rest G1) = snd (casc3 (a :: b :: c :: rest) G).
Proof.
  intros H.
  destruct rest as [|x rest]; cbn [x4_start Nat.ltb Nat.leb];
    exec_lane; exec_lane; exec_lane; exec_lane; exec_lane; exec_lane;
    (do 4 eexists; split; [reflexivity|]; split; [eassumption|]);
    unfold run3, run2, run1, run0, casc3, casc2, casc1, casc0;
    cbn [updG upd shift_buffer Nat.eqb]; unroll_x1; repeat split.
Qed.

Lemma x4_cascade_core (f : biquad_t F) (G : nat -> biquad_t F) (src : list F) :
  lanes_rel f G -> (3 <= length src)%nat ->
  exists f',
    biquad_process_x4 fzero fadd fmul src f = Some (fst (casc3 src G), f') /\
    lanes_rel f' (cascs src G).
Proof.
  intros H Hlen.
  destruct src as [|a [|b [|c rest]]]; cbn [length] in Hlen; try lia.
  destruct (x4_start_three a b c rest H)
    as (s1 & s2' & f1 & G1 & E & H1 & R3 & S0 & S1 & S2 & S3).
  destruct (x4_tail_spec rest s1 s2' H1) as (r & Et & Hr).
  unfold biquad_process_x4, x4_pass. rewrite E. cbv beta iota.
  unfold x4_tail in Et. rewrite Et.
  destruct r as [[s'' s2''] f'']. exists f''. split.
  - now rewrite R3.
  - unfold lanes_rel, cascs, runs in *. cbn [snd] in Hr.
    rewrite <- S0, <- S1, <- S2, <- S3. exact Hr.
Qed.

Lemma cascs_app (l1 l2 : list F) (G : nat -> biquad_t F) :
  fst (casc3 (l1 ++ l2) G) = fst (casc3 l1 G) ++ fst (casc3 l2 (cascs l1 G)) /\
  snd (casc0 (l1 ++ l2) G) = snd (casc0 l2 (cascs l1 G)) /\
  snd (casc1 (l1 ++ l2) G) = snd (casc1 l2 (cascs l1 G)) /\
  snd (casc2 (l1 ++ l2) G) = snd (casc2 l2 (cascs l1 G)) /\
  snd (casc3 (l1 ++ l2) G) = snd (casc3 l2 (cascs l1 G)).
Proof.
  unfold casc3, casc2, casc1, casc0, cascs.
  unfold casc3, casc2, casc1, casc0.
  repeat (rewrite x1_app; cbn [fst snd]). repeat split.
Qed.

(** X5.  With at least three samples, [biquad_process_x4] returns what four
    x1 filters in a row return, filter [k] having the coefficients of
    lane [k] ([x4.a0[k]], [x4.a1[k]], [x4.a2[k]], [x4.b1[k]], [x4.b2[k]])
    and the delay memory [d[k]], [d[4 + k]]; and it leaves in [d[k]],
    [d[4 + k]] the delay memory filter [k] ends with. *)
Theorem biquad_x4_is_four_x1 (f : biquad_t F) (src : list F) :
  (3 <= length src)%nat ->
  let r0 := biquad_process_x1 fadd fmul src (lane_filter f 0) in
  let r1 := biquad_process_x1 fadd fmul (fst r0) (lane_filter f 1) in
  let r2 := biquad_process_x1 fadd fmul (fst r1) (lane_filter f 2) in
  let r3 := biquad_process_x1 fadd fmul (fst r2) (lane_filter f 3) in
  exists f',
    biquad_process_x4 fzero fadd fmul src f = Some (fst r3, f') /\
    (d f' 0 = d (snd r0) 0 /\ d f' 4 = d (snd r0) 1) /\
    (d f' 1 = d (snd r1) 0 /\ d f' 5 = d (snd r1) 1) /\
    (d f' 2 = d (snd r2) 0 /\ d f' 6 = d (snd r2) 1) /\
    (d f' 3 = d (snd r3) 0 /\ d f' 7 = d (snd r3) 1).
Proof.
  intros Hlen. cbv zeta.
  destruct (x4_cascade_core src (lanes_rel_filters f) Hlen) as (f' & E & H).
  exists f'. split; [exact E|].
  unfold lanes_rel, lane_rel, cascs, casc3, casc2, casc1, casc0 in H.
  cbn [Nat.add] in H. tauto.
Qed.

(** X6.  [biquad_process_x4] may be fed a stream in two calls of at least
    three samples each: the outputs of the two calls make up the output of
    the single call, and the sixteen-cell delay memory ends the same in its
    first eight cells, the ones the routine uses. *)
Theorem biquad_x4_continues (l1 l2 : list F) (f : biquad_t F) :
  (3 <= length l1)%nat -> (3 <= length l2)%nat ->
  exists dst1 f1 dst2 f2 f12,
    biquad_process_x4 fzero fadd fmul l1 f = Some (dst1, f1) /\
    biquad_process_x4 fzero fadd fmul l2 f1 = Some (dst2, f2) /\
    biquad_process_x4 fzero fadd fmul (l1 ++ l2) f = Some (dst1 ++ dst2, f12) /\
    forall k, (k < 8)%nat -> d f12 k = d f2 k.
Proof.
  intros L1 L2.
  assert (L12 : (3 <= length (l1 ++ l2))%nat) by (rewrite length_app; lia).
  pose proof (lanes_rel_filters f) as H.
  destruct (x4_cascade_core l1 H L1) as (f1 & E1 & H1).
  destruct (x4_cascade_core l2 H1 L2) as (f2 & E2 & H2).
  destruct (x4_cascade_core (l1 ++ l2) H L12) as (f12 & E12 & H12).
  destruct (cascs_app l1 l2 (lane_filter f)) as (A3 & S0 & S1 & S2 & S3).
  exists (fst (casc3 l1 (lane_filter f))), f1,
         (fst (casc3 l2 (cascs l1 (lane_filter f)))), f2, f12.
  split; [exact E1|]. split; [exact E2|]. split; [now rewrite <- A3|].
  unfold lanes_rel, lane_rel, cascs in H2, H12. cbn [Nat.add] in H2, H12.
  rewrite S0, S1, S2, S3 in H12. unfold cascs in H12.
  intros k Hk.
  destruct k as [|[|[|[|[|[|[|[|k]]]]]]]]; try lia;
    decompose [and] H2; decompose [and] H12; congruence.
Qed.

(** X7.  [biquad_process_x4] and [biquad_process_x8] return on every input,
    whatever the structure holds and whatever [bq] reads: the finish loop
    always leaves.  They store nothing for [count = 0] and the larger of
    [count] and 3 samples otherwise. *)
Theorem biquad_x4_x8_return (bq : nat -> view F) (inplace : bool)
  (src : list F) (f : biquad_t F) :
  let stores := match src with [] => 0%nat | _ :: _ => Nat.max (length src) 3 end in
  (exists dst f', biquad_process_x4 fzero fadd fmul src f = Some (dst, f') /\
                  length dst = stores) /\
  (exists dst f', biquad_process_x8 fzero fadd fmul bq inplace src f = Some (dst, f') /\
                  length dst = stores).
Proof.
  cbv zeta. destruct src as [|x src].
  - split; exists [], f; split; reflexivity.
  - split.
    + apply biquad_process_x4_length. discriminate.
    + apply biquad_process_x8_length. discriminate.
Qed.

(** ** The two passes of x8 *)

Lemma stored_over (old w : list F) :
  (length old <= length w)%nat -> stored old w = w.
Proof.
  intros H. unfold stored. rewrite skipn_all2 by lia. apply app_nil_r.
Qed.

(** X8.  [biquad_process_x8] is its second pass: both passes store from
    [dst] on, so what the call leaves in [dst] is what the second pass
    stores.  The second pass carries on with the registers and the
    structure the first one left; it reads the input itself when [dst] and
    [src] are different buffers, and the first [count] samples stored by
    the first pass when they are the same buffer. *)
Theorem biquad_x8_is_second_pass (bq : nat -> view F) (inplace : bool)
  (src : list F) (f : biquad_t F) :
  src <> [] ->
  exists dst0 s s2 f0 dst1 s' s2' f1,
    x4_pass fadd fmul (bq 0%nat) 8 src (nil_arr fzero) (nil_arr fzero) f
      = Some (dst0, (s, s2, f0)) /\
    x4_pass fadd fmul (bq 1%nat) 8
            (if inplace then firstn (length src) dst0 else src) s s2 f0
      = Some (dst1, (s', s2', f1)) /\
    biquad_process_x8 fzero fadd fmul bq inplace src f = Some (dst1, f1).
Proof.
  intros Hne. unfold biquad_process_x8.
  destruct (x4_pass_length fzero fadd fmul (bq 0%nat) 8 (nil_arr fzero) (nil_arr fzero)
              f Hne) as (dst0 & [[s s2] f0] & E0 & L0).
  destruct src as [|x src]; [congruence|]. rewrite E0.
  assert (Es : stored (x :: src) dst0 = dst0) by (apply stored_over; lia).
  rewrite Es.
  set (src1 := if inplace then _ else _).
  assert (Hlen : length src1 = length (x :: src)).
  { subst src1. destruct inplace; [|reflexivity]. rewrite length_firstn. lia. }
  assert (Hne1 : src1 <> []) by (destruct src1; [discriminate|congruence]).
  destruct (x4_pass_length fzero fadd fmul (bq 1%nat) 8 s s2 f0 Hne1)
    as (dst1 & [[s' s2'] f1] & E1 & L1).
  rewrite E1.
  exists dst0, s, s2, f0, dst1, s', s2', f1.
  split; [reflexivity|]. split; [exact E1|].
  rewrite stored_over by lia. reflexivity.
Qed.

End Streams.

(** ** Closed instances over the integers *)

(** Four different sections and a delay memory that is not cleared. *)
Definition quad4 : biquad_t Z :=
  mk_biquad (fun i => Z.of_nat i)
            (fun _ => 0%Z) (fun _ => 0%Z) (fun _ => 0%Z) (fun _ => 0%Z)
            (fun k => (1 + Z.of_nat k)%Z) (fun k => (2 - Z.of_nat k)%Z)
            (fun k => Z.of_nat k) (fun _ => (-1)%Z) (fun k => (3 * Z.of_nat k)%Z).

Lemma biquad_x4_is_four_x1_witness :
  (3 <= length [5; 6; 7; 8; 9]%Z)%nat /\
  exists f',
    biquad_process_x4 0%Z Z.add Z.mul [5; 6; 7; 8; 9]%Z quad4
    = Some (fst (biquad_process_x1 Z.add Z.mul
              (fst (biquad_process_x1 Z.add Z.mul
                 (fst (biquad_process_x1 Z.add Z.mul
                    (fst (biquad_process_x1 Z.add Z.mul [5; 6; 7; 8; 9]%Z
                            (lane_filter 0%Z quad4 0)))
                    (lane_filter 0%Z quad4 1)))
                 (lane_filter 0%Z quad4 2)))
              (lane_filter 0%Z quad4 3)), f').
Proof.
  assert (H : (3 <= length [5; 6; 7; 8; 9]%Z)%nat) by (cbn; lia).
  split; [exact H|].
  destruct (@biquad_x4_is_four_x1 Z 0%Z Z.add Z.mul quad4 [5; 6; 7; 8; 9]%Z H)
    as (f' & E & _).
  exists f'. exact E.
Defined.

Lemma biquad_x4_continues_witness :
  (3 <= length [5; 6; 7]%Z)%nat /\ (3 <= length [8; 9; 10; 11]%Z)%nat /\
  exists dst1 f1 dst2 f2 f12,
    biquad_process_x4 0%Z Z.add Z.mul [5; 6; 7]%Z quad4 = Some (dst1, f1) /\
    biquad_process_x4 0%Z Z.add Z.mul [8; 9; 10; 11]%Z f1 = Some (dst2, f2) /\
    biquad_process_x4 0%Z Z.add Z.mul ([5; 6; 7] ++ [8; 9; 10; 11])%Z quad4
      = Some (dst1 ++ dst2, f12) /\
    forall k, (k < 8)%nat -> d f12 k = d f2 k.
Proof.
  assert (H1 : (3 <= length [5; 6; 7]%Z)%nat) by (cbn; lia).
  assert (H2 : (3 <= length [8; 9; 10; 11]%Z)%nat) by (cbn; lia).
  split; [exact H1|]. split; [exact H2|].
  exact (@biquad_x4_continues Z 0%Z Z.add Z.mul _ _ quad4 H1 H2).
Defined.

(** Both passes reading the x4 rows. *)
Definition bq_x4 : nat -> view Z := fun _ => x4_view Z.

Lemma biquad_x8_is_second_pass_witness :
  [5; 6; 7; 8]%Z <> [] /\
  exists dst0 s s2 f0 dst1 s' s2' f1,
    x4_pass Z.add Z.mul (bq_x4 0) 8 [5; 6; 7; 8]%Z (nil_arr 0%Z) (nil_arr 0%Z) quad4
      = Some (dst0, (s, s2, f0)) /\
    x4_pass Z.add Z.mul (bq_x4 1) 8
            (if true then firstn (length [5; 6; 7; 8]%Z) dst0 else [5; 6; 7; 8]%Z)
            s s2 f0
      = Some (dst1, (s', s2', f1)) /\
    biquad_process_x8 0%Z Z.add Z.mul bq_x4 true [5; 6; 7; 8]%Z quad4
      = Some (dst1, f1).
Proof.
  assert (H : [5; 6; 7; 8]%Z <> []) by discriminate.
  split; [exact H|].
  exact (@biquad_x8_is_second_pass Z 0%Z Z.add Z.mul bq_x4 true [5; 6; 7; 8]%Z
           quad4 H).
Defined.

(** The same stream cut after two samples: the second call starts from zeroed
    registers while the first has stored three samples, and the pieces no
    longer make up the output of the single call. *)
Example x4_short_piece_differs :
  option_map fst (biquad_process_x4 0%Z Z.add Z.mul [5; 6; 7; 8; 9]%Z quad4)
  <> match biquad_process_x4 0%Z Z.add Z.mul [5; 6]%Z quad4 with
     | Some (dst1, f1) =>
         option_map (fun r => dst1 ++ fst r)
                    (biquad_process_x4 0%Z Z.add Z.mul [7; 8; 9]%Z f1)
     | None => None
     end.
Proof. vm_compute. discriminate. Qed.

End BiquadStreams.

(* ================================================================== *)
(** * Analyzer: the ring of a channel, frozen channels, the read paths *)
(* ================================================================== *)

Module AnalyzerData.

Import Analyzer.

Local Open Scope Z_scope.

Section Ring.
Variable F : Type.
Variable K : collab F.

(** ** What [reconfigure] leaves of a channel *)

Lemma reconfigure_channel (a : analyzer F) (i : nat) :
  exists g : channel_t F -> channel_t F,
    (forall c, vBuffer (g c) = vBuffer c /\ nHead (g c) = nHead c /\
               bFreeze (g c) = bFreeze c /\ c_bActive (g c) = c_bActive c /\
               (has (nReconfigure a) R_ANALYSIS = false -> vAmp (g c) = vAmp c)) /\
    nth_error (channels_of (reconfigure K a)) i
      = option_map g (nth_error (channels_of a) i).
Proof.
  unfold reconfigure.
  destruct (nReconfigure a =? 0).
  { exists (fun c => c). split; [now repeat split|].
    now destruct (nth_error (channels_of a) i). }
  cbn [channels_of vChannels].
  destruct (has (nReconfigure a) R_COUNTERS), (has (nReconfigure a) R_ANALYSIS);
    rewrite ?nth_error_for_loop;
    repeat match goal with
    | |- context [Nat.ltb ?x ?y] => destruct (Nat.ltb x y)
    end;
    match goal with
    | |- exists g, _ /\ option_map ?f2 (option_map ?f1 ?X) = _ =>
        exists (fun c => f2 (f1 c))
    | |- exists g, _ /\ option_map ?f1 ?X = _ => exists f1
    | |- exists g, _ /\ ?X = _ => exists (fun c => c)
    end;
    (split; [intros; cbn; repeat split; intros; congruence
            |now destruct (nth_error (channels_of a) i)]).
Qed.

(** ** One iteration of the loop of [process] and the ring *)

Lemma ring_pos (h j B : Z) :
  0 <= h <= B -> 0 <= j < B ->
  (h + j) mod B = if h + j <? B then h + j else h + j - B.
Proof.
  intros Hh Hj. destruct (Z.ltb_spec (h + j) B).
  - apply Z.mod_small. lia.
  - symmetry. apply (Z.mod_unique (h + j) B 1); lia.
Qed.

Lemma process_step_fft_channel (a : analyzer F) (c : channel_t F) (inp : list F) :
  nFftPeriod a - nCounter c <= 0 ->
  vBuffer (snd (fst (process_step K a c inp))) = vBuffer c /\
  bFreeze (snd (fst (process_step K a c inp))) = bFreeze c /\
  (bFreeze c = true -> vAmp (snd (fst (process_step K a c inp))) = vAmp c).
Proof.
  intros H. unfold process_step.
  replace (nFftPeriod a - nCounter c <=? 0) with true
    by (symmetry; apply Z.leb_le; lia).
  destruct (bFreeze c) eqn:Ef; cbn [negb];
    [|destruct (bActive a && c_bActive c)]; cbn; repeat split; intros; congruence.
Qed.

Lemma process_step_append_channel (a : analyzer F) (c : channel_t F) (inp : list F) :
  0 < nFftPeriod a - nCounter c ->
  bFreeze (snd (fst (process_step K a c inp))) = bFreeze c /\
  vAmp (snd (fst (process_step K a c inp))) = vAmp c.
Proof.
  intros H. unfold process_step. fold (append_len a c inp).
  replace (nFftPeriod a - nCounter c <=? 0) with false
    by (symmetry; apply Z.leb_gt; lia).
  destruct (nBufSize a - nHead c <? append_len a c inp); cbn; repeat split.
Qed.

Ltac cmp :=
  repeat match goal with
  | |- context [?x <=? ?y] => destruct (Z.leb_spec x y)
  | |- context [?x <? ?y] => destruct (Z.ltb_spec x y)
  end; cbn [andb]; try lia.

(** The cells the append branch stores to, and what it stores. *)
Lemma process_step_append_stores (a : analyzer F) (c : channel_t F) (inp : list F)
  (j : Z) :
  0 < nFftPeriod a - nCounter c ->
  0 <= nHead c <= nBufSize a ->
  append_len a c inp <= nBufSize a ->
  0 <= j < append_len a c inp ->
  vBuffer (snd (fst (process_step K a c inp))) ((nHead c + j) mod nBufSize a)
  = nth (Z.to_nat j) inp (fzero K).
Proof.
  intros H Hh Hn Hj. unfold process_step. fold (append_len a c inp).
  replace (nFftPeriod a - nCounter c <=? 0) with false
    by (symmetry; apply Z.leb_gt; lia).
  rewrite ring_pos by lia.
  destruct (Z.ltb_spec (nBufSize a - nHead c) (append_len a c inp));
    cbn [fst snd vBuffer]; unfold copy_in, within;
    destruct (Z.ltb_spec (nHead c + j) (nBufSize a)); cmp; f_equal; lia.
Qed.

Lemma process_step_append_keeps (a : analyzer F) (c : channel_t F) (inp : list F)
  (i : Z) :
  0 < nFftPeriod a - nCounter c ->
  0 <= nHead c <= nBufSize a ->
  append_len a c inp <= nBufSize a ->
  0 <= i < nBufSize a ->
  (forall j, 0 <= j < append_len a c inp -> i <> (nHead c + j) mod nBufSize a) ->
  vBuffer (snd (fst (process_step K a c inp))) i = vBuffer c i.
Proof.
  intros H Hh Hn Hi Hj. unfold process_step. fold (append_len a c inp).
  replace (nFftPeriod a - nCounter c <=? 0) with false
    by (symmetry; apply Z.leb_gt; lia).
  assert (Hlo : forall j, 0 <= j < append_len a c inp ->
                          nHead c + j < nBufSize a -> i <> nHead c + j).
  { intros j J1 J2. specialize (Hj j J1). rewrite ring_pos in Hj by lia.
    destruct (Z.ltb_spec (nHead c + j) (nBufSize a)); lia. }
  assert (Hhi : forall j, 0 <= j < append_len a c inp ->
                          nBufSize a <= nHead c + j -> i <> nHead c + j - nBufSize a).
  { intros j J1 J2. specialize (Hj j J1). rewrite ring_pos in Hj by lia.
    destruct (Z.ltb_spec (nHead c + j) (nBufSize a)); lia. }
  destruct (Z.ltb_spec (nBufSize a - nHead c) (append_len a c inp));
    cbn [fst snd vBuffer]; unfold copy_in, within; cmp;
    try reflexivity; exfalso;
    pose proof (Hlo (i - nHead c));
    pose proof (Hhi (i + nBufSize a - nHead c)); lia.
Qed.

(** ** The loop of [process] and the ring *)

Lemma ring_distinct (h j1 j2 B : Z) :
  0 <= j1 < j2 -> j2 < B -> (h + j1) mod B <> (h + j2) mod B.
Proof.
  intros H1 H2 E.
  assert (E' : (h + j2 - (h + j1)) mod B = 0).
  { rewrite Zminus_mod, E, Z.sub_diag. apply Z.mod_0_l. lia. }
  replace (h + j2 - (h + j1)) with (j2 - j1) in E' by lia.
  rewrite Z.mod_small in E' by lia. lia.
Qed.

Lemma ring_shift (h h1 n j B : Z) :
  0 < B -> h1 mod B = (h + n) mod B -> (h1 + j) mod B = (h + (n + j)) mod B.
Proof.
  intros HB E. rewrite <- Z.add_mod_idemp_l, E, Z.add_mod_idemp_l by lia.
  f_equal. lia.
Qed.

Lemma append_head (h n B : Z) :
  0 <= h <= B -> 0 <= n <= B ->
  let h1 := if B - h <? n then n - (B - h) else h + n in
  0 <= h1 <= B /\ h1 mod B = (h + n) mod B.
Proof.
  intros Hh Hn. cbv zeta. destruct (Z.ltb_spec (B - h) n).
  - split; [lia|].
    replace (h + n) with (n - (B - h) + 1 * B) by lia.
    now rewrite Z.mod_add by lia.
  - split; [lia|reflexivity].
Qed.

Lemma process_loop_ring (fuel : nat) :
  forall (a : analyzer F) (c : channel_t F) (inp : list F) a' c',
    0 <= nRank a -> Z.shiftl 1 (nRank a) <= nBufSize a ->
    0 <= nHead c <= nBufSize a ->
    Z.of_nat (length inp) <= nBufSize a ->
    process_loop K fuel a c inp = Some (a', c') ->
    (forall j, 0 <= j < Z.of_nat (length inp) ->
       vBuffer c' ((nHead c + j) mod nBufSize a) = nth (Z.to_nat j) inp (fzero K)) /\
    (forall i, 0 <= i < nBufSize a ->
       (forall j, 0 <= j < Z.of_nat (length inp) ->
          i <> (nHead c + j) mod nBufSize a) ->
       vBuffer c' i = vBuffer c i) /\
    0 <= nHead c' <= nBufSize a /\
    nHead c' mod nBufSize a = (nHead c + Z.of_nat (length inp)) mod nBufSize a.
Proof.
  induction fuel as [|fuel IH]; intros a c inp a' c' Hr HN Hh HL E;
    (destruct inp as [|x inp];
     [inversion E; subst; cbn [length Z.of_nat];
      rewrite Z.add_0_r; repeat split; try lia; intros; lia|]);
    [discriminate|].
  cbn [process_loop] in E.
  assert (Hne : x :: inp <> []) by discriminate.
  assert (HB : 0 < nBufSize a).
  { rewrite Z.shiftl_1_l in HN. pose proof (Z.pow_pos_nonneg 2 (nRank a)). lia. }
  pose proof (process_step_conf K a c (x :: inp)) as Hconf.
  destruct (Z.le_gt_cases (nFftPeriod a - nCounter c) 0) as [Hfft|Happ].
  - (* the FFT branch stores nothing to the ring *)
    destruct (process_step_fft K a c (x :: inp) Hfft) as (_ & Ei & _ & Eh & _).
    destruct (process_step_fft_channel a c (x :: inp) Hfft) as (Eb & _ & _).
    destruct (process_step K a c (x :: inp)) as [[a1 c1] inp1].
    cbn [fst snd] in *. subst inp1.
    destruct Hconf as (_ & _ & E3 & _ & E5 & _).
    rewrite <- E5, <- Eh, <- Eb.
    apply (IH a1 c1 (x :: inp) a' c'); rewrite ?E3, ?E5, ?Eh; assumption.
  - (* the append branch *)
    destruct (process_step_append K a c (x :: inp) Happ) as (Ea & Ei & _ & Eh & _).
    destruct (append_len_bounds a c Happ Hne Hr) as (N1 & _ & N3 & N4).
    pose proof (fun j => @process_step_append_stores a c (x :: inp) j Happ Hh) as Hst.
    pose proof (fun i => @process_step_append_keeps a c (x :: inp) i Happ Hh) as Hkp.
    destruct (@append_head (nHead c) (append_len a c (x :: inp)) (nBufSize a))
      as (Hh1 & Hm1); [lia|lia|]. cbv zeta in Hh1, Hm1. rewrite <- Eh in Hh1, Hm1.
    set (n := append_len a c (x :: inp)) in *.
    set (L := Z.of_nat (length (x :: inp))) in *.
    destruct (process_step K a c (x :: inp)) as [[a1 c1] inp1].
    cbn [fst snd] in *. subst a1 inp1.
    assert (HL1 : Z.of_nat (length (skipn (Z.to_nat n) (x :: inp))) = L - n).
    { rewrite length_skipn. subst L. lia. }
    assert (HL2 : Z.of_nat (length (skipn (Z.to_nat n) (x :: inp))) <= nBufSize a)
      by lia.
    destruct (IH a c1 _ a' c' Hr HN Hh1 HL2 E) as (I1 & I2 & I3 & I4).
    rewrite HL1 in I1, I2, I4.
    pose proof (fun j => @ring_shift (nHead c) (nHead c1) n j (nBufSize a) HB Hm1)
      as RS.
    split; [|split; [|split]].
    + intros j Hj. destruct (Z.lt_ge_cases j n) as [Hlt|Hge].
      * rewrite I2.
        -- apply Hst; lia.
        -- apply Z.mod_pos_bound. lia.
        -- intros j' Hj'. rewrite RS.
           apply ring_distinct; lia.
      * replace (nHead c + j) with (nHead c + (n + (j - n))) by lia.
        rewrite <- RS, I1 by lia.
        rewrite nth_skipn. f_equal. lia.
    + intros i Hi Hj. rewrite I2; [apply Hkp; try lia| lia |].
      * intros j Hj'. apply Hj. lia.
      * intros j' Hj'. rewrite RS. apply Hj. lia.
    + exact I3.
    + rewrite I4, RS. f_equal. lia.
Qed.

Lemma process_loop_frozen (fuel : nat) :
  forall (a : analyzer F) (c : channel_t F) (inp : list F) a' c',
    bFreeze c = true ->
    process_loop K fuel a c inp = Some (a', c') ->
    vAmp c' = vAmp c /\ bFreeze c' = true.
Proof.
  induction fuel as [|fuel IH]; intros a c inp a' c' Hf E;
    (destruct inp as [|x inp]; [inversion E; subst; now split|]);
    [discriminate|].
  cbn [process_loop] in E.
  destruct (Z.le_gt_cases (nFftPeriod a - nCounter c) 0) as [Hfft|Happ].
  - destruct (process_step_fft_channel a c (x :: inp) Hfft) as (_ & Eb & Ea).
    destruct (process_step K a c (x :: inp)) as [[a1 c1] inp1].
    cbn [fst snd] in *.
    destruct (IH a1 c1 inp1 a' c') as (I1 & I2); [congruence|exact E|].
    split; [rewrite I1; now apply Ea|exact I2].
  - destruct (process_step_append_channel a c (x :: inp) Happ) as (Eb & Ea).
    destruct (process_step K a c (x :: inp)) as [[a1 c1] inp1].
    cbn [fst snd] in *.
    destruct (IH a1 c1 inp1 a' c') as (I1 & I2); [congruence|exact E|].
    split; [congruence|exact I2].
Qed.

(** ** [process] and the channel it is given *)

Lemma upd_nth_same (A : Type) (l : list A) :
  forall (i : nat) (x : A), nth_error l i = Some x -> upd_nth i (fun _ => x) l = l.
Proof.
  induction l as [|y l IH]; intros [|i] x H; cbn in *; try discriminate.
  - now inversion H.
  - now rewrite IH.
Qed.

Lemma process_unfold (fuel : nat) (a : analyzer F) (channel : Z) (inp : list F)
  (c : channel_t F) :
  vChannels a <> None -> 0 <= channel < nChannels a ->
  nth_error (channels_of (reconfigure K a)) (Z.to_nat channel) = Some c ->
  process K fuel a channel inp =
  match process_loop K fuel (reconfigure K a) c inp with
  | Some (a', c') =>
      Some (with_channels a'
              (upd_nth (Z.to_nat channel) (fun _ => c')
                       (channels_of (reconfigure K a))))
  | None => None
  end.
Proof.
  intros Hv Hc E. unfold process.
  destruct (vChannels a); [|congruence].
  replace (channel >=? nChannels a) with false
    by (symmetry; rewrite Z.geb_leb; apply Z.leb_gt; lia).
  cbv zeta. now rewrite E.
Qed.

Lemma process_channel (fuel : nat) (a a' : analyzer F) (channel : Z)
  (inp : list F) (c : channel_t F) :
  vChannels a <> None -> 0 <= channel < nChannels a ->
  nth_error (channels_of a) (Z.to_nat channel) = Some c ->
  process K fuel a channel inp = Some a' ->
  exists (g : channel_t F -> channel_t F) a1 c',
    (forall c, vBuffer (g c) = vBuffer c /\ nHead (g c) = nHead c /\
               bFreeze (g c) = bFreeze c /\ c_bActive (g c) = c_bActive c /\
               (has (nReconfigure a) R_ANALYSIS = false -> vAmp (g c) = vAmp c)) /\
    process_loop K fuel (reconfigure K a) (g c) inp = Some (a1, c') /\
    nth_error (channels_of a') (Z.to_nat channel) = Some c'.
Proof.
  intros Hv Hc Ec E.
  destruct (reconfigure_channel a (Z.to_nat channel)) as (g & Hg & Eg).
  rewrite Ec in Eg. cbn [option_map] in Eg.
  rewrite (@process_unfold fuel a channel inp (g c) Hv Hc Eg) in E.
  destruct (process_loop K fuel (reconfigure K a) (g c) inp) as [[a1 c']|] eqn:El;
    [|discriminate].
  inversion E; subst a'; clear E.
  exists g, a1, c'. split; [exact Hg|]. split; [exact El|].
  cbn [with_channels channels_of vChannels].
  rewrite nth_error_upd_nth, Nat.eqb_refl, Eg. reflexivity.
Qed.

(** X9.  The ring of a channel holds the input in arrival order.  When
    [process] returns, the [count <= nBufSize] samples it was given sit in
    the cells [(head + j) mod nBufSize], [head] being the head before the
    call; every other cell of the ring is as before; the new head is again
    within [0, nBufSize] and is [head + count] modulo [nBufSize]. *)
Theorem analyzer_ring_holds_input (fuel : nat) (a a' : analyzer F) (channel : Z)
  (inp : list F) (c : channel_t F) :
  vChannels a <> None -> 0 <= channel < nChannels a ->
  nth_error (channels_of a) (Z.to_nat channel) = Some c ->
  0 <= nRank a -> Z.shiftl 1 (nRank a) <= nBufSize a ->
  0 <= nHead c <= nBufSize a ->
  Z.of_nat (length inp) <= nBufSize a ->
  process K fuel a channel inp = Some a' ->
  exists c',
    nth_error (channels_of a') (Z.to_nat channel) = Some c' /\
    (forall j, 0 <= j < Z.of_nat (length inp) ->
       vBuffer c' ((nHead c + j) mod nBufSize a) = nth (Z.to_nat j) inp (fzero K)) /\
    (forall i, 0 <= i < nBufSize a ->
       (forall j, 0 <= j < Z.of_nat (length inp) ->
          i <> (nHead c + j) mod nBufSize a) ->
       vBuffer c' i = vBuffer c i) /\
    0 <= nHead c' <= nBufSize a /\
    nHead c' mod nBufSize a = (nHead c + Z.of_nat (length inp)) mod nBufSize a.
Proof.
  intros Hv Hc Ec Hr HN Hh HL E.
  destruct (@process_channel fuel a a' channel inp c Hv Hc Ec E) as (g & a1 & c' & Hg & El & Ec').
  destruct (Hg c) as (Gb & Gh & _).
  destruct (reconfigure_conf K a) as (_ & _ & E3 & _ & E5 & _).
  exists c'. split; [exact Ec'|].
  rewrite <- E5, <- Gh, <- Gb.
  apply (@process_loop_ring fuel (reconfigure K a) (g c) inp a1 c');
    rewrite ?E3, ?E5, ?Gh; assumption.
Qed.

(** X10.  A frozen channel keeps its spectrum: in a ring that holds an FFT
    window ([2^nRank <= nBufSize]) with the head of the channel inside it,
    and with no clearing of the analysis pending, [process] on a channel
    with [bFreeze] set stores within the ring only, leaves [vAmp] as it
    was, whatever the input, and leaves the channel frozen. *)
Theorem analyzer_frozen_keeps_spectrum (fuel : nat) (a a' : analyzer F)
  (channel : Z) (inp : list F) (c : channel_t F) :
  vChannels a <> None -> 0 <= channel < nChannels a ->
  nth_error (channels_of a) (Z.to_nat channel) = Some c ->
  has (nReconfigure a) R_ANALYSIS = false ->
  bFreeze c = true ->
  0 <= nRank a -> Z.shiftl 1 (nRank a) <= nBufSize a ->
  0 <= nHead c <= nBufSize a ->
  process K fuel a channel inp = Some a' ->
  AnalyzerBounds.process_in_ring K fuel a channel inp = true /\
  exists c',
    nth_error (channels_of a') (Z.to_nat channel) = Some c' /\
    vAmp c' = vAmp c /\ bFreeze c' = true.
Proof.
  intros Hv Hc Ec Hn Hf Hr HN Hh E. split.
  { apply AnalyzerBounds.process_in_ring_fits; [lia|].
    intros c0 E0. assert (c0 = c) by congruence. subst c0.
    unfold AnalyzerBounds.fits.
    split; [exact Hr|]. split; [exact HN|]. split; [exact Hh|]. now left. }
  destruct (@process_channel fuel a a' channel inp c Hv Hc Ec E) as (g & a1 & c' & Hg & El & Ec').
  destruct (Hg c) as (_ & _ & Gf & _ & Ga).
  destruct (@process_loop_frozen fuel (reconfigure K a) (g c) inp a1 c') as (I1 & I2);
    [congruence|exact El|].
  exists c'. split; [exact Ec'|]. split; [|exact I2].
  rewrite I1. now apply Ga.
Qed.

Lemma with_channels_same (a : analyzer F) (cs : list (channel_t F)) :
  vChannels a = Some cs -> with_channels a cs = a.
Proof. destruct a. cbn. now intros ->. Qed.

Lemma reconfigure_vChannels (a : analyzer F) :
  vChannels a <> None ->
  vChannels (reconfigure K a) = Some (channels_of (reconfigure K a)).
Proof.
  intros Hv. unfold reconfigure.
  destruct (nReconfigure a =? 0); [|reflexivity].
  unfold channels_of. now destruct (vChannels a).
Qed.

(** X11.  [process] with no samples applies the pending reconfiguration and
    nothing else; afterwards nothing is pending and a second such call
    changes nothing. *)
Theorem analyzer_process_no_samples (fuel : nat) (a : analyzer F) (channel : Z) :
  vChannels a <> None -> 0 <= channel < nChannels a ->
  (Z.to_nat channel < length (channels_of a))%nat ->
  process K fuel a channel [] = Some (reconfigure K a) /\
  nReconfigure (reconfigure K a) = 0 /\
  process K fuel (reconfigure K a) channel [] = Some (reconfigure K a).
Proof.
  intros Hv Hc Hl.
  assert (Hstep : forall b : analyzer F,
            vChannels b <> None -> 0 <= channel < nChannels b ->
            (Z.to_nat channel < length (channels_of b))%nat ->
            process K fuel b channel [] = Some (reconfigure K b)).
  { intros b Hvb Hcb Hlb.
    destruct (nth_error (channels_of b) (Z.to_nat channel)) as [c|] eqn:Ec;
      [|apply nth_error_None in Ec; lia].
    destruct (reconfigure_channel b (Z.to_nat channel)) as (g & _ & Eg).
    rewrite Ec in Eg. cbn [option_map] in Eg.
    rewrite (@process_unfold fuel b channel [] (g c) Hvb Hcb Eg).
    assert (El : process_loop K fuel (reconfigure K b) (g c) [] =
                 Some (reconfigure K b, g c)) by (destruct fuel; reflexivity).
    rewrite El, (@upd_nth_same _ _ _ _ Eg).
    now rewrite with_channels_same by now apply reconfigure_vChannels. }
  destruct (reconfigure_conf K a) as (E1 & _ & _ & _ & _ & _ & E7 & _).
  split; [now apply Hstep|]. split; [exact E7|].
  assert (Eid : reconfigure K (reconfigure K a) = reconfigure K a).
  { unfold reconfigure at 1. now rewrite E7. }
  rewrite <- Eid at 2. apply Hstep.
  - rewrite reconfigure_vChannels by assumption. discriminate.
  - now rewrite E1.
  - destruct (reconfigure_channel a (Z.to_nat channel)) as (g & _ & Eg).
    apply nth_error_Some. rewrite Eg.
    destruct (nth_error (channels_of a) (Z.to_nat channel)) eqn:Ec;
      [discriminate|apply nth_error_None in Ec; lia].
Qed.

Lemma reconfigure_idle (a : analyzer F) : nReconfigure a = 0 -> reconfigure K a = a.
Proof. intros H. unfold reconfigure. now rewrite H. Qed.

(** X12.  [process] on one channel leaves the others alone: with no
    reconfiguration pending, every channel other than the one processed has
    after the call the ring, the spectrum, the counter, the head, the delay
    and the flags it had before. *)
Theorem analyzer_other_channels_untouched (fuel : nat) (a a' : analyzer F)
  (channel : Z) (inp : list F) (j : nat) :
  nReconfigure a = 0 ->
  process K fuel a channel inp = Some a' ->
  j <> Z.to_nat channel ->
  nth_error (channels_of a') j = nth_error (channels_of a) j.
Proof.
  intros Hn E Hj. unfold process in E. rewrite (reconfigure_idle a Hn) in E.
  destruct (vChannels a) as [cs|] eqn:Ev; [|now inversion E].
  destruct (channel >=? nChannels a); [now inversion E|].
  destruct (nth_error (channels_of a) (Z.to_nat channel)) as [c|];
    [|now inversion E].
  destruct (process_loop K fuel a c inp) as [[a1 c1]|]; [|discriminate].
  inversion E; subst a'; clear E.
  cbn [with_channels channels_of vChannels].
  rewrite nth_error_upd_nth.
  replace (Nat.eqb j (Z.to_nat channel)) with false
    by (symmetry; now apply Nat.eqb_neq).
  unfold channels_of. now rewrite Ev.
Qed.

(** ** A channel that is not active *)

Definition zeroed (a : analyzer F) (c : channel_t F) : Prop :=
  forall i, 0 <= i < Z.shiftl 1 (nRank a) -> vAmp c i = fzero K.

Definition switched_off (a : analyzer F) (c : channel_t F) : Prop :=
  bFreeze c = false /\ bActive a && c_bActive c = false.

Lemma process_step_switched_off (a : analyzer F) (c : channel_t F) (inp : list F) :
  switched_off a c ->
  let a1 := fst (fst (process_step K a c inp)) in
  let c1 := snd (fst (process_step K a c inp)) in
  switched_off a1 c1 /\
  (nFftPeriod a - nCounter c <= 0 -> zeroed a1 c1) /\
  (zeroed a c -> zeroed a1 c1).
Proof.
  intros (Hf & Ha). cbv zeta. unfold process_step. fold (append_len a c inp).
  rewrite Hf, Ha. cbn [negb].
  destruct (Z.leb_spec (nFftPeriod a - nCounter c) 0) as [Hfft|Happ].
  - cbn [fst snd]. unfold switched_off, zeroed.
    cbn [bFreeze c_bActive vAmp nRank bActive].
    split; [now split|]. split; intros H i Hi; unfold fill_zero;
      now rewrite within_true by lia.
  - destruct (nBufSize a - nHead c <? append_len a c inp); cbn [fst snd];
      unfold switched_off, zeroed; cbn [bFreeze c_bActive vAmp];
      (split; [now split|]); (split; [lia|]); intros H; exact H.
Qed.

Lemma process_loop_switched_off (fuel : nat) :
  forall (a : analyzer F) (c : channel_t F) (inp : list F) a' c',
    0 <= nRank a -> switched_off a c ->
    zeroed a c \/ (inp <> [] /\ nFftPeriod a < nCounter c + Z.of_nat (length inp)) ->
    process_loop K fuel a c inp = Some (a', c') ->
    zeroed a' c' /\ nRank a' = nRank a.
Proof.
  induction fuel as [|fuel IH]; intros a c inp a' c' Hr Hs Hz E;
    (destruct inp as [|x inp];
     [inversion E; subst; split; [|reflexivity];
      destruct Hz as [Hz|[Hz _]]; [exact Hz|congruence]|]);
    [discriminate|].
  cbn [process_loop] in E.
  assert (Hne : x :: inp <> []) by discriminate.
  pose proof (process_step_conf K a c (x :: inp)) as Hconf.
  destruct (process_step_switched_off (x :: inp) Hs) as (Hs1 & Hfz & Hzz).
  destruct (Z.le_gt_cases (nFftPeriod a - nCounter c) 0) as [Hfft|Happ].
  - destruct (process_step K a c (x :: inp)) as [[a1 c1] inp1].
    cbn [fst snd] in *.
    destruct Hconf as (_ & _ & E3 & _).
    destruct (IH a1 c1 inp1 a' c') as (I1 & I2);
      [rewrite E3; exact Hr|exact Hs1|left; now apply Hfz|exact E|].
    split; [exact I1|congruence].
  - destruct (process_step_append K a c (x :: inp) Happ) as (Ea & Ei & Ec & _).
    destruct (append_len_bounds a c Happ Hne Hr) as (N1 & N2 & N3 & _).
    set (n := append_len a c (x :: inp)) in *.
    destruct (process_step K a c (x :: inp)) as [[a1 c1] inp1].
    cbn [fst snd] in *. subst a1.
    assert (Hl : Z.of_nat (length inp1) = Z.of_nat (length (x :: inp)) - n).
    { subst inp1. rewrite length_skipn. lia. }
    apply (IH a c1 inp1 a' c'); [exact Hr|exact Hs1| |exact E].
    destruct Hz as [Hz|[_ Hz]]; [left; now apply Hzz|right].
    split; [|lia].
    intros ->. change (Z.of_nat (length (@nil F))) with 0 in Hl. lia.
Qed.

(** X13.  A channel that is switched off shows an empty spectrum: in a ring
    that holds an FFT window ([2^nRank <= nBufSize]) with the head of the
    channel inside it, when the channel or the analyzer is not active and
    the channel is not frozen, with no reconfiguration pending, a call of
    [process] that takes the counter past the FFT period stores within the
    ring only and leaves [vAmp] zero in all of its [2^nRank] cells,
    whatever the input and whatever [vAmp] held. *)
Theorem analyzer_inactive_channel_zeroed (fuel : nat) (a a' : analyzer F)
  (channel : Z) (inp : list F) (c : channel_t F) :
  vChannels a <> None -> 0 <= channel < nChannels a ->
  nth_error (channels_of a) (Z.to_nat channel) = Some c ->
  nReconfigure a = 0 -> 0 <= nRank a ->
  Z.shiftl 1 (nRank a) <= nBufSize a -> 0 <= nHead c <= nBufSize a ->
  bFreeze c = false -> bActive a && c_bActive c = false ->
  inp <> [] -> nFftPeriod a < nCounter c + Z.of_nat (length inp) ->
  process K fuel a channel inp = Some a' ->
  AnalyzerBounds.process_in_ring K fuel a channel inp = true /\
  exists c',
    nth_error (channels_of a') (Z.to_nat channel) = Some c' /\
    forall i, 0 <= i < Z.shiftl 1 (nRank a) -> vAmp c' i = fzero K.
Proof.
  intros Hv Hc Ec Hn Hr HN Hh Hf Ha Hne Hp E. split.
  { apply AnalyzerBounds.process_in_ring_fits; [lia|].
    intros c0 E0. assert (c0 = c) by congruence. subst c0.
    unfold AnalyzerBounds.fits.
    split; [exact Hr|]. split; [exact HN|]. split; [exact Hh|]. right; now left. }
  pose proof (reconfigure_idle a Hn) as Eid.
  assert (Ec' : nth_error (channels_of (reconfigure K a)) (Z.to_nat channel) = Some c)
    by now rewrite Eid.
  rewrite (@process_unfold fuel a channel inp c Hv Hc Ec'), Eid in E.
  destruct (process_loop K fuel a c inp) as [[a1 c']|] eqn:El; [|discriminate].
  inversion E; subst a'; clear E.
  exists c'. split.
  - cbn [with_channels channels_of vChannels].
    now rewrite nth_error_upd_nth, Nat.eqb_refl, Ec.
  - destruct (@process_loop_switched_off fuel a c inp a1 c' Hr (conj Hf Ha)
                (or_intror (conj Hne Hp)) El) as (Hz & Er).
    intros i Hi. apply Hz. now rewrite Er.
Qed.

(** ** The counter of a channel *)

Lemma process_loop_counter (fuel : nat) :
  forall (a : analyzer F) (c : channel_t F) (inp : list F) a' c',
    1 <= nFftPeriod a -> 0 <= nRank a -> 0 <= nCounter c -> inp <> [] ->
    process_loop K fuel a c inp = Some (a', c') ->
    1 <= nCounter c' <= nFftPeriod a /\
    exists k, nCounter c' = nCounter c + Z.of_nat (length inp) - k * nFftPeriod a.
Proof.
  induction fuel as [|fuel IH]; intros a c inp a' c' Hp Hr Hc Hne E;
    (destruct inp as [|x inp]; [congruence|]); [discriminate|].
  cbn [process_loop] in E.
  pose proof (process_step_conf K a c (x :: inp)) as Hconf.
  destruct (Z.le_gt_cases (nFftPeriod a - nCounter c) 0) as [Hfft|Happ].
  - destruct (process_step_fft K a c (x :: inp) Hfft) as (_ & Ei & Ec & _).
    destruct (process_step K a c (x :: inp)) as [[a1 c1] inp1].
    cbn [fst snd] in *. subst inp1.
    destruct Hconf as (_ & _ & E3 & _ & _ & E6 & _).
    destruct (IH a1 c1 (x :: inp) a' c') as (Hb & k & Hk);
      try (rewrite ?E3, ?E6, ?Ec; assumption || lia).
    rewrite E6 in Hb, Hk. split; [exact Hb|].
    exists (k + 1). rewrite Hk, Ec. lia.
  - destruct (process_step_append K a c (x :: inp) Happ) as (Ea & Ei & Ec & _).
    destruct (append_len_bounds a c Happ Hne Hr) as (N1 & N2 & N3 & _).
    set (n := append_len a c (x :: inp)) in *.
    destruct (process_step K a c (x :: inp)) as [[a1 c1] inp1].
    cbn [fst snd] in *. subst a1.
    assert (Hl : Z.of_nat (length inp1) = Z.of_nat (length (x :: inp)) - n).
    { subst inp1. rewrite length_skipn. lia. }
    destruct inp1 as [|y inp1].
    + assert (Ef : process_loop K fuel a c1 [] = Some (a, c1))
        by (destruct fuel; reflexivity).
      rewrite Ef in E. inversion E; subst a' c'; clear E.
      change (Z.of_nat (length (@nil F))) with 0 in Hl.
      split; [lia|]. exists 0. lia.
    + destruct (IH a c1 (y :: inp1) a' c') as (Hb & k & Hk);
        try assumption; try lia; [discriminate|].
      split; [exact Hb|]. exists k. lia.
Qed.

(** X14.  Where the counter of a channel stands after [process]: with no
    reconfiguration pending, an FFT period [P >= 1] and a counter [c >= 0],
    a call with [n >= 1] samples leaves the counter at
    [(c + n - 1) mod P + 1], between 1 and [P].  The counter reaches [P]
    with the last sample of a period, and the FFT of that period is left to
    the next call that brings a sample. *)
Theorem analyzer_counter_after_process (fuel : nat) (a a' : analyzer F)
  (channel : Z) (inp : list F) (c : channel_t F) :
  vChannels a <> None -> 0 <= channel < nChannels a ->
  nth_error (channels_of a) (Z.to_nat channel) = Some c ->
  nReconfigure a = 0 -> 1 <= nFftPeriod a -> 0 <= nRank a ->
  0 <= nCounter c -> inp <> [] ->
  process K fuel a channel inp = Some a' ->
  exists c',
    nth_error (channels_of a') (Z.to_nat channel) = Some c' /\
    nCounter c' = (nCounter c + Z.of_nat (length inp) - 1) mod nFftPeriod a + 1.
Proof.
  intros Hv Hc Ec Hn Hp Hr Hc0 Hne E.
  pose proof (reconfigure_idle a Hn) as Eid.
  assert (Ec' : nth_error (channels_of (reconfigure K a)) (Z.to_nat channel) = Some c)
    by now rewrite Eid.
  rewrite (@process_unfold fuel a channel inp c Hv Hc Ec'), Eid in E.
  destruct (process_loop K fuel a c inp) as [[a1 c']|] eqn:El; [|discriminate].
  inversion E; subst a'; clear E.
  exists c'. split.
  - cbn [with_channels channels_of vChannels].
    now rewrite nth_error_upd_nth, Nat.eqb_refl, Ec.
  - destruct (@process_loop_counter fuel a c inp a1 c' Hp Hr Hc0 Hne El)
      as (Hb & k & Hk).
    assert (Em : (nCounter c + Z.of_nat (length inp) - 1) mod nFftPeriod a
                 = nCounter c' - 1)
      by (symmetry; apply (Z.mod_unique _ _ k); lia).
    rewrite Em. lia.
Qed.

(** ** The limits given to [init] *)

Lemma process_step_limits (a : analyzer F) (c : channel_t F) (inp : list F) :
  nMaxSampleRate (fst (fst (process_step K a c inp))) = nMaxSampleRate a /\
  fMinRate (fst (fst (process_step K a c inp))) = fMinRate a.
Proof.
  unfold process_step.
  destruct (nFftPeriod a - nCounter c <=? 0).
  - destruct (negb (bFreeze c)); [destruct (bActive a && c_bActive c)|];
      cbn; now split.
  - destruct (nBufSize a - nHead c <? _); cbn; now split.
Qed.

Lemma process_loop_limits (fuel : nat) :
  forall (a : analyzer F) (c : channel_t F) (inp : list F) a' c',
    process_loop K fuel a c inp = Some (a', c') ->
    nMaxSampleRate a' = nMaxSampleRate a /\ fMinRate a' = fMinRate a.
Proof.
  induction fuel as [|fuel IH]; intros a c inp a' c' E;
    (destruct inp as [|x inp]; [inversion E; subst; now split|]);
    [discriminate|].
  cbn [process_loop] in E.
  destruct (process_step_limits a c (x :: inp)) as (E1 & E2).
  destruct (process_step K a c (x :: inp)) as [[a1 c1] inp1].
  cbn [fst snd] in *.
  destruct (IH a1 c1 inp1 a' c' E) as (I1 & I2).
  split; congruence.
Qed.

Lemma reconfigure_limits (a : analyzer F) :
  nMaxSampleRate (reconfigure K a) = nMaxSampleRate a /\
  fMinRate (reconfigure K a) = fMinRate a.
Proof. unfold reconfigure. destruct (nReconfigure a =? 0); now split. Qed.

Definition limits (channels max_rank max_sr : Z) (min_rate : F) (a : analyzer F)
  : Prop :=
  nSampleRate a <= max_sr /\
  nRank a <= max_rank /\ (nRank a = max_rank \/ 2 <= nRank a) /\
  nChannels a = channels /\ nMaxRank a = max_rank /\
  nMaxSampleRate a = max_sr /\ fMinRate a = min_rate.

Lemma process_limits (fuel : nat) (a a' : analyzer F) (channel : Z) (inp : list F)
  (channels max_rank max_sr : Z) (min_rate : F) :
  process K fuel a channel inp = Some a' ->
  limits channels max_rank max_sr min_rate a ->
  limits channels max_rank max_sr min_rate a'.
Proof.
  intros E H. unfold process in E.
  destruct (vChannels a); [|inversion E; subst; assumption].
  destruct (channel >=? nChannels a); [inversion E; subst; assumption|].
  destruct (reconfigure_conf K a) as (E1 & E2 & E3 & E4 & _).
  destruct (reconfigure_limits a) as (L1 & L2).
  assert (Hr : limits channels max_rank max_sr min_rate (reconfigure K a)).
  { unfold limits in *. rewrite E1, E2, E3, E4, L1, L2. exact H. }
  destruct (nth_error _ _) as [c|]; [|inversion E; subst; assumption].
  destruct (process_loop K fuel (reconfigure K a) c inp) as [[a2 c2]|] eqn:El;
    [|discriminate].
  inversion E; subst a'; clear E.
  destruct (process_loop_conf _ _ _ _ _ El) as (C1 & C2 & C3 & C4 & _).
  destruct (process_loop_limits _ _ _ _ El) as (M1 & M2).
  unfold limits in *.
  cbn [with_channels nSampleRate nRank nChannels nMaxRank nMaxSampleRate fMinRate].
  rewrite C1, C2, C3, C4, M1, M2. exact Hr.
Qed.

(** X15.  The limits given to [init] hold in every state the public
    operations reach: the sample rate never exceeds [max_sr], the rank never
    exceeds [max_rank] and is at least 2 once it has been changed, and the
    number of channels and the limits themselves never change. *)
Theorem analyzer_limits_hold
  (channels max_rank max_sr : Z) (min_rate : F) (a : analyzer F) :
  0 <= max_sr ->
  reachable K (init K (construct K) channels max_rank max_sr min_rate) a ->
  nSampleRate a <= max_sr /\
  nRank a <= max_rank /\ (nRank a = max_rank \/ 2 <= nRank a) /\
  nChannels a = channels /\ nMaxRank a = max_rank /\
  nMaxSampleRate a = max_sr /\ fMinRate a = min_rate.
Proof.
  intros Hsr Hreach. fold (limits channels max_rank max_sr min_rate a).
  induction Hreach as
    [ | a sr _ IH | a rate _ IH | a w _ IH | a e _ IH | a s _ IH | a r _ IH
      | a rank _ IH | a ch fr _ IH Hch | a ch en _ IH Hch
      | a fuel ch inp a' _ IH Hch Hproc ].
  - unfold limits. cbn. repeat split; lia.
  - unfold set_sample_rate. destruct (_ =? _); [assumption|].
    unfold limits in *. cbn. destruct IH as (H1 & H2 & H3 & H4 & H5 & H6 & H7).
    repeat split; try assumption. lia.
  - unfold set_rate. now destruct (feqb K _ _).
  - unfold set_window. now destruct (_ =? _).
  - unfold set_envelope. now destruct (_ =? _).
  - unfold set_shift. now destruct (feqb K _ _).
  - unfold set_reactivity. now destruct (feqb K _ _).
  - unfold set_rank.
    destruct (Z.ltb_spec rank 2); [assumption|].
    destruct (Z.gtb_spec rank (nMaxRank a)); [assumption|]. cbn [orb].
    destruct (_ =? _); [assumption|]. cbn [snd].
    unfold limits in *. cbn. destruct IH as (H1 & H2 & H3 & H4 & H5 & H6 & H7).
    repeat split; try assumption; lia.
  - unfold freeze_channel. now destruct (_ >=? _).
  - unfold enable_channel. now destruct (_ >=? _).
  - eapply process_limits; eassumption.
Qed.

(** ** The FFT period in use *)

(** Either the counters are due for reconfiguration or the period is the
    one of the current sample rate and refresh rate. *)
Definition period_current (a : analyzer F) : Prop :=
  has (nReconfigure a) R_COUNTERS = true \/
  nFftPeriod a = quot K (nSampleRate a) (fRate a).

Lemma process_period_current (fuel : nat) (a a' : analyzer F) (channel : Z)
  (inp : list F) :
  process K fuel a channel inp = Some a' ->
  period_current a -> period_current a'.
Proof.
  intros E H. unfold process in E.
  destruct (vChannels a); [|inversion E; subst; assumption].
  destruct (channel >=? nChannels a); [inversion E; subst; assumption|].
  destruct (reconfigure_conf K a) as (_ & _ & _ & E4 & _ & E6 & E7 & E8).
  assert (Hr : nFftPeriod (reconfigure K a)
               = quot K (nSampleRate (reconfigure K a)) (fRate (reconfigure K a))).
  { rewrite E8, E4, E6.
    destruct (Z.eqb_spec (nReconfigure a) 0) as [Ez|_]; [|reflexivity].
    destruct H as [H|H]; [|exact H]. rewrite Ez in H. discriminate. }
  destruct (nth_error _ _) as [c|]; [|inversion E; subst; right; exact Hr].
  destruct (process_loop K fuel (reconfigure K a) c inp) as [[a2 c2]|] eqn:El;
    [|discriminate].
  inversion E; subst a'; clear E.
  destruct (process_loop_conf _ _ _ _ _ El) as (_ & _ & _ & C4 & _ & C6 & C7 & _).
  right. cbn [with_channels nFftPeriod nSampleRate fRate].
  now rewrite C6, C4, C7.
Qed.

Lemma reachable_period_current (a0 a : analyzer F) :
  reachable K a0 a -> period_current a0 -> period_current a.
Proof.
  intros Hreach H0.
  assert (Hall : has R_ALL R_COUNTERS = true) by reflexivity.
  induction Hreach as
    [ | a sr _ IH | a rate _ IH | a w _ IH | a e _ IH | a s _ IH | a r _ IH
      | a rank _ IH | a ch fr _ IH Hch | a ch en _ IH Hch
      | a fuel ch inp a' _ IH Hch Hproc ]; [assumption|..].
  - unfold set_sample_rate. destruct (_ =? _); [assumption|].
    left. cbn [nReconfigure]. now apply has_lor_r.
  - unfold set_rate. destruct (feqb K _ _); [assumption|].
    left. cbn [nReconfigure]. now apply has_lor_r.
  - unfold set_window. destruct (_ =? _); [assumption|].
    destruct IH as [IH|IH]; [left; cbn [nReconfigure]; now apply has_lor_l
                            |right; exact IH].
  - unfold set_envelope. destruct (_ =? _); [assumption|].
    destruct IH as [IH|IH]; [left; cbn [nReconfigure]; now apply has_lor_l
                            |right; exact IH].
  - unfold set_shift. destruct (feqb K _ _); [assumption|].
    destruct IH as [IH|IH]; [left; cbn [nReconfigure]; now apply has_lor_l
                            |right; exact IH].
  - unfold set_reactivity. destruct (feqb K _ _); [assumption|].
    destruct IH as [IH|IH]; [left; cbn [nReconfigure]; now apply has_lor_l
                            |right; exact IH].
  - unfold set_rank. destruct (_ || _); [assumption|].
    destruct (_ =? _); [assumption|].
    left. cbn [snd nReconfigure]. now apply has_lor_r.
  - unfold freeze_channel. now destruct (_ >=? _).
  - unfold enable_channel. now destruct (_ >=? _).
  - eapply process_period_current; eassumption.
Qed.

(** X16.  The FFT period in use is the current one: in every state reached
    from [init] through the setters, [freeze_channel], [enable_channel]
    and [process], once nothing is pending ([nReconfigure = 0]) the period
    is [size_t(float(nSampleRate) / fRate)] for the sample rate and the
    refresh rate the analyzer holds now. *)
Theorem analyzer_period_is_current
  (channels max_rank max_sr : Z) (min_rate : F) (a : analyzer F) :
  reachable K (init K (construct K) channels max_rank max_sr min_rate) a ->
  nReconfigure a = 0 ->
  nFftPeriod a = quot K (nSampleRate a) (fRate a).
Proof.
  intros Hreach Hn.
  destruct (reachable_period_current Hreach) as [H|H]; [left; reflexivity| |exact H].
  rewrite Hn in H. discriminate.
Qed.
End Ring.

(** ** The read paths *)

Section ReadPaths.
Variable F : Type.
Variable K : collab F.

(** What the read paths take from outside the translation unit besides the
    collaborators of [process]: the remaining arithmetic of [float]
    ([+], [-], [/], [logf], [expf]), the conversions between [size_t] and
    [float], and the two scale flags of the header. *)
Variable fadd : F -> F -> F.
Variable fsub : F -> F -> F.
Variable fdiv : F -> F -> F.
Variable logf : F -> F.
Variable expf : F -> F.
Variable of_size : Z -> F.               (* float(n) *)
Variable to_size : F -> Z.               (* size_t(x) *)
Variable FRQA_SCALE_LOGARITHMIC : Z.
Variable FRQA_SCALE_LINEAR : Z.

(** [p[i] = v] *)
Definition set_cell (A : Type) (p : Z -> A) (i : Z) (v : A) : Z -> A :=
  fun j => if j =? i then v else p j.

(** Analyzer::get_level.  The channel array has [nChannels] cells; a
    channel below [nChannels] that is not in the list does not occur. *)
Definition get_level (a : analyzer F) (channel idx : Z) : F :=
  match vChannels a with
  | None => fzero K
  | Some cs =>
      if channel >=? nChannels a then fzero K
      else match nth_error cs (Z.to_nat channel) with
           | Some c => fmul K (vAmp c idx) (vEnvelope a idx)
           | None => fzero K
           end
  end.

(** Analyzer::get_spectrum; the [bool] is the value returned, the buffer is
    [out] after the call. *)
Definition get_spectrum (a : analyzer F) (channel : Z) (out : buf F)
  (idx : Z -> Z) (count : Z) : bool * buf F :=
  match vChannels a with
  | None => (false, out)
  | Some cs =>
      if channel >=? nChannels a then (false, out)
      else match nth_error cs (Z.to_nat channel) with
           | Some c =>
               (true,
                for_loop (Z.to_nat count)
                  (fun i out =>
                     let j := idx (Z.of_nat i) in
                     set_cell out (Z.of_nat i) (fmul K (vAmp c j) (vEnvelope a j)))
                  out)
           | None => (false, out)
           end
  end.

(** Analyzer::read_frequencies *)
Definition read_frequencies (a : analyzer F) (frq : buf F) (start stop : F)
  (count flags : Z) : bool * buf F :=
  match vChannels a with
  | None => (false, frq)
  | Some _ =>
      if count =? 0 then (false, frq)
      else if count =? 1 then (true, set_cell frq 0 start)
      else if flags =? FRQA_SCALE_LOGARITHMIC then
        (* Initialize list of frequencies *)
        let count := count - 1 in
        let norm := fdiv (logf (fdiv stop start)) (of_size count) in
        let frq :=
          for_loop (Z.to_nat count)
            (fun i frq =>
               set_cell frq (Z.of_nat i)
                     (fmul K start (expf (fmul K (of_size (Z.of_nat i)) norm))))
            frq in
        (true, set_cell frq count stop)
      else if flags =? FRQA_SCALE_LINEAR then
        let count := count - 1 in
        let norm := fdiv (fsub stop start) (of_size count) in
        let frq :=
          for_loop (Z.to_nat count)
            (fun i frq =>
               set_cell frq (Z.of_nat i)
                     (fadd start (fmul K (of_size (Z.of_nat i)) norm)))
            frq in
        (true, set_cell frq count stop)
      else (false, frq)
  end.

(** Analyzer::get_frequencies.  [count - 1] is taken in the integers: for
    [count = 0] the loop does not run and [norm] is not used.  [idx] holds
    [uint32_t]. *)
Definition get_frequencies (a : analyzer F) (frq : buf F) (idx : Z -> Z)
  (start stop : F) (count : Z) : buf F * (Z -> Z) :=
  let fft_size := Z.shiftl 1 (nRank a) in
  let fft_csize := Z.shiftr fft_size 1 + 1 in
  let scale := fdiv (of_size fft_size) (of_size (nSampleRate a)) in
  (* Initialize list of frequencies *)
  let norm := fdiv (logf (fdiv stop start)) (of_size (count - 1)) in
  for_loop (Z.to_nat count)
    (fun i '(frq, idx) =>
       let f := fmul K start (expf (fmul K (of_size (Z.of_nat i)) norm)) in
       let ix := to_size (fmul K scale f) in
       let ix := if ix >? fft_csize then fft_csize else ix in
       (set_cell frq (Z.of_nat i) f, set_cell idx (Z.of_nat i) (ix mod 2 ^ 32)))
    (frq, idx).

Lemma set_cell_same (A : Type) (p : Z -> A) (i : Z) (v : A) : set_cell p i v i = v.
Proof. unfold set_cell. now rewrite Z.eqb_refl. Qed.

Lemma set_cell_other (A : Type) (p : Z -> A) (i j : Z) (v : A) :
  j <> i -> set_cell p i v j = p j.
Proof. intros H. unfold set_cell. now apply Z.eqb_neq in H as ->. Qed.

(** A loop that stores [v i] to cell [i]. *)
Lemma for_loop_set_cell (A : Type) (v : nat -> A) (n : nat) (p : Z -> A) (j : Z) :
  for_loop n (fun i p => set_cell p (Z.of_nat i) (v i)) p j =
  if (0 <=? j) && (j <? Z.of_nat n) then v (Z.to_nat j) else p j.
Proof.
  induction n as [|n IH]; cbn [for_loop].
  - destruct (Z.leb_spec 0 j), (Z.ltb_spec j (Z.of_nat 0));
      cbn [andb]; try reflexivity; lia.
  - unfold set_cell at 1. rewrite IH.
    destruct (Z.eqb_spec j (Z.of_nat n)) as [->|Hne].
    + rewrite Nat2Z.id.
      replace (0 <=? Z.of_nat n) with true by (symmetry; apply Z.leb_le; lia).
      replace (Z.of_nat n <? Z.of_nat (S n)) with true
        by (symmetry; apply Z.ltb_lt; lia).
      reflexivity.
    + destruct (Z.leb_spec 0 j), (Z.ltb_spec j (Z.of_nat n)),
        (Z.ltb_spec j (Z.of_nat (S n))); cbn [andb]; try reflexivity; lia.
Qed.

Lemma for_loop_set_cell2 (A B : Type) (v : nat -> A) (w : nat -> B) (n : nat)
  (p : Z -> A) (q : Z -> B) :
  for_loop n (fun i '(p, q) => (set_cell p (Z.of_nat i) (v i), set_cell q (Z.of_nat i) (w i)))
           (p, q) =
  (for_loop n (fun i p => set_cell p (Z.of_nat i) (v i)) p,
   for_loop n (fun i q => set_cell q (Z.of_nat i) (w i)) q).
Proof.
  induction n as [|n IH]; cbn [for_loop]; [reflexivity|]. now rewrite IH.
Qed.

Ltac in_range :=
  match goal with
  | |- context [(0 <=? ?j) && (?j <? ?n)] =>
      first [ replace ((0 <=? j) && (j <? n)) with true
                by (symmetry; apply andb_true_iff; split;
                    [apply Z.leb_le|apply Z.ltb_lt]; lia)
            | replace ((0 <=? j) && (j <? n)) with false
                by (symmetry; apply andb_false_iff;
                    rewrite Z.leb_gt, Z.ltb_ge; lia) ]
  end.

(** X17.  [get_spectrum] and [get_level] agree: for a channel of the
    analyzer, [get_spectrum] returns [true], stores to [out[i]] for
    [i < count] the value [get_level] returns for the bin [idx[i]] (the
    amplitude times the envelope at that bin, not at [i]), and stores to
    no other cell. *)
Theorem get_spectrum_is_get_level (a : analyzer F) (channel : Z) (out : buf F)
  (idx : Z -> Z) (count : Z) (c : channel_t F) :
  vChannels a <> None -> 0 <= channel < nChannels a ->
  nth_error (channels_of a) (Z.to_nat channel) = Some c ->
  fst (get_spectrum a channel out idx count) = true /\
  (forall i, 0 <= i < count ->
     snd (get_spectrum a channel out idx count) i = get_level a channel (idx i) /\
     get_level a channel (idx i) = fmul K (vAmp c (idx i)) (vEnvelope a (idx i))) /\
  (forall i, i < 0 \/ count <= i ->
     snd (get_spectrum a channel out idx count) i = out i).
Proof.
  intros Hv Hc Ec. unfold get_spectrum, get_level, channels_of in *.
  destruct (vChannels a) as [cs|]; [|congruence].
  replace (channel >=? nChannels a) with false
    by (symmetry; rewrite Z.geb_leb; apply Z.leb_gt; lia).
  rewrite Ec. cbn [fst snd]. split; [reflexivity|]. split.
  - intros i Hi.
    rewrite (for_loop_set_cell
               (fun i => fmul K (vAmp c (idx (Z.of_nat i)))
                                (vEnvelope a (idx (Z.of_nat i))))).
    in_range. rewrite Z2Nat.id by lia. now split.
  - intros i Hi.
    rewrite (for_loop_set_cell
               (fun i => fmul K (vAmp c (idx (Z.of_nat i)))
                                (vEnvelope a (idx (Z.of_nat i))))).
    destruct (Z.leb_spec 0 i), (Z.ltb_spec i (Z.of_nat (Z.to_nat count)));
      cbn [andb]; try reflexivity; lia.
Qed.

(** X18.  The grid of [read_frequencies]: with at least two points and one
    of the two scale flags it returns [true], stores the [count] cells
    [frq[0 .. count-1]] and no other, the last one being [stop] itself and
    cell [i < count - 1] being [start * expf(i * norm)] with
    [norm = logf(stop / start) / (count - 1)] for the logarithmic scale and
    [start + i * norm] with [norm = (stop - start) / (count - 1)] for the
    linear one. *)
Theorem read_frequencies_grid (a : analyzer F) (frq : buf F) (start stop : F)
  (count flags : Z) :
  vChannels a <> None -> 2 <= count ->
  flags = FRQA_SCALE_LOGARITHMIC \/ flags = FRQA_SCALE_LINEAR ->
  let r := read_frequencies a frq start stop count flags in
  fst r = true /\
  snd r (count - 1) = stop /\
  (forall i, 0 <= i < count - 1 ->
     snd r i =
     if flags =? FRQA_SCALE_LOGARITHMIC
     then fmul K start
            (expf (fmul K (of_size i)
                     (fdiv (logf (fdiv stop start)) (of_size (count - 1)))))
     else fadd start
            (fmul K (of_size i) (fdiv (fsub stop start) (of_size (count - 1))))) /\
  (forall i, i < 0 \/ count <= i -> snd r i = frq i).
Proof.
  intros Hv Hc Hf. cbv zeta. unfold read_frequencies.
  destruct (vChannels a) as [cs|]; [|congruence].
  replace (count =? 0) with false by (symmetry; apply Z.eqb_neq; lia).
  replace (count =? 1) with false by (symmetry; apply Z.eqb_neq; lia).
  assert (Hlin : (flags =? FRQA_SCALE_LOGARITHMIC) = false ->
                 (flags =? FRQA_SCALE_LINEAR) = true).
  { intros E. apply Z.eqb_neq in E. apply Z.eqb_eq. tauto. }
  destruct (flags =? FRQA_SCALE_LOGARITHMIC);
    [|rewrite Hlin by reflexivity]; cbn [fst snd];
    (split; [reflexivity|]); (split; [apply set_cell_same|]);
    (split; intros i Hi; rewrite set_cell_other by lia;
     match goal with
     | |- context [for_loop ?n (fun k q => set_cell q (Z.of_nat k) (@?v k)) ?p0 ?j] =>
         rewrite (for_loop_set_cell v n p0 j)
     end;
     [in_range; now rewrite Z2Nat.id by lia
     |destruct (Z.leb_spec 0 i), (Z.ltb_spec i (Z.of_nat (Z.to_nat (count - 1))));
        cbn [andb]; try reflexivity; lia]).
Qed.

(** X19.  [get_frequencies] stores [count] frequencies of the logarithmic
    grid and, for each, the bin index [size_t(scale * f)] with
    [scale = float(N) / float(sample rate)], clamped from above to
    [N / 2 + 1]: every index stored lies between 0 and [N / 2 + 1], and
    cells from [count] on are left alone. *)
Theorem get_frequencies_clamped (a : analyzer F) (frq : buf F) (idx : Z -> Z)
  (start stop : F) (count : Z) :
  (forall x, 0 <= to_size x) -> 0 <= nRank a ->
  let N := Z.shiftl 1 (nRank a) in
  let r := get_frequencies a frq idx start stop count in
  (forall i, 0 <= i < count ->
     fst r i = fmul K start
                 (expf (fmul K (of_size i)
                          (fdiv (logf (fdiv stop start)) (of_size (count - 1))))) /\
     0 <= snd r i <= N / 2 + 1 /\
     (N / 2 + 1 < 2 ^ 32 ->
      snd r i = Z.min (to_size (fmul K (fdiv (of_size N) (of_size (nSampleRate a)))
                                       (fst r i)))
                      (N / 2 + 1))) /\
  (forall i, i < 0 \/ count <= i -> fst r i = frq i /\ snd r i = idx i).
Proof.
  intros Hsz Hr. cbv zeta. unfold get_frequencies.
  rewrite Z.shiftr_div_pow2 by lia. change (2 ^ 1) with 2.
  set (N := Z.shiftl 1 (nRank a)).
  set (norm := fdiv (logf (fdiv stop start)) (of_size (count - 1))).
  set (scale := fdiv (of_size N) (of_size (nSampleRate a))).
  set (f := fun i : nat => fmul K start (expf (fmul K (of_size (Z.of_nat i)) norm))).
  set (ix := fun i : nat =>
               (if to_size (fmul K scale (f i)) >? N / 2 + 1
                then N / 2 + 1 else to_size (fmul K scale (f i))) mod 2 ^ 32).
  rewrite (for_loop_set_cell2 f ix). cbn [fst snd].
  assert (HN : 0 < N).
  { subst N. rewrite Z.shiftl_1_l. apply Z.pow_pos_nonneg; lia. }
  assert (HN2 : 0 <= N / 2) by (apply Z.div_pos; lia).
  split.
  - intros i Hi. rewrite !for_loop_set_cell. in_range.
    subst f ix. cbv beta. rewrite Z2Nat.id by lia.
    pose proof (Hsz (fmul K scale (fmul K start (expf (fmul K (of_size i) norm)))))
      as Hnn.
    split; [reflexivity|].
    match goal with |- context [if ?b then _ else _] => destruct b eqn:Eb end.
    + split.
      * pose proof (Z.mod_pos_bound (N / 2 + 1) (2 ^ 32)).
        pose proof (Z.mod_le (N / 2 + 1) (2 ^ 32)). lia.
      * intros Hs. rewrite Z.mod_small by lia. lia.
    + rewrite Z.gtb_ltb in Eb. apply Z.ltb_ge in Eb. split.
      * match goal with |- context [?x mod 2 ^ 32] =>
          pose proof (Z.mod_pos_bound x (2 ^ 32));
          pose proof (Z.mod_le x (2 ^ 32)) end. lia.
      * intros Hs. rewrite Z.mod_small by lia. lia.
  - intros i Hi. rewrite !for_loop_set_cell.
    destruct (Z.leb_spec 0 i), (Z.ltb_spec i (Z.of_nat (Z.to_nat count)));
      cbn [andb]; try (now split); lia.
Qed.
End ReadPaths.

(** ** Closed instances over the integers *)

Lemma process_run (F : Type) (K : collab F) (fuel : nat) (a : analyzer F)
  (channel : Z) (inp : list F) :
  returned K fuel a channel inp = true ->
  process K fuel a channel inp = Some (run K fuel a channel inp).
Proof.
  unfold returned, run. now destruct (process K fuel a channel inp).
Qed.

(** One channel, rank 2, a ring of 32 cells; five samples from head 0. *)
Lemma analyzer_ring_holds_input_witness :
  vChannels mono16 <> None /\ 0 <= 0 < nChannels mono16 /\
  nth_error (channels_of mono16) (Z.to_nat 0) = Some (channel mono16 0) /\
  0 <= nRank mono16 /\ Z.shiftl 1 (nRank mono16) <= nBufSize mono16 /\
  0 <= nHead (channel mono16 0) <= nBufSize mono16 /\
  Z.of_nat (length (ramp 5)) <= nBufSize mono16 /\
  process KZ 100 mono16 0 (ramp 5) = Some (run KZ 100 mono16 0 (ramp 5)) /\
  exists c',
    nth_error (channels_of (run KZ 100 mono16 0 (ramp 5))) (Z.to_nat 0) = Some c' /\
    (forall j, 0 <= j < Z.of_nat (length (ramp 5)) ->
       vBuffer c' ((nHead (channel mono16 0) + j) mod nBufSize mono16)
       = nth (Z.to_nat j) (ramp 5) (fzero KZ)) /\
    0 <= nHead c' <= nBufSize mono16.
Proof.
  assert (H1 : vChannels mono16 <> None) by (vm_compute; discriminate).
  assert (H2 : 0 <= 0 < nChannels mono16) by (vm_compute; split; congruence).
  assert (H3 : nth_error (channels_of mono16) (Z.to_nat 0) = Some (channel mono16 0))
    by (unfold channel; apply nth_error_nth'; vm_compute; lia).
  assert (H4 : 0 <= nRank mono16) by (vm_compute; congruence).
  assert (H5 : Z.shiftl 1 (nRank mono16) <= nBufSize mono16)
    by (vm_compute; congruence).
  assert (H6 : 0 <= nHead (channel mono16 0) <= nBufSize mono16)
    by (vm_compute; split; congruence).
  assert (H7 : Z.of_nat (length (ramp 5)) <= nBufSize mono16)
    by (vm_compute; congruence).
  assert (H8 : process KZ 100 mono16 0 (ramp 5) = Some (run KZ 100 mono16 0 (ramp 5)))
    by (apply process_run; vm_compute; reflexivity).
  repeat (split; [assumption|]).
  destruct (@analyzer_ring_holds_input Z KZ 100 mono16 _ 0 (ramp 5) _
              H1 H2 H3 H4 H5 H6 H7 H8) as (c' & E & S & _ & Hh & _).
  exists c'. split; [exact E|]. split; [exact S|exact Hh].
Defined.

(** [mono16] with reactivity 1, where the mix keeps the new spectrum alone,
    and shift 2, after 17 samples: the FFT of the first period has run on
    the cells 0..3 of the ring and has left [1, 2, 3] in [vAmp]; the
    envelope is 2 in its four cells. *)
Definition mono_lit : analyzer Z :=
  run KZ 100 (set_shift KZ (set_reactivity KZ mono16 1) 2) 0 (ramp 17).

(** The same analyzer with its channel frozen. *)
Definition mono_frozen : analyzer Z := snd (freeze_channel mono_lit 0 true).

Lemma analyzer_frozen_keeps_spectrum_witness :
  vChannels mono_frozen <> None /\ 0 <= 0 < nChannels mono_frozen /\
  nth_error (channels_of mono_frozen) (Z.to_nat 0) = Some (channel mono_frozen 0) /\
  has (nReconfigure mono_frozen) (R_ANALYSIS) = false /\
  bFreeze (channel mono_frozen 0) = true /\
  0 <= nRank mono_frozen /\
  Z.shiftl 1 (nRank mono_frozen) <= nBufSize mono_frozen /\
  0 <= nHead (channel mono_frozen 0) <= nBufSize mono_frozen /\
  process KZ 100 mono_frozen 0 (ramp 40)
    = Some (run KZ 100 mono_frozen 0 (ramp 40)) /\
  map (vAmp (channel mono_frozen 0)) [0; 1; 2; 3] = [1; 2; 3; 0] /\
  AnalyzerBounds.process_in_ring KZ 100 mono_frozen 0 (ramp 40) = true /\
  exists c',
    nth_error (channels_of (run KZ 100 mono_frozen 0 (ramp 40))) (Z.to_nat 0)
      = Some c' /\
    vAmp c' = vAmp (channel mono_frozen 0) /\ bFreeze c' = true /\
    map (vAmp c') [0; 1; 2; 3] = [1; 2; 3; 0].
Proof.
  assert (H1 : vChannels mono_frozen <> None) by (vm_compute; discriminate).
  assert (H2 : 0 <= 0 < nChannels mono_frozen) by (vm_compute; split; congruence).
  assert (H3 : nth_error (channels_of mono_frozen) (Z.to_nat 0)
               = Some (channel mono_frozen 0))
    by (unfold channel; apply nth_error_nth'; vm_compute; lia).
  assert (H4 : has (nReconfigure mono_frozen) (R_ANALYSIS) = false)
    by (vm_compute; reflexivity).
  assert (H5 : bFreeze (channel mono_frozen 0) = true) by (vm_compute; reflexivity).
  assert (H6 : 0 <= nRank mono_frozen) by (vm_compute; congruence).
  assert (H7 : Z.shiftl 1 (nRank mono_frozen) <= nBufSize mono_frozen)
    by (vm_compute; congruence).
  assert (H8 : 0 <= nHead (channel mono_frozen 0) <= nBufSize mono_frozen)
    by (vm_compute; split; congruence).
  assert (H9 : process KZ 100 mono_frozen 0 (ramp 40)
               = Some (run KZ 100 mono_frozen 0 (ramp 40)))
    by (apply process_run; vm_compute; reflexivity).
  assert (H10 : map (vAmp (channel mono_frozen 0)) [0; 1; 2; 3] = [1; 2; 3; 0])
    by (vm_compute; reflexivity).
  split; [exact H1|]. split; [exact H2|]. split; [exact H3|]. split; [exact H4|].
  split; [exact H5|]. split; [exact H6|]. split; [exact H7|]. split; [exact H8|].
  split; [exact H9|]. split; [exact H10|].
  destruct (@analyzer_frozen_keeps_spectrum Z KZ 100 mono_frozen _ 0 (ramp 40) _
              H1 H2 H3 H4 H5 H6 H7 H8 H9) as (R & c' & E1 & E2 & E3).
  split; [exact R|]. exists c'. split; [exact E1|]. split; [exact E2|].
  split; [exact E3|]. rewrite E2. exact H10.
Defined.

(** Without the freeze the same 40 samples bring the FFT of the cells 0..3
    of the ring twice, the second time over the samples 16, 17, 18 of the
    call. *)
Example unfrozen_spectrum_moves :
  map (vAmp (channel (run KZ 100 mono_lit 0 (ramp 40)) 0)) [0; 1; 2; 3]
  = [16; 17; 18; 0].
Proof. vm_compute. reflexivity. Qed.

(** The analyzer after its first reconfiguration: period 16, counter 0. *)
Definition mono_ready : analyzer Z := run KZ 1 mono16 0 [].

Lemma analyzer_counter_after_process_witness :
  vChannels mono_ready <> None /\ 0 <= 0 < nChannels mono_ready /\
  nth_error (channels_of mono_ready) (Z.to_nat 0) = Some (channel mono_ready 0) /\
  nReconfigure mono_ready = 0 /\ 1 <= nFftPeriod mono_ready /\
  0 <= nRank mono_ready /\ 0 <= nCounter (channel mono_ready 0) /\
  ramp 20 <> [] /\
  process KZ 100 mono_ready 0 (ramp 20)
    = Some (run KZ 100 mono_ready 0 (ramp 20)) /\
  exists c',
    nth_error (channels_of (run KZ 100 mono_ready 0 (ramp 20))) (Z.to_nat 0)
      = Some c' /\
    nCounter c'
    = (nCounter (channel mono_ready 0) + Z.of_nat (length (ramp 20)) - 1)
        mod nFftPeriod mono_ready + 1.
Proof.
  assert (H1 : vChannels mono_ready <> None) by (vm_compute; discriminate).
  assert (H2 : 0 <= 0 < nChannels mono_ready) by (vm_compute; split; congruence).
  assert (H3 : nth_error (channels_of mono_ready) (Z.to_nat 0)
               = Some (channel mono_ready 0))
    by (unfold channel; apply nth_error_nth'; vm_compute; lia).
  assert (H4 : nReconfigure mono_ready = 0) by (vm_compute; reflexivity).
  assert (H5 : 1 <= nFftPeriod mono_ready) by (vm_compute; congruence).
  assert (H6 : 0 <= nRank mono_ready) by (vm_compute; congruence).
  assert (H7 : 0 <= nCounter (channel mono_ready 0)) by (vm_compute; congruence).
  assert (H8 : ramp 20 <> []) by (vm_compute; discriminate).
  assert (H9 : process KZ 100 mono_ready 0 (ramp 20)
               = Some (run KZ 100 mono_ready 0 (ramp 20)))
    by (apply process_run; vm_compute; reflexivity).
  split; [exact H1|]. split; [exact H2|]. split; [exact H3|]. split; [exact H4|].
  split; [exact H5|]. split; [exact H6|]. split; [exact H7|]. split; [exact H8|].
  split; [exact H9|].
  exact (@analyzer_counter_after_process Z KZ 100 mono_ready _ 0 (ramp 20) _
           H1 H2 H3 H4 H5 H6 H7 H8 H9).
Defined.

(** Twenty samples at period 16: the counter stands at 4. *)
Example counter_after_twenty :
  nCounter (channel (run KZ 100 mono_ready 0 (ramp 20)) 0) = 4 /\
  nCounter (channel (run KZ 100 mono_ready 0 (ramp 16)) 0) = 16.
Proof. vm_compute. split; reflexivity. Qed.

Lemma analyzer_other_channels_untouched_witness :
  nReconfigure pair_ready = 0 /\
  process KZ 100 pair_ready 0 (ramp 8) = Some (run KZ 100 pair_ready 0 (ramp 8)) /\
  1%nat <> Z.to_nat 0 /\
  nth_error (channels_of (run KZ 100 pair_ready 0 (ramp 8))) 1
  = nth_error (channels_of pair_ready) 1.
Proof.
  assert (H1 : nReconfigure pair_ready = 0) by (vm_compute; reflexivity).
  assert (H2 : process KZ 100 pair_ready 0 (ramp 8)
               = Some (run KZ 100 pair_ready 0 (ramp 8)))
    by (apply process_run; vm_compute; reflexivity).
  assert (H3 : 1%nat <> Z.to_nat 0) by (cbn; discriminate).
  split; [exact H1|]. split; [exact H2|]. split; [exact H3|].
  exact (@analyzer_other_channels_untouched Z KZ 100 pair_ready _ 0 (ramp 8) 1%nat
           H1 H2 H3).
Defined.

(** [mono_lit] with its channel disabled: the spectrum [1, 2, 3] is still
    in [vAmp]. *)
Definition mono_off : analyzer Z := snd (enable_channel mono_lit 0 false).

Lemma analyzer_inactive_channel_zeroed_witness :
  vChannels mono_off <> None /\ 0 <= 0 < nChannels mono_off /\
  nth_error (channels_of mono_off) (Z.to_nat 0) = Some (channel mono_off 0) /\
  nReconfigure mono_off = 0 /\ 0 <= nRank mono_off /\
  Z.shiftl 1 (nRank mono_off) <= nBufSize mono_off /\
  0 <= nHead (channel mono_off 0) <= nBufSize mono_off /\
  bFreeze (channel mono_off 0) = false /\
  bActive mono_off && c_bActive (channel mono_off 0) = false /\
  ramp 20 <> [] /\
  nFftPeriod mono_off < nCounter (channel mono_off 0) + Z.of_nat (length (ramp 20)) /\
  process KZ 100 mono_off 0 (ramp 20) = Some (run KZ 100 mono_off 0 (ramp 20)) /\
  map (vAmp (channel mono_off 0)) [0; 1; 2; 3] = [1; 2; 3; 0] /\
  AnalyzerBounds.process_in_ring KZ 100 mono_off 0 (ramp 20) = true /\
  exists c',
    nth_error (channels_of (run KZ 100 mono_off 0 (ramp 20))) (Z.to_nat 0) = Some c' /\
    (forall i, 0 <= i < Z.shiftl 1 (nRank mono_off) -> vAmp c' i = fzero KZ) /\
    map (vAmp c') [0; 1; 2; 3] = [0; 0; 0; 0].
Proof.
  assert (H1 : vChannels mono_off <> None) by (vm_compute; discriminate).
  assert (H2 : 0 <= 0 < nChannels mono_off) by (vm_compute; split; congruence).
  assert (H3 : nth_error (channels_of mono_off) (Z.to_nat 0)
               = Some (channel mono_off 0))
    by (unfold channel; apply nth_error_nth'; vm_compute; lia).
  assert (H4 : nReconfigure mono_off = 0) by (vm_compute; reflexivity).
  assert (H5 : 0 <= nRank mono_off) by (vm_compute; congruence).
  assert (HN : Z.shiftl 1 (nRank mono_off) <= nBufSize mono_off)
    by (vm_compute; congruence).
  assert (Hh : 0 <= nHead (channel mono_off 0) <= nBufSize mono_off)
    by (vm_compute; split; congruence).
  assert (H6 : bFreeze (channel mono_off 0) = false) by (vm_compute; reflexivity).
  assert (H7 : bActive mono_off && c_bActive (channel mono_off 0) = false)
    by (vm_compute; reflexivity).
  assert (H8 : ramp 20 <> []) by (vm_compute; discriminate).
  assert (H9 : nFftPeriod mono_off
               < nCounter (channel mono_off 0) + Z.of_nat (length (ramp 20)))
    by (vm_compute; reflexivity).
  assert (H10 : process KZ 100 mono_off 0 (ramp 20)
                = Some (run KZ 100 mono_off 0 (ramp 20)))
    by (apply process_run; vm_compute; reflexivity).
  assert (H11 : map (vAmp (channel mono_off 0)) [0; 1; 2; 3] = [1; 2; 3; 0])
    by (vm_compute; reflexivity).
  split; [exact H1|]. split; [exact H2|]. split; [exact H3|]. split; [exact H4|].
  split; [exact H5|]. split; [exact HN|]. split; [exact Hh|]. split; [exact H6|].
  split; [exact H7|]. split; [exact H8|]. split; [exact H9|]. split; [exact H10|].
  split; [exact H11|].
  destruct (@analyzer_inactive_channel_zeroed Z KZ 100 mono_off _ 0 (ramp 20) _
              H1 H2 H3 H4 H5 HN Hh H6 H7 H8 H9 H10) as (R & c' & E1 & E2).
  split; [exact R|]. exists c'. split; [exact E1|]. split; [exact E2|].
  assert (HR : Z.shiftl 1 (nRank mono_off) = 4) by (vm_compute; reflexivity).
  cbn [map]. rewrite !E2 by (rewrite HR; lia). reflexivity.
Defined.

Lemma analyzer_process_no_samples_witness :
  vChannels mono <> None /\ 0 <= 0 < nChannels mono /\
  (Z.to_nat 0 < length (channels_of mono))%nat /\
  process KZ 0 mono 0 [] = Some (reconfigure KZ mono) /\
  nReconfigure (reconfigure KZ mono) = 0 /\
  process KZ 0 (reconfigure KZ mono) 0 [] = Some (reconfigure KZ mono).
Proof.
  assert (H1 : vChannels mono <> None) by (vm_compute; discriminate).
  assert (H2 : 0 <= 0 < nChannels mono) by (vm_compute; split; congruence).
  assert (H3 : (Z.to_nat 0 < length (channels_of mono))%nat) by (vm_compute; lia).
  repeat (split; [assumption|]).
  exact (@analyzer_process_no_samples Z KZ 0 mono 0 H1 H2 H3).
Defined.

Lemma analyzer_limits_hold_witness :
  0 <= 16 /\ reachable KZ (init KZ (construct KZ) 1 2 16 1) mono32 /\
  nSampleRate mono32 <= 16 /\
  nRank mono32 <= 2 /\ (nRank mono32 = 2 \/ 2 <= nRank mono32) /\
  nChannels mono32 = 1 /\ nMaxRank mono32 = 2 /\
  nMaxSampleRate mono32 = 16 /\ fMinRate mono32 = 1.
Proof.
  assert (H1 : 0 <= 16) by lia.
  split; [exact H1|]. split; [exact mono32_reachable|].
  exact (@analyzer_limits_hold Z KZ 1 2 16 1 mono32 H1 mono32_reachable).
Defined.

Lemma analyzer_period_is_current_witness :
  reachable KZ (init KZ (construct KZ) 1 2 16 1) mono32 /\
  nReconfigure mono32 = 0 /\
  nFftPeriod mono32 = quot KZ (nSampleRate mono32) (fRate mono32).
Proof.
  assert (H : nReconfigure mono32 = 0) by (vm_compute; reflexivity).
  split; [exact mono32_reachable|]. split; [exact H|].
  exact (@analyzer_period_is_current Z KZ 1 2 16 1 mono32 mono32_reachable H).
Defined.

(** The read paths on integers: [/] is the quotient, [logf] the binary
    logarithm, [expf] the power of two.  The bins are read in reverse. *)
Definition bins : Z -> Z := fun i => 2 - i.

(** On [mono_lit] the amplitudes [1, 2, 3] times the envelope 2, read at the
    bins 2, 1, 0, into a buffer that held 9 in every cell. *)
Lemma get_spectrum_is_get_level_witness :
  vChannels mono_lit <> None /\ 0 <= 0 < nChannels mono_lit /\
  nth_error (channels_of mono_lit) (Z.to_nat 0) = Some (channel mono_lit 0) /\
  fst (get_spectrum KZ mono_lit 0 (fun _ => 9) bins 3) = true /\
  (forall i, 0 <= i < 3 ->
     snd (get_spectrum KZ mono_lit 0 (fun _ => 9) bins 3) i
     = get_level KZ mono_lit 0 (bins i) /\
     get_level KZ mono_lit 0 (bins i)
     = vAmp (channel mono_lit 0) (bins i) * vEnvelope mono_lit (bins i)) /\
  (forall i, i < 0 \/ 3 <= i ->
     snd (get_spectrum KZ mono_lit 0 (fun _ => 9) bins 3) i = 9) /\
  map (snd (get_spectrum KZ mono_lit 0 (fun _ => 9) bins 3)) [0; 1; 2; 3]
  = [6; 4; 2; 9] /\
  map (get_level KZ mono_lit 0) [0; 1; 2] = [2; 4; 6].
Proof.
  assert (H1 : vChannels mono_lit <> None) by (vm_compute; discriminate).
  assert (H2 : 0 <= 0 < nChannels mono_lit) by (vm_compute; split; congruence).
  assert (H3 : nth_error (channels_of mono_lit) (Z.to_nat 0) = Some (channel mono_lit 0))
    by (unfold channel; apply nth_error_nth'; vm_compute; lia).
  split; [exact H1|]. split; [exact H2|]. split; [exact H3|].
  destruct (@get_spectrum_is_get_level Z KZ mono_lit 0 (fun _ => 9) bins 3 _ H1 H2 H3)
    as (E & S & O).
  split; [exact E|]. split; [exact S|]. split; [exact O|].
  split; vm_compute; reflexivity.
Defined.

Lemma read_frequencies_grid_witness :
  vChannels mono <> None /\ 2 <= 5 /\ (1 = 0 \/ 1 = 1) /\
  let r := read_frequencies KZ Z.add Z.sub Z.div Z.log2 (Z.pow 2) (fun n => n) 0 1
             mono (fun _ => 0) 100 500 5 1 in
  fst r = true /\ snd r (5 - 1) = 500 /\
  (forall i, i < 0 \/ 5 <= i -> snd r i = 0).
Proof.
  assert (H1 : vChannels mono <> None) by (vm_compute; discriminate).
  assert (H2 : 2 <= 5) by lia.
  assert (H3 : 1 = 0 \/ 1 = 1) by (right; reflexivity).
  repeat (split; [assumption|]).
  destruct (@read_frequencies_grid Z KZ Z.add Z.sub Z.div Z.log2 (Z.pow 2)
              (fun n => n) Z.abs 0 1 mono (fun _ => 0) 100 500 5 1 H1 H2 H3)
    as (E & L & _ & O).
  cbv zeta. split; [exact E|]. split; [exact L|exact O].
Defined.

(** The linear grid of five points from 100 to 500. *)
Example read_frequencies_linear :
  map (snd (read_frequencies KZ Z.add Z.sub Z.div Z.log2 (Z.pow 2) (fun n => n) 0 1
              mono (fun _ => 0) 100 500 5 1)) [0; 1; 2; 3; 4; 5]
  = [100; 200; 300; 400; 500; 0].
Proof. vm_compute. reflexivity. Qed.

(** Four points from 1 to 64 at rank 2 ([N = 4]) and 4 samples per second:
    the frequencies are 1, 4, 16, 64, the scale is [N / sr = 1] and the
    indices 1, 4, 16, 64 are clamped to [N / 2 + 1 = 3]. *)
Lemma get_frequencies_clamped_witness :
  (forall x, 0 <= Z.abs x) /\ 0 <= nRank (set_sample_rate mono 4) /\
  (forall i, 0 <= i < 4 ->
     0 <= snd (get_frequencies KZ Z.div Z.log2 (Z.pow 2) (fun n => n) Z.abs
                 (set_sample_rate mono 4) (fun _ => 0) (fun _ => 7) 1 64 4) i
       <= Z.shiftl 1 (nRank (set_sample_rate mono 4)) / 2 + 1) /\
  (forall i, 0 <= i < 4 ->
     snd (get_frequencies KZ Z.div Z.log2 (Z.pow 2) (fun n => n) Z.abs
            (set_sample_rate mono 4) (fun _ => 0) (fun _ => 7) 1 64 4) i
     = Z.min (Z.abs (fmul KZ (4 / nSampleRate (set_sample_rate mono 4))
                       (fst (get_frequencies KZ Z.div Z.log2 (Z.pow 2) (fun n => n)
                               Z.abs (set_sample_rate mono 4) (fun _ => 0)
                               (fun _ => 7) 1 64 4) i)))
             3) /\
  map (fst (get_frequencies KZ Z.div Z.log2 (Z.pow 2) (fun n => n) Z.abs
              (set_sample_rate mono 4) (fun _ => 0) (fun _ => 7) 1 64 4))
      [0; 1; 2; 3; 4]
  = [1; 4; 16; 64; 0] /\
  map (snd (get_frequencies KZ Z.div Z.log2 (Z.pow 2) (fun n => n) Z.abs
              (set_sample_rate mono 4) (fun _ => 0) (fun _ => 7) 1 64 4))
      [0; 1; 2; 3; 4]
  = [1; 3; 3; 3; 7].
Proof.
  assert (H1 : forall x, 0 <= Z.abs x) by (intros x; lia).
  assert (H2 : 0 <= nRank (set_sample_rate mono 4)) by (vm_compute; congruence).
  split; [exact H1|]. split; [exact H2|].
  pose proof (@get_frequencies_clamped Z KZ Z.div Z.log2 (Z.pow 2)
                (fun n => n) Z.abs (set_sample_rate mono 4) (fun _ => 0)
                (fun _ => 7) 1 64 4 H1 H2) as H.
  cbv zeta in H. destruct H as (Hin & _).
  split; [intros i Hi; exact (proj1 (proj2 (Hin i Hi)))|].
  split.
  - intros i Hi. destruct (Hin i Hi) as (_ & _ & Hmin).
    change (Z.shiftl 1 (nRank (set_sample_rate mono 4))) with 4 in Hmin.
    apply Hmin. vm_compute. reflexivity.
  - split; vm_compute; reflexivity.
Defined.

End AnalyzerData.

(* ================================================================== *)
(** * Oscilloscope: settings, the history before the trigger, idle runs *)
(* ================================================================== *)

Module OscilloscopeRuns.

Import Oscilloscope.

Local Open Scope Z_scope.

Section Runs.
Variables F Trg Ovs : Type.
Variable K : collab F Trg Ovs.

Ltac no_wrap :=
  repeat match goal with
  | |- context [wrap ?x] =>
      rewrite (@wrap_small x) by (change (2 ^ 64) with 18446744073709551616; lia)
  end.

(** ** update_settings *)

(** X20.  [update_settings] with [bSync] set clamps the sweep to the
    buffers: at most 196608 samples before the trigger and at most 196608
    in all, [nLimit] being their sum; it rewinds both heads and the trigger
    position, clears [bSweepComplete] and [bSync], and keeps the state of
    the machine and the two buffers.  A second call changes nothing. *)
Theorem update_settings_clamps (st : osc F Trg Ovs) :
  (forall rate s, 0 <= seconds_to_samples K rate s) ->
  bSync st = true ->
  let st' := update_settings K st in
  0 <= nPreTrigger st' <= CAPTURE_BUFFER_LIMIT_SIZE /\
  0 <= nPostTrigger st' /\
  nPreTrigger st' + nPostTrigger st' <= SWEEP_BUFFER_LIMIT_SIZE /\
  nLimit st' = nPreTrigger st' + nPostTrigger st' /\
  sSweepParams_nHead st' = 0 /\ sBufferParams_nHead st' = 0 /\
  nTriggerAt st' = 0 /\ bSweepComplete st' = false /\ bSync st' = false /\
  enState st' = enState st /\
  vCaptureBuffer st' = vCaptureBuffer st /\ vSweepBuffer st' = vSweepBuffer st /\
  update_settings K st' = st'.
Proof.
  intros Hs Hb. cbv zeta.
  assert (Hidem : update_settings K (update_settings K st) = update_settings K st).
  { unfold update_settings at 1.
    replace (bSync (update_settings K st)) with false; [reflexivity|].
    unfold update_settings. rewrite Hb. reflexivity. }
  rewrite Hidem. unfold update_settings. rewrite Hb. cbn [negb].
  cbn [nPreTrigger nPostTrigger nLimit sSweepParams_nHead sBufferParams_nHead
       nTriggerAt bSweepComplete bSync enState vCaptureBuffer vSweepBuffer].
  unfold CAPTURE_BUFFER_LIMIT_SIZE, SWEEP_BUFFER_LIMIT_SIZE.
  change (196608 <? 196608) with false. cbv iota.
  set (rate := wrap (_ * _)).
  pose proof (Hs rate (fPreTrigger st)) as Hpre.
  pose proof (Hs rate (fPostTrigger st)) as Hpost.
  set (pre0 := seconds_to_samples K rate (fPreTrigger st)) in *.
  set (post0 := seconds_to_samples K rate (fPostTrigger st)) in *.
  destruct (Z.ltb_spec pre0 196608); no_wrap;
    match goal with
    | |- context [post0 <? ?x] => destruct (Z.ltb_spec post0 x)
    end; no_wrap; repeat split; lia.
Qed.

(** ** The history before the trigger *)

Lemma sweep_from_the_past_all (st : osc F Trg Ovs) :
  0 <= nTriggerAt st < CAPTURE_BUFFER_LIMIT_SIZE ->
  nPreTrigger st = 0 ->
  sSweepParams_nHead st = 0 ->
  sSweepParams_nHead (sweep_from_the_past st) = CAPTURE_BUFFER_LIMIT_SIZE /\
  forall k, 0 <= k < CAPTURE_BUFFER_LIMIT_SIZE ->
    vSweepBuffer (sweep_from_the_past st) k =
    vCaptureBuffer st
      ((nTriggerAt st - CAPTURE_BUFFER_LIMIT_SIZE + k) mod CAPTURE_BUFFER_LIMIT_SIZE).
Proof.
  intros Ht Hp Hh. unfold sweep_from_the_past.
  unfold CAPTURE_BUFFER_LIMIT_SIZE in *. rewrite Hp.
  replace (nTriggerAt st <? 0) with false by (symmetry; apply Z.ltb_ge; lia).
  rewrite Z.sub_0_r. no_wrap.
  replace (nTriggerAt st >=? nTriggerAt st) with true
    by (symmetry; apply Z.geb_le; lia).
  cbn [set_sSweepParams_nHead set_vSweepBuffer sSweepParams_nHead vSweepBuffer
       vCaptureBuffer nTriggerAt].
  rewrite Hh. no_wrap. split; [lia|].
  intros k Hk. unfold copy.
  destruct (Z_lt_ge_dec k (196608 - nTriggerAt st)) as [Hk1|Hk2].
  - rewrite (@copy_outside _ _ k) by lia. rewrite (@copy_inside 0 _ k) by lia.
    f_equal. Z.div_mod_to_equations. lia.
  - rewrite (@copy_inside _ _ k) by lia.
    f_equal. Z.div_mod_to_equations. lia.
Qed.

(** The cells the sweep buffer receives when sample [n] fires. *)
Lemma trigger_iter_history (n : nat) (st : osc F Trg Ovs) :
  get_trigger_state K
    (single_sample_processor K
       (vCaptureBuffer st (sBufferParams_nHead st + Z.of_nat n)) (sTrigger st))
    = TRG_STATE_FIRED ->
  0 <= sBufferParams_nHead st + Z.of_nat n < CAPTURE_BUFFER_LIMIT_SIZE ->
  0 <= nPreTrigger st <= CAPTURE_BUFFER_LIMIT_SIZE ->
  let copied :=
    if nPreTrigger st =? 0 then CAPTURE_BUFFER_LIMIT_SIZE else nPreTrigger st in
  enState (trigger_iter K n st) = OSC_STATE_SWEEPING /\
  nTriggerAt (trigger_iter K n st) = sBufferParams_nHead st + Z.of_nat n /\
  sSweepParams_nHead (trigger_iter K n st) = copied /\
  forall k, 0 <= k < copied ->
    vSweepBuffer (trigger_iter K n st) k =
    vCaptureBuffer st
      ((sBufferParams_nHead st + Z.of_nat n - copied + k)
       mod CAPTURE_BUFFER_LIMIT_SIZE).
Proof.
  intros Hf Ht Hp. cbv zeta.
  destruct (trigger_iter_accepts K n st Hf) as (E1 & E2 & _).
  assert (Ew : wrap (sBufferParams_nHead st + Z.of_nat n)
               = sBufferParams_nHead st + Z.of_nat n).
  { unfold CAPTURE_BUFFER_LIMIT_SIZE in Ht. now no_wrap. }
  rewrite Ew in E2. split; [exact E1|]. split; [exact E2|].
  unfold trigger_iter. cbv zeta.
  cbn [set_sTrigger sTrigger sBufferParams_nHead vCaptureBuffer].
  rewrite Hf.
  set (st1 := set_bSweepComplete _ _).
  assert (T1 : nTriggerAt st1 = sBufferParams_nHead st + Z.of_nat n)
    by (rewrite <- Ew; reflexivity).
  assert (P1 : nPreTrigger st1 = nPreTrigger st) by reflexivity.
  assert (H1 : sSweepParams_nHead st1 = 0) by reflexivity.
  assert (C1 : vCaptureBuffer st1 = vCaptureBuffer st) by reflexivity.
  destruct (Z.eqb_spec (nPreTrigger st) 0) as [Hz|Hnz].
  - destruct (@sweep_from_the_past_all st1) as (Eh & Ek);
      [rewrite T1; exact Ht|congruence|exact H1|].
    split; [exact Eh|]. intros k Hk. rewrite (Ek k Hk), T1, C1. reflexivity.
  - destruct (@sweep_from_the_past_splice _ _ _ st1) as (Eh & Ek);
      [rewrite T1; exact Ht|rewrite P1; lia|exact H1|].
    rewrite P1 in Eh, Ek.
    split; [exact Eh|]. intros k Hk. rewrite (Ek k Hk), T1, C1. reflexivity.
Qed.

(** X21.  When sample [n] of a batch fires the trigger, the sweep buffer
    receives the history that precedes it: its first [nPreTrigger] cells
    are the [nPreTrigger] cells of the capture ring that end before the
    trigger cell, in ring order, and the sweep head is left behind them.
    For [0 < nPreTrigger < 196608] the trigger sample is not among them.
    With [nPreTrigger = 0] and with [nPreTrigger = 196608] it is the whole
    ring, all 196608 cells, that is copied, and the copy starts with the
    trigger sample itself. *)
Theorem trigger_fired_copies_history (n : nat) (st : osc F Trg Ovs) :
  get_trigger_state K
    (single_sample_processor K
       (vCaptureBuffer st (sBufferParams_nHead st + Z.of_nat n)) (sTrigger st))
    = TRG_STATE_FIRED ->
  0 <= sBufferParams_nHead st + Z.of_nat n < CAPTURE_BUFFER_LIMIT_SIZE ->
  0 <= nPreTrigger st <= CAPTURE_BUFFER_LIMIT_SIZE ->
  let copied :=
    if nPreTrigger st =? 0 then CAPTURE_BUFFER_LIMIT_SIZE else nPreTrigger st in
  enState (trigger_iter K n st) = OSC_STATE_SWEEPING /\
  nTriggerAt (trigger_iter K n st) = sBufferParams_nHead st + Z.of_nat n /\
  sSweepParams_nHead (trigger_iter K n st) = copied /\
  (forall k, 0 <= k < copied ->
     vSweepBuffer (trigger_iter K n st) k =
     vCaptureBuffer st
       ((sBufferParams_nHead st + Z.of_nat n - copied + k)
        mod CAPTURE_BUFFER_LIMIT_SIZE)) /\
  (0 < nPreTrigger st < CAPTURE_BUFFER_LIMIT_SIZE ->
   forall k, 0 <= k < copied ->
     (sBufferParams_nHead st + Z.of_nat n - copied + k)
       mod CAPTURE_BUFFER_LIMIT_SIZE
     <> sBufferParams_nHead st + Z.of_nat n) /\
  (nPreTrigger st = 0 \/ nPreTrigger st = CAPTURE_BUFFER_LIMIT_SIZE ->
   copied = CAPTURE_BUFFER_LIMIT_SIZE /\
   vSweepBuffer (trigger_iter K n st) 0 =
   vCaptureBuffer st (sBufferParams_nHead st + Z.of_nat n)).
Proof.
  intros Hf Ht Hp.
  pose proof (trigger_iter_history n st Hf Ht Hp) as H.
  cbv zeta in *. destruct H as (E1 & E2 & Eh & Ek).
  split; [exact E1|]. split; [exact E2|]. split; [exact Eh|]. split; [exact Ek|].
  unfold CAPTURE_BUFFER_LIMIT_SIZE in *. split.
  - intros Hin k Hk.
    replace (nPreTrigger st =? 0) with false in *
      by (symmetry; apply Z.eqb_neq; lia).
    Z.div_mod_to_equations. lia.
  - intros Hall.
    assert (Ec : (if nPreTrigger st =? 0 then 196608 else nPreTrigger st) = 196608)
      by (destruct (Z.eqb_spec (nPreTrigger st) 0); lia).
    split; [exact Ec|].
    rewrite Ec in Ek. rewrite (Ek 0) by lia.
    f_equal. Z.div_mod_to_equations. lia.
Qed.

(** ** What [process] never touches *)

(** The settings of the object: what [update_settings] and the setters
    establish. *)
Definition settings (st : osc F Trg Ovs) :=
  (nSampleRate st, nOverSampleRate st, enTriggerType st,
   (fPreTrigger st, fPostTrigger st, fVertOffset st, fHorOffset st),
   (nPreTrigger st, nPostTrigger st, nLimit st),
   (enOverMode st, nOversampling st, enOutputMode st, bSync st)).

Lemma sweep_from_the_past_settings (st : osc F Trg Ovs) :
  settings (sweep_from_the_past st) = settings st.
Proof.
  unfold sweep_from_the_past.
  destruct (nTriggerAt st <? nPreTrigger st);
    match goal with |- context [?a >=? ?b] => destruct (a >=? b) end;
    reflexivity.
Qed.

Lemma trigger_iter_settings (n : nat) (st : osc F Trg Ovs) :
  settings (trigger_iter K n st) = settings st.
Proof.
  unfold trigger_iter. cbn [set_sTrigger sTrigger].
  destruct (get_trigger_state K _); try reflexivity.
  now rewrite sweep_from_the_past_settings.
Qed.

Lemma capture_settings (st : osc F Trg Ovs) (src : list F) (to_do : Z) :
  settings (capture K st src to_do) = settings st.
Proof. unfold capture. now destruct (upsample K _ _). Qed.

Lemma sweep_post_settings (st : osc F Trg Ovs) :
  settings (sweep_post st) = settings st.
Proof. unfold sweep_post. now destruct (nTriggerAt st <=? copy_tail st). Qed.

Lemma sweep_done_settings (st : osc F Trg Ovs) :
  settings (sweep_done st) = settings st.
Proof. unfold sweep_done. now destruct (_ >=? _). Qed.

Lemma process_step_settings (st st' : osc F Trg Ovs) (src : list F)
  (count count' : Z) :
  process_step K st src count = Some (st', count') ->
  settings st' = settings st /\
  0 <= sBufferParams_nHead st' < CAPTURE_BUFFER_LIMIT_SIZE.
Proof.
  unfold process_step, acquiring_step, sweeping_step.
  assert (Hmod : forall x, 0 <= x mod CAPTURE_BUFFER_LIMIT_SIZE
                               < CAPTURE_BUFFER_LIMIT_SIZE).
  { intros x. apply Z.mod_pos_bound. reflexivity. }
  destruct (enState st).
  - destruct (batch st count) as [[to_store to_do]|]; [|discriminate].
    intros E. inversion E; subst; clear E. split.
    + change (settings (advance_head ?s to_store)) with (settings s).
      rewrite (for_loop_keeps settings (trigger_iter K) _ _ trigger_iter_settings).
      apply capture_settings.
    + apply Hmod.
  - destruct (batch (sweep_post st) count) as [[to_store to_do]|]; [|discriminate].
    intros E. inversion E; subst; clear E. split.
    + rewrite sweep_done_settings.
      change (settings (advance_head ?s to_store)) with (settings s).
      rewrite capture_settings. apply sweep_post_settings.
    + unfold sweep_done. destruct (_ >=? _); apply Hmod.
Qed.

(** X22.  [process] never changes a setting: the rates, the trigger type,
    the pre- and post-trigger lengths, [nLimit], the oversampling, the
    output mode and [bSync] are after the call what they were before; and
    the head of the capture ring, once within the ring, stays within it. *)
Theorem process_keeps_settings (fuel : nat) (st st' : osc F Trg Ovs)
  (src : list F) (count : Z) :
  process_loop K fuel st src count = Returned st' ->
  settings st' = settings st /\
  (0 <= sBufferParams_nHead st < CAPTURE_BUFFER_LIMIT_SIZE ->
   0 <= sBufferParams_nHead st' < CAPTURE_BUFFER_LIMIT_SIZE).
Proof.
  revert st count.
  induction fuel as [|fuel IH]; intros st count E; cbn [process_loop] in E;
    destruct (count =? 0);
    try (inversion E; subst; split; [reflexivity|tauto]);
    try discriminate.
  destruct (process_step K st src count) as [[st1 count1]|] eqn:Es; [|discriminate].
  destruct (@process_step_settings st st1 src count count1 Es) as (S1 & H1).
  destruct (IH _ _ E) as (S2 & H2).
  split; [congruence|]. intros _. now apply H2.
Qed.

(** ** Runs in which the trigger stays quiet *)

(** What a sweep owns: the state of the machine, the sweep buffer and its
    head, the trigger position and the completion flag. *)
Definition sweep_part (st : osc F Trg Ovs) :=
  (enState st, vSweepBuffer st, sSweepParams_nHead st, nTriggerAt st,
   bSweepComplete st).

Section Quiet.
Hypothesis quiet :
  forall x t, get_trigger_state K (single_sample_processor K x t) <> TRG_STATE_FIRED.

Lemma trigger_iter_quiet (n : nat) (st : osc F Trg Ovs) :
  sweep_part (trigger_iter K n st) = sweep_part st /\
  vCaptureBuffer (trigger_iter K n st) = vCaptureBuffer st.
Proof.
  unfold trigger_iter. cbn [set_sTrigger sTrigger].
  pose proof (quiet (vCaptureBuffer st (sBufferParams_nHead st + Z.of_nat n))
                    (sTrigger st)) as Hq.
  destruct (get_trigger_state K _); try congruence; now split.
Qed.

Lemma acquiring_step_quiet (st st' : osc F Trg Ovs) (src : list F)
  (count count' : Z) :
  enState st = OSC_STATE_ACQUIRING ->
  process_step K st src count = Some (st', count') ->
  sweep_part st' = sweep_part st.
Proof.
  intros Ha. unfold process_step. rewrite Ha. unfold acquiring_step.
  destruct (batch st count) as [[to_store to_do]|]; [|discriminate].
  intros E. inversion E; subst; clear E.
  change (sweep_part (advance_head ?s to_store)) with (sweep_part s).
  rewrite (for_loop_keeps sweep_part (trigger_iter K) _ _
             (fun n s => proj1 (trigger_iter_quiet n s))).
  unfold capture. now destruct (upsample K _ _).
Qed.

(** X23.  While the trigger does not fire, an acquiring oscilloscope keeps
    acquiring: [process] leaves the state at ACQUIRING and never writes to
    the sweep buffer, its head, the trigger position or the completion
    flag. *)
Theorem quiet_trigger_keeps_acquiring (fuel : nat) (st st' : osc F Trg Ovs)
  (src : list F) (count : Z) :
  enState st = OSC_STATE_ACQUIRING ->
  process_loop K fuel st src count = Returned st' ->
  enState st' = OSC_STATE_ACQUIRING /\
  vSweepBuffer st' = vSweepBuffer st /\
  sSweepParams_nHead st' = sSweepParams_nHead st /\
  nTriggerAt st' = nTriggerAt st /\
  bSweepComplete st' = bSweepComplete st.
Proof.
  intros Ha E.
  assert (H : sweep_part st' = sweep_part st).
  { revert st count Ha E.
    induction fuel as [|fuel IH]; intros st count Ha E; cbn [process_loop] in E;
      destruct (count =? 0);
      try (inversion E; subst; reflexivity); try discriminate.
    destruct (process_step K st src count) as [[st1 count1]|] eqn:Es;
      [|discriminate].
    pose proof (@acquiring_step_quiet st st1 src count count1 Ha Es) as S1.
    rewrite <- S1. apply (IH st1 count1); [|exact E].
    unfold sweep_part in S1. congruence. }
  unfold sweep_part in H. inversion H as [[E1 E2 E3 E4 E5]].
  repeat split; congruence.
Qed.

End Quiet.

(** ** The head of the capture ring *)

Lemma batch_geometry (s st : osc F Trg Ovs) (count : Z) :
  geometry s = geometry st -> batch s count = batch st count.
Proof.
  unfold geometry, batch. intros H. inversion H as [[E1 E2]].
  now rewrite E1, E2.
Qed.

Lemma process_step_head (st st' : osc F Trg Ovs) (src : list F) (count count' : Z) :
  process_step K st src count = Some (st', count') ->
  exists to_store to_do,
    batch st count = Some (to_store, to_do) /\
    nOversampling st' = nOversampling st /\
    sBufferParams_nHead st' =
      wrap (sBufferParams_nHead st + to_store) mod CAPTURE_BUFFER_LIMIT_SIZE /\
    count' = wrap (count - to_do).
Proof.
  unfold process_step. destruct (enState st).
  - unfold acquiring_step.
    destruct (batch st count) as [[to_store to_do]|] eqn:Eb; [|discriminate].
    intros E. inversion E; subst; clear E.
    exists to_store, to_do. split; [reflexivity|].
    match goal with |- context [advance_head ?s to_store] =>
      assert (Hg : geometry s = geometry st)
        by (rewrite (for_loop_keeps (@geometry F Trg Ovs) (trigger_iter K) _ _
                       (trigger_iter_geometry K));
            apply capture_geometry);
      pose proof (f_equal fst Hg) as G1; pose proof (f_equal snd Hg) as G2
    end.
    cbn [geometry fst snd] in G1, G2.
    cbn [advance_head set_sBufferParams_nHead nOversampling sBufferParams_nHead].
    rewrite G1, G2. now repeat split.
  - unfold sweeping_step.
    rewrite (batch_geometry count (sweep_post_geometry st)).
    destruct (batch st count) as [[to_store to_do]|] eqn:Eb; [|discriminate].
    intros E. inversion E; subst; clear E.
    exists to_store, to_do. split; [reflexivity|].
    match goal with |- context [sweep_done (advance_head ?s to_store)] =>
      assert (Hg : geometry s = geometry st)
        by (rewrite capture_geometry; apply sweep_post_geometry);
      pose proof (f_equal fst Hg) as G1; pose proof (f_equal snd Hg) as G2;
      pose proof (sweep_done_geometry (advance_head s to_store)) as Hd
    end.
    pose proof (f_equal fst Hd) as D1. pose proof (f_equal snd Hd) as D2.
    cbn [geometry fst snd] in G1, G2, D1, D2. rewrite D1, D2.
    cbn [advance_head set_sBufferParams_nHead nOversampling sBufferParams_nHead].
    rewrite G1, G2. now repeat split.
Qed.

Lemma batch_exact (st : osc F Trg Ovs) (count q : Z) :
  1 <= nOversampling st ->
  0 <= sBufferParams_nHead st < CAPTURE_BUFFER_LIMIT_SIZE ->
  0 <= count -> nOversampling st * count < 2 ^ 64 ->
  CAPTURE_BUFFER_LIMIT_SIZE - sBufferParams_nHead st = q * nOversampling st ->
  batch st count =
  Some (nOversampling st * Z.min count q, Z.min count q).
Proof.
  intros HM Hh Hc Hov Hq. unfold batch, CAPTURE_BUFFER_LIMIT_SIZE in *.
  change (2 ^ 64) with 18446744073709551616 in Hov.
  no_wrap.
  destruct (Z.eqb_spec (nOversampling st) 0); [lia|].
  assert (E : (if nOversampling st * count >? 196608 - sBufferParams_nHead st
               then 196608 - sBufferParams_nHead st
               else nOversampling st * count)
              = Z.min count q * nOversampling st).
  { destruct (Z.gtb_spec (nOversampling st * count)
                         (196608 - sBufferParams_nHead st)); nia. }
  rewrite E, Z.div_mul by lia. f_equal. f_equal. lia.
Qed.

Lemma process_loop_head (fuel : nat) (src : list F) :
  forall (st st' : osc F Trg Ovs) (count : Z),
    1 <= nOversampling st ->
    (nOversampling st | CAPTURE_BUFFER_LIMIT_SIZE) ->
    (nOversampling st | sBufferParams_nHead st) ->
    0 <= sBufferParams_nHead st < CAPTURE_BUFFER_LIMIT_SIZE ->
    0 <= count -> nOversampling st * count < 2 ^ 64 ->
    process_loop K fuel st src count = Returned st' ->
    sBufferParams_nHead st' =
      (sBufferParams_nHead st + nOversampling st * count)
        mod CAPTURE_BUFFER_LIMIT_SIZE.
Proof.
  induction fuel as [|fuel IH]; intros st st' count HM Hcap Hhd Hh Hc Hov E;
    cbn [process_loop] in E;
    (destruct (Z.eqb_spec count 0) as [->|Hnz];
     [inversion E; subst; rewrite Z.mul_0_r, Z.add_0_r;
      symmetry; now apply Z.mod_small|]);
    [discriminate|].
  destruct (process_step K st src count) as [[st1 count1]|] eqn:Es; [|discriminate].
  destruct (@process_step_head st st1 src count count1 Es)
    as (to_store & to_do & Eb & EM & Eh & Ec).
  destruct Hcap as [qc Hqc]. destruct Hhd as [qh Hqh].
  assert (Hq : CAPTURE_BUFFER_LIMIT_SIZE - sBufferParams_nHead st
               = (qc - qh) * nOversampling st) by lia.
  rewrite (@batch_exact st count (qc - qh) HM Hh Hc Hov Hq) in Eb.
  inversion Eb; subst to_store to_do; clear Eb.
  set (m := nOversampling st) in *. set (h := sBufferParams_nHead st) in *.
  set (d := Z.min count (qc - qh)) in *.
  assert (Hd : 1 <= d <= count) by (subst d; nia).
  unfold CAPTURE_BUFFER_LIMIT_SIZE in *.
  change (2 ^ 64) with 18446744073709551616 in Hov.
  assert (Hmd : 0 <= m * d <= m * count) by nia.
  assert (Hfit : h + m * d <= 196608) by (subst d; nia).
  rewrite (@wrap_small (h + m * d)) in Eh
    by (change (2 ^ 64) with 18446744073709551616; lia).
  rewrite (@wrap_small (count - d)) in Ec
    by (change (2 ^ 64) with 18446744073709551616; nia).
  assert (Hh1 : 0 <= sBufferParams_nHead st1 < 196608)
    by (rewrite Eh; apply Z.mod_pos_bound; lia).
  assert (Hdiv1 : (nOversampling st1 | sBufferParams_nHead st1)).
  { rewrite EM, Eh. fold m.
    rewrite Z.mod_eq by lia.
    apply Z.divide_sub_r.
    - exists (qh + d). lia.
    - apply Z.divide_mul_l. now exists qc. }
  assert (Hc1 : 0 <= count1 <= count) by lia.
  assert (Hov1 : nOversampling st1 * count1 < 18446744073709551616)
    by (rewrite EM; fold m; nia).
  rewrite (IH st1 st' count1);
    [ | rewrite EM; exact HM | rewrite EM; now exists qc | exact Hdiv1
      | exact Hh1 | lia | exact Hov1 | exact E ].
  rewrite EM. fold m. rewrite Eh, Ec, Z.add_mod_idemp_l by lia. f_equal. lia.
Qed.

(** X24.  The head of the capture ring after [process]: when the
    oversampling factor [m >= 1] divides the size of the ring (196608, a
    multiple of 3, 4, 6 and 8) and the head is a multiple of [m], a call
    with [count] samples that returns leaves the head at
    [(head + m * count) mod 196608], in either state of the machine. *)
Theorem ring_head_after_process (fuel : nat) (st st' : osc F Trg Ovs)
  (src : list F) (count : Z) :
  1 <= nOversampling st ->
  (nOversampling st | CAPTURE_BUFFER_LIMIT_SIZE) ->
  (nOversampling st | sBufferParams_nHead st) ->
  0 <= sBufferParams_nHead st < CAPTURE_BUFFER_LIMIT_SIZE ->
  0 <= count -> nOversampling st * count < 2 ^ 64 ->
  process_loop K fuel st src count = Returned st' ->
  sBufferParams_nHead st' =
    (sBufferParams_nHead st + nOversampling st * count)
      mod CAPTURE_BUFFER_LIMIT_SIZE /\
  (nOversampling st | sBufferParams_nHead st').
Proof.
  intros HM Hcap Hhd Hh Hc Hov E.
  pose proof (@process_loop_head fuel src st st' count HM Hcap Hhd Hh Hc Hov E) as Eh.
  split; [exact Eh|]. rewrite Eh.
  destruct Hcap as [qc Hqc]. destruct Hhd as [qh Hqh].
  rewrite Z.mod_eq by (unfold CAPTURE_BUFFER_LIMIT_SIZE; lia).
  apply Z.divide_sub_r.
  - exists (qh + count). lia.
  - apply Z.divide_mul_l. now exists qc.
Qed.

(** ** What a call stores to the capture ring *)











End Runs.

(** ** Closed instances over the integers *)

Lemma process_loop_run (F Trg Ovs : Type) (K : collab F Trg Ovs) (fuel : nat)
  (st : osc F Trg Ovs) (src : list F) (count : Z) :
  returned K fuel st src count = true ->
  process_loop K fuel st src count = Returned (run K fuel st src count).
Proof.
  unfold returned, run.
  destruct (process_loop K fuel st src count); (reflexivity || discriminate).
Qed.

(** Collaborators whose trigger never fires and whose conversion from
    seconds never goes below zero. *)
Definition KQ : collab Z (Z * trg_state_t) Z :=
  mk_collab 0 (fun rate s => Z.max 0 (rate * s)) (fun rate n => n / rate)
            (0, TRG_STATE_IDLE) (fun x t => (x, TRG_STATE_WAITING)) snd
            (fun _ t => t) (fun _ t => t) (fun t => t)
            1 (fun _ o => o) (fun m _ => m) (fun _ => true) (fun o => o)
            (fun o => o) (fun o l => (hold o l, o))
            0 1.

(** A request for 300000 samples before the trigger and as many after. *)
Definition wide : osc Z (Z * trg_state_t) Z :=
  configure (Oscilloscope KQ) 1 1 1 300000 300000.

Lemma update_settings_clamps_witness :
  (forall rate s, 0 <= seconds_to_samples KQ rate s) /\
  bSync wide = true /\
  nPreTrigger (update_settings KQ wide) = 196608 /\
  nPostTrigger (update_settings KQ wide) = 0 /\
  nLimit (update_settings KQ wide) = 196608 /\
  update_settings KQ (update_settings KQ wide) = update_settings KQ wide.
Proof.
  assert (H1 : forall rate s, 0 <= seconds_to_samples KQ rate s)
    by (intros rate s; cbn; lia).
  assert (H2 : bSync wide = true) by reflexivity.
  split; [exact H1|]. split; [exact H2|].
  split; [vm_compute; reflexivity|]. split; [vm_compute; reflexivity|].
  split; [vm_compute; reflexivity|].
  exact (proj2 (proj2 (proj2 (proj2 (proj2 (proj2 (proj2 (proj2 (proj2 (proj2
          (proj2 (proj2 (@update_settings_clamps Z _ Z KQ wide H1 H2))))))))))))).
Defined.

(** A ring that holds [1000 + i] in cell [i], two samples of history; the
    trigger fires at cell 5. *)
Definition filled : osc Z (Z * trg_state_t) Z :=
  set_vCaptureBuffer (scope 2 2) (fun i => 1000 + i).

Lemma trigger_fired_copies_history_witness :
  get_trigger_state KZ
    (single_sample_processor KZ
       (vCaptureBuffer filled (sBufferParams_nHead filled + Z.of_nat 5))
       (sTrigger filled)) = TRG_STATE_FIRED /\
  0 <= sBufferParams_nHead filled + Z.of_nat 5 < CAPTURE_BUFFER_LIMIT_SIZE /\
  0 <= nPreTrigger filled <= CAPTURE_BUFFER_LIMIT_SIZE /\
  0 < nPreTrigger filled < CAPTURE_BUFFER_LIMIT_SIZE /\
  enState (trigger_iter KZ 5 filled) = OSC_STATE_SWEEPING /\
  nTriggerAt (trigger_iter KZ 5 filled) = 5 /\
  sSweepParams_nHead (trigger_iter KZ 5 filled) = 2 /\
  (forall k, 0 <= k < 2 ->
     vSweepBuffer (trigger_iter KZ 5 filled) k =
     vCaptureBuffer filled ((5 - 2 + k) mod CAPTURE_BUFFER_LIMIT_SIZE)) /\
  (forall k, 0 <= k < 2 -> (5 - 2 + k) mod CAPTURE_BUFFER_LIMIT_SIZE <> 5) /\
  map (vSweepBuffer (trigger_iter KZ 5 filled)) [0; 1] = [1003; 1004] /\
  vCaptureBuffer filled 5 = 1005.
Proof.
  assert (H1 : get_trigger_state KZ
                 (single_sample_processor KZ
                    (vCaptureBuffer filled (sBufferParams_nHead filled + Z.of_nat 5))
                    (sTrigger filled)) = TRG_STATE_FIRED)
    by (vm_compute; reflexivity).
  assert (H2 : 0 <= sBufferParams_nHead filled + Z.of_nat 5
               < CAPTURE_BUFFER_LIMIT_SIZE) by (vm_compute; split; congruence).
  assert (H3 : 0 <= nPreTrigger filled <= CAPTURE_BUFFER_LIMIT_SIZE)
    by (vm_compute; split; congruence).
  assert (H4 : 0 < nPreTrigger filled < CAPTURE_BUFFER_LIMIT_SIZE)
    by (vm_compute; split; reflexivity).
  split; [exact H1|]. split; [exact H2|]. split; [exact H3|]. split; [exact H4|].
  pose proof (@trigger_fired_copies_history Z _ Z KZ 5 filled H1 H2 H3) as H.
  cbv zeta in H.
  change (sBufferParams_nHead filled + Z.of_nat 5) with 5 in H.
  change (if nPreTrigger filled =? 0 then CAPTURE_BUFFER_LIMIT_SIZE
          else nPreTrigger filled) with 2 in H.
  destruct H as (E1 & E2 & E3 & E4 & E5 & _).
  split; [exact E1|]. split; [exact E2|]. split; [exact E3|]. split; [exact E4|].
  split; [exact (E5 H4)|]. split; vm_compute; reflexivity.
Defined.

(** The trigger position 196606 with [nPreTrigger = 196608], the largest
    value [update_settings] leaves, and with [nPreTrigger = 0]: the whole
    ring is copied and the first cell of the sweep is the trigger sample. *)
Example trigger_history_whole_ring :
  (let st := trigger_iter KZ 0
               (set_sBufferParams_nHead
                  (set_vCaptureBuffer (scope 196608 0) (fun i => 1000 + i))
                  196606) in
   nPreTrigger st = 196608 /\ nTriggerAt st = 196606 /\
   sSweepParams_nHead st = 196608 /\
   map (vSweepBuffer st) [0; 1; 2; 3] = [197606; 197607; 1000; 1001]) /\
  (let st := trigger_iter KZ 0
               (set_sBufferParams_nHead
                  (set_vCaptureBuffer (scope 0 0) (fun i => 1000 + i))
                  196606) in
   nPreTrigger st = 0 /\ nTriggerAt st = 196606 /\
   sSweepParams_nHead st = 196608 /\
   map (vSweepBuffer st) [0; 1; 2; 3] = [197606; 197607; 1000; 1001]).
Proof. vm_compute. repeat split; reflexivity. Qed.

Lemma process_keeps_settings_witness :
  process_loop KZ 1 (scope 1 0) [1; -1; 1] 3
    = Returned (run KZ 1 (scope 1 0) [1; -1; 1] 3) /\
  settings (run KZ 1 (scope 1 0) [1; -1; 1] 3) = settings (scope 1 0) /\
  (0 <= sBufferParams_nHead (scope 1 0) < CAPTURE_BUFFER_LIMIT_SIZE ->
   0 <= sBufferParams_nHead (run KZ 1 (scope 1 0) [1; -1; 1] 3)
     < CAPTURE_BUFFER_LIMIT_SIZE).
Proof.
  assert (H1 : process_loop KZ 1 (scope 1 0) [1; -1; 1] 3
               = Returned (run KZ 1 (scope 1 0) [1; -1; 1] 3))
    by (apply process_loop_run; vm_compute; reflexivity).
  split; [exact H1|].
  exact (@process_keeps_settings Z _ Z KZ 1 (scope 1 0) _ [1; -1; 1] 3 H1).
Defined.

(** Oversampling by 2. *)
Definition scope2 : osc Z (Z * trg_state_t) Z :=
  update_settings KZ (configure (Oscilloscope KZ) 1 2 1 0 0).

Lemma ring_head_after_process_witness :
  1 <= nOversampling scope2 /\
  (nOversampling scope2 | CAPTURE_BUFFER_LIMIT_SIZE) /\
  (nOversampling scope2 | sBufferParams_nHead scope2) /\
  0 <= sBufferParams_nHead scope2 < CAPTURE_BUFFER_LIMIT_SIZE /\
  0 <= 4 /\ nOversampling scope2 * 4 < 2 ^ 64 /\
  process_loop KZ 1 scope2 [-1; -2; -3; -4] 4
    = Returned (run KZ 1 scope2 [-1; -2; -3; -4] 4) /\
  sBufferParams_nHead (run KZ 1 scope2 [-1; -2; -3; -4] 4)
    = (sBufferParams_nHead scope2 + nOversampling scope2 * 4)
        mod CAPTURE_BUFFER_LIMIT_SIZE.
Proof.
  assert (H1 : 1 <= nOversampling scope2) by (vm_compute; congruence).
  assert (H2 : (nOversampling scope2 | CAPTURE_BUFFER_LIMIT_SIZE))
    by (exists 98304; vm_compute; reflexivity).
  assert (H3 : (nOversampling scope2 | sBufferParams_nHead scope2))
    by (exists 0; vm_compute; reflexivity).
  assert (H4 : 0 <= sBufferParams_nHead scope2 < CAPTURE_BUFFER_LIMIT_SIZE)
    by (vm_compute; split; congruence).
  assert (H5 : 0 <= 4) by lia.
  assert (H6 : nOversampling scope2 * 4 < 2 ^ 64) by (vm_compute; reflexivity).
  assert (H7 : process_loop KZ 1 scope2 [-1; -2; -3; -4] 4
               = Returned (run KZ 1 scope2 [-1; -2; -3; -4] 4))
    by (apply process_loop_run; vm_compute; reflexivity).
  split; [exact H1|]. split; [exact H2|]. split; [exact H3|]. split; [exact H4|].
  split; [exact H5|]. split; [exact H6|]. split; [exact H7|].
  exact (proj1 (@ring_head_after_process Z _ Z KZ 1 scope2 _ [-1; -2; -3; -4] 4
                  H1 H2 H3 H4 H5 H6 H7)).
Defined.


(** The same oscilloscope with room for two input samples before the end
    of the ring. *)
Definition scope2_at_end : osc Z (Z * trg_state_t) Z :=
  set_sBufferParams_nHead scope2 (CAPTURE_BUFFER_LIMIT_SIZE - 4).


(** On the example the ring ends with [-1, -1, -2, -2] and starts with
    [-1, -1]: the third sample of the block is never stored. *)
Example wrapped_block_cells :
  returned KZ 2 scope2_at_end [-1; -2; -3] 3 = true /\
  map (vCaptureBuffer (run KZ 2 scope2_at_end [-1; -2; -3] 3))
      [196604; 196605; 196606; 196607; 0; 1; 2]
  = [-1; -1; -2; -2; -1; -1; 0].
Proof. vm_compute. split; reflexivity. Qed.

Definition idle_scope : osc Z (Z * trg_state_t) Z :=
  update_settings KQ (configure (Oscilloscope KQ) 1 1 1 2 2).

Lemma quiet_trigger_keeps_acquiring_witness :
  (forall x t,
     get_trigger_state KQ (single_sample_processor KQ x t) <> TRG_STATE_FIRED) /\
  enState idle_scope = OSC_STATE_ACQUIRING /\
  process_loop KQ 1 idle_scope [1; -1; 1] 3
    = Returned (run KQ 1 idle_scope [1; -1; 1] 3) /\
  enState (run KQ 1 idle_scope [1; -1; 1] 3) = OSC_STATE_ACQUIRING /\
  vSweepBuffer (run KQ 1 idle_scope [1; -1; 1] 3) = vSweepBuffer idle_scope.
Proof.
  assert (H1 : forall x t,
             get_trigger_state KQ (single_sample_processor KQ x t)
             <> TRG_STATE_FIRED) by (intros x t; cbn; discriminate).
  assert (H2 : enState idle_scope = OSC_STATE_ACQUIRING) by reflexivity.
  assert (H3 : process_loop KQ 1 idle_scope [1; -1; 1] 3
               = Returned (run KQ 1 idle_scope [1; -1; 1] 3))
    by (apply process_loop_run; vm_compute; reflexivity).
  split; [exact H1|]. split; [exact H2|]. split; [exact H3|].
  destruct (@quiet_trigger_keeps_acquiring Z _ Z KQ H1 1 idle_scope _
              [1; -1; 1] 3 H2 H3) as (E1 & E2 & _).
  split; [exact E1|exact E2].
Defined.

End OscilloscopeRuns.
